(** * MA5-support backtest engine

    A shallow embedding of [run_backtest] and its helpers
    ([core/backtest_runner_MA5.py]) and of the two [generate_daily_summary]
    functions of the repository (the one of the runner and the one of the
    stand-alone summary tool), followed by the properties of the
    specification, each stated against these definitions.

    Numbers.  Prices, percentages and moving averages are numeric columns
    of a pandas frame.  They are modelled as exact rationals [Q]; the
    comparisons are the boolean tests the source writes, and [round(x, n)]
    is rounding to the nearest multiple of [10^-n], ties to even.
    Not-a-number and infinite values, and the binary representation error
    of literals such as [1.05], are outside the model.

    Frames.  A frame is the [list] of its rows; after
    [reset_index(drop=True)] the row labels are the positions in the list.
    Dates are day numbers in [Z].

    Thresholds.  [Params] holds the six thresholds after the conversion at
    the head of [run_backtest] ([None] for an empty string); the
    conversion itself is not modelled. *)

From Stdlib Require Import QArith ZArith List Bool Lia Lqa Qround Permutation.
From Stdlib Require Import Sorting.Mergesort Sorting.Sorted Orders.
From Stdlib Require String.
Import String.StringSyntax.
Import ListNotations.

Delimit Scope string_scope with string.

Local Open Scope Q_scope.

(** ** Numeric layer *)

Definition Qltb (x y : Q) : bool := negb (Qle_bool y x).

(** Python's built-in [min(a, b)] and [max(a, b)]: the first argument
    is kept unless the second is strictly smaller (larger). *)
Definition py_min (a b : Q) : Q := if Qltb b a then b else a.
Definition py_max (a b : Q) : Q := if Qltb a b then b else a.

(** Round to the nearest integer, ties to even. *)
Definition rint (x : Q) : Z :=
  let f := Qfloor x in
  match Qcompare (x - inject_Z f) (1 # 2) with
  | Lt => f
  | Gt => (f + 1)%Z
  | Eq => if Z.even f then f else (f + 1)%Z
  end.

(** [round(x, ndigits)] for [ndigits >= 0]. *)
Definition round (x : Q) (ndigits : nat) : Q :=
  let scale := inject_Z (10 ^ Z.of_nat ndigits) in
  inject_Z (rint (x * scale)) / scale.

(** ** Data model *)

(** One row of the per-symbol frame.  Columns of the source:
    [date_] is '일자', [open_] '시가', [high] '고가', [low] '저가',
    [close] '종가', [value] '거래대금', [rate] '등락률',
    [foreign] '외국인_순매수' and [institution] '기관_순매수'
    ([None] when the column is absent, which is what [row.get] tests). *)
Record Bar : Type := mkBar {
  date_ : Z;
  open_ : Q;
  high : Q;
  low : Q;
  close : Q;
  value : Q;
  rate : Q;
  MA_5 : Q;
  MA_10 : Q;
  MA_20 : Q;
  foreign : option Q;
  institution : option Q;
  False_Entry_Checker : option String.string
}.

Definition DataFrame : Type := list Bar.

(** [df.loc[i]] *)
Definition loc (df : DataFrame) (i : nat) : option Bar := nth_error df i.

(** [df.loc[a:b]]: label slices include both ends. *)
Definition loc_slice (df : DataFrame) (a b : nat) : list Bar :=
  firstn (S b - a) (skipn a df).

Inductive Outcome : Type := win | loss.

(** The texts the source stores in [note]. *)
Inductive Note : Type :=
| both_hit_gap_down      (* "both hit — gap-down below MA10 → exited at open (loss)" *)
| both_hit_intraday      (* "both hit — MA10 breached intraday → exited at MA10 (loss)" *)
| target_hit_first       (* "target hit first" *)
| gap_down_below_ma10    (* "gap-down below MA10 → exited at open" *)
| intraday_ma10_breach.  (* "intraday MA10 breach → exited at MA10" *)

(** ** Helper functions of the source *)

Definition calculate_target_price (entry_price ma5 ma10 : Q) : Q :=
  let spread_pct := (ma5 - ma10) / ma10 in
  round (entry_price * (1 + spread_pct)) 2.

Definition calculate_return (entry_price exit_price : Q) : Q :=
  round ((exit_price - entry_price) / entry_price * 100) 2.

Definition is_valid_entry (row : Bar) : bool :=
  Qltb (MA_10 row) (MA_5 row) && Qltb (MA_20 row) (MA_10 row).

(** ** Exit logic (the loop over [exit_idx] in [run_backtest]) *)

(** What the exit loop leaves in [exit_idx], [exit_price], [exit_date],
    [outcome], [note] and [max_drawdown] when it breaks. *)
Record ExitEvent : Type := mkExit {
  x_idx : nat;
  x_price : Q;
  x_date : Z;
  x_outcome : Outcome;
  x_note : Note;
  x_max_drawdown : Q
}.

Fixpoint exit_loop (entry_idx : nat) (entry_price target_price : Q)
    (rows : list Bar) (exit_idx : nat) (max_drawdown : Q) : option ExitEvent :=
  match rows with
  | [] => None
  | row_exit :: rest =>
    let high := high row_exit in
    let low := low row_exit in
    let ma10 := MA_10 row_exit in
    let open_price := open_ row_exit in
    let opened_below_ma10 := Qltb open_price ma10 in
    let drawdown := (low - entry_price) / entry_price * 100 in
    let max_drawdown := py_min max_drawdown drawdown in
    let hit_target := Qle_bool target_price high in
    let hit_ma10 := Qle_bool low ma10 || opened_below_ma10 in
    if hit_target && hit_ma10 then
      if opened_below_ma10
      then Some (mkExit exit_idx open_price (date_ row_exit) loss
                        both_hit_gap_down max_drawdown)
      else Some (mkExit exit_idx ma10 (date_ row_exit) loss
                        both_hit_intraday max_drawdown)
    else if (exit_idx =? entry_idx)%nat && hit_target && negb hit_ma10 then
      exit_loop entry_idx entry_price target_price rest (S exit_idx) max_drawdown
    else if hit_target then
      Some (mkExit exit_idx target_price (date_ row_exit) win
                   target_hit_first max_drawdown)
    else if hit_ma10 then
      if opened_below_ma10
      then Some (mkExit exit_idx open_price (date_ row_exit) loss
                        gap_down_below_ma10 max_drawdown)
      else Some (mkExit exit_idx ma10 (date_ row_exit) loss
                        intraday_ma10_breach max_drawdown)
    else
      exit_loop entry_idx entry_price target_price rest (S exit_idx) max_drawdown
  end.

(** [for exit_idx in range(entry_idx, len(df))], with [max_drawdown = 0]
    before the loop. *)
Definition find_exit (df : DataFrame) (entry_idx : nat)
    (entry_price target_price : Q) : option ExitEvent :=
  exit_loop entry_idx entry_price target_price (skipn entry_idx df) entry_idx 0.

(** ** Entry logic (the loop over [forward_idx]) *)

Fixpoint entry_loop (rows : list Bar) (forward_idx : nat) : option (nat * Q) :=
  match rows with
  | [] => None
  | row_forward :: rest =>
    let ma5 := MA_5 row_forward in
    let ma10 := MA_10 row_forward in
    let low := low row_forward in
    let high := high row_forward in
    let open_price := open_ row_forward in
    let close_price := close row_forward in
    let prices := [low; high; open_price; close_price] in
    let crossed_down_ma5 := existsb (fun p => Qltb p ma5) prices in
    if crossed_down_ma5 then
      if Qltb open_price ma10 then None
      else
        let entry_price :=
          if Qltb open_price ma5 then open_price
          else if Qle_bool low ma5 && Qle_bool ma5 high then ma5
          else open_price in
        let spread := (ma5 - ma10) / ma10 * 100 in
        if Qltb spread 3 then None
        else if negb (is_valid_entry row_forward) then None
        else Some (forward_idx, entry_price)
    else entry_loop rest (S forward_idx)
  end.

(** [for forward_idx in range(idx + 1, len(df))] *)
Definition find_entry (df : DataFrame) (idx : nat) : option (nat * Q) :=
  entry_loop (skipn (S idx) df) (S idx).

(** ** Trigger conditions *)

(** Thresholds after the conversion at the head of [run_backtest]:
    [None] is the empty string of the caller (threshold disabled). *)
Record Params : Type := mkParams {
  min_rate : option Q;
  max_rate : option Q;
  min_volume : option Z;
  max_volume : option Z;
  min_foreign : option Z;
  min_institution : option Z
}.

(** [t is None or test(t)] *)
Definition none_or {A : Type} (t : option A) (test : A -> bool) : bool :=
  match t with
  | None => true
  | Some a => test a
  end.

(** [row.get(column, default)] *)
Definition get (cell : option Q) (default : Q) : Q :=
  match cell with
  | Some v => v
  | None => default
  end.

(** The condition of the [if] that opens the trigger block. *)
Definition trigger_cond (p : Params) (prev row : Bar) : bool :=
  none_or (min_rate p) (fun m => Qltb m (rate row)) &&
  none_or (max_rate p) (fun m => Qltb (rate row) m) &&
  none_or (min_volume p) (fun m => Qltb (inject_Z m) (value row)) &&
  none_or (max_volume p) (fun m => Qltb (value row) (inject_Z m)) &&
  none_or (min_foreign p) (fun m => Qltb (inject_Z m) (get (foreign row) 0)) &&
  none_or (min_institution p)
          (fun m => Qltb (inject_Z m) (get (institution row) 0)) &&
  Qltb (-(10)) (rate prev) &&
  Qle_bool (MA_5 row * (105 # 100)) (close row).

(** The flat-day loop over [past_20]. *)
Fixpoint flat_loop (past : list Q) (consecutive_flats : nat) : bool :=
  match past with
  | [] => false
  | r :: rest =>
    if Qeq_bool r 0 then
      let consecutive_flats := S consecutive_flats in
      if (3 <=? consecutive_flats)%nat then true
      else flat_loop rest consecutive_flats
    else flat_loop rest 0
  end.

Definition has_3_or_more_consecutive_zeros (df : DataFrame) (idx : nat) : bool :=
  let past_20 := map rate (loc_slice df (idx - 20) (idx - 1)) in
  flat_loop past_20 0.

(** The trigger block up to the point where [trigger_date] is set: [true]
    when no [continue] is taken.  [prev] is [df.loc[idx - 1]]. *)
Definition is_trigger (p : Params) (df : DataFrame) (idx : nat)
    (prev row : Bar) : bool :=
  if trigger_cond p prev row then
    let ma10 := MA_10 row in
    let ma20 := MA_20 row in
    if Qltb 4 ((ma20 - ma10) / ma10 * 100) then false
    else
      let ma5 := MA_5 row in
      if Qltb 5 ((ma10 - ma5) / ma5 * 100) then false
      else
        let gap_down_pct := (open_ row - close prev) / close prev * 100 in
        if Qltb gap_down_pct (-(10)) then false
        else if has_3_or_more_consecutive_zeros df idx then false
        else true
  else false.

(** ** Metrics *)

(** Trigger intra-day maximum until MA5 is touched. *)
Fixpoint intra_high_loop (rows : list Bar) (trigger_max_high : Q) : Q :=
  match rows with
  | [] => trigger_max_high
  | row_i :: rest =>
    let trigger_max_high := py_max trigger_max_high (high row_i) in
    if Qle_bool (low row_i) (MA_5 row_i) then trigger_max_high
    else intra_high_loop rest trigger_max_high
  end.

(** [Series.max()] of a non-empty column. *)
Definition series_max (l : list Q) : Q :=
  match l with
  | [] => 0
  | x :: rest => fold_left py_max rest x
  end.

(** Max gain until MA10 touch (rows after the entry row). *)
Fixpoint max_gain_loop (rows : list Bar) (max_high_until_ma10 : option Q)
    : option Q :=
  match rows with
  | [] => max_high_until_ma10
  | row_i :: rest =>
    let open_price := open_ row_i in
    let low_price := low row_i in
    let ma10 := MA_10 row_i in
    if Qle_bool low_price ma10 then max_high_until_ma10
    else
      let max_high_until_ma10 :=
        if Qle_bool ma10 open_price then
          let high_price := high row_i in
          match max_high_until_ma10 with
          | None => Some high_price
          | Some m => Some (py_max m high_price)
          end
        else max_high_until_ma10 in
      max_gain_loop rest max_high_until_ma10
  end.

(** Number of rows with [lo < date <= hi]. *)
Definition rows_between (df : DataFrame) (lo hi : Z) : nat :=
  List.length (filter (fun r => (lo <? date_ r)%Z && (date_ r <=? hi)%Z) df).

Definition is_flat_row (r : Bar) : bool :=
  Qeq_bool (open_ r) (close r) && Qeq_bool (open_ r) (high r) &&
  Qeq_bool (open_ r) (low r).

(** ** Trade records *)

(** The dictionary appended to [results].  Left out: the symbol code and
    name, the theme label, the two long-alignment flags, the three
    least-squares slopes and the copies of the thresholds; no property
    below reads them.  [halt_suspect] is the suffix added to [note];
    [trade_no] is the number in [entry_id] and [exit_id]. *)
Record Trade : Type := mkTrade {
  trigger_date : Z;
  entry_date : Z;
  exit_date : Z;
  entry_price : Q;
  exit_price : Q;
  return_pct : Q;
  days_held : nat;
  target_price : Q;
  outcome : Outcome;
  note : Note;
  halt_suspect : bool;
  max_gain_pct : Q;
  max_drawdown : Q;
  spread_ma5_10 : Q;
  spread_ma5_20 : Q;
  trigger_intra_high_pct : Q;
  trigger_foreign : option Q;
  trigger_institution : option Q;
  trade_no : nat;
  risk_to_reward : option Q;
  pre_entry_peak_return_pct : Q;
  Days_took_to_Entry : nat;
  entry_False_Entry_Checker : option String.string
}.

(** A trade together with the row labels the source holds in the local
    variables [idx], [entry_idx] and [exit_idx] when it appends it. *)
Record Event : Type := mkEvent {
  trigger_idx : nat;
  entry_idx : nat;
  exit_idx : nat;
  trade : Trade
}.

(** The body of the trigger block for the row [idx]: [None] when a
    [continue] is taken, the appended record otherwise.  [n_results] is
    [len(results)].  The two [loc] look-ups are on labels of the frame
    ([idx - 1] with [idx > 0], and the label found by the entry loop), so
    their [None] branches are never taken in a scan. *)
Definition try_trade (p : Params) (df : DataFrame) (idx : nat) (row : Bar)
    (n_results : nat) : option Event :=
  match loc df (idx - 1) with
  | None => None
  | Some prev_row =>
    if is_trigger p df idx prev_row row then
      let trigger_date := date_ row in
      let trigger_prev_close := close prev_row in
      let trigger_max_high := intra_high_loop (skipn (S idx) df) (high row) in
      let trigger_intra_high_pct :=
        round ((trigger_max_high - trigger_prev_close)
               / trigger_prev_close * 100) 2 in
      match find_entry df idx with
      | None => None
      | Some (entry_idx, entry_price) =>
        match loc df entry_idx with
        | None => None
        | Some entry_row =>
          let entry_date := date_ entry_row in
          let days_took_to_entry := rows_between df trigger_date entry_date in
          let peak_high := series_max (map high (loc_slice df idx entry_idx)) in
          let pre_entry_peak_return_pct :=
            round ((peak_high - entry_price) / entry_price * 100) 2 in
          if negb (is_valid_entry entry_row) then None
          else
            let false_entry_checker := False_Entry_Checker entry_row in
            let spread_ma5_10 :=
              round ((MA_5 entry_row - MA_10 entry_row)
                     / MA_10 entry_row * 100) 2 in
            let spread_ma5_20 :=
              round ((MA_5 entry_row - MA_20 entry_row)
                     / MA_20 entry_row * 100) 2 in
            let ma10_entry := MA_10 entry_row in
            let target_price :=
              calculate_target_price entry_price (MA_5 entry_row) ma10_entry in
            match find_exit df entry_idx entry_price target_price with
            | None => None
            | Some ex =>
              let exit_idx := x_idx ex in
              let exit_price := x_price ex in
              let exit_date := x_date ex in
              let max_high_until_ma10 :=
                if negb (exit_date =? entry_date)%Z
                then max_gain_loop (skipn (S entry_idx) df) None
                else None in
              let custom_max_gain_pct :=
                match max_high_until_ma10 with
                | Some m => round ((m - entry_price) / entry_price * 100) 2
                | None => 0
                end in
              let days_held := rows_between df entry_date exit_date in
              let flat_rows :=
                filter is_flat_row (loc_slice df (S entry_idx) exit_idx) in
              let return_pct := calculate_return entry_price exit_price in
              let risk_to_reward :=
                if negb (Qeq_bool spread_ma5_10 0)
                then Some (round (return_pct / spread_ma5_10) 4)
                else None in
              Some (mkEvent idx entry_idx exit_idx
                     (mkTrade trigger_date entry_date exit_date
                        entry_price exit_price return_pct days_held
                        target_price (x_outcome ex) (x_note ex)
                        (1 <? List.length flat_rows)%nat
                        custom_max_gain_pct
                        (round (x_max_drawdown ex) 2)
                        spread_ma5_10 spread_ma5_20 trigger_intra_high_pct
                        (foreign row) (institution row)
                        (S n_results)
                        risk_to_reward pre_entry_peak_return_pct
                        days_took_to_entry false_entry_checker))
            end
        end
      end
    else None
  end.

(** ** The scan over the rows of one symbol *)

Record LoopState : Type := mkState {
  waiting_for_ma20_dip : bool;
  last_exit_idx : Z;
  results : list Event
}.

Definition initial_state : LoopState := mkState false (-1) [].

(** One iteration of [for idx, row in df.iterrows()]. *)
Definition step (p : Params) (manual_trigger_date : option Z)
    (df : DataFrame) (idx : nat) (row : Bar) (st : LoopState) : LoopState :=
  if (idx =? 0)%nat then st
  else if negb (none_or manual_trigger_date (fun d => (date_ row =? d)%Z))
  then st
  else if waiting_for_ma20_dip st && negb (Qltb (close row) (MA_20 row))
  then st
  else
    match try_trade p df idx row (List.length (results st)) with
    | None => mkState false (last_exit_idx st) (results st)
    | Some ev =>
      mkState true (Z.of_nat (exit_idx ev)) (results st ++ [ev])
    end.

Fixpoint scan (p : Params) (manual_trigger_date : option Z) (df : DataFrame)
    (rows : list Bar) (idx : nat) (st : LoopState) : LoopState :=
  match rows with
  | [] => st
  | row :: rest =>
    scan p manual_trigger_date df rest (S idx)
         (step p manual_trigger_date df idx row st)
  end.

(** [df.sort_values('일자')]: a stable merge sort on the date.  (pandas
    does not promise the order of rows with equal dates.) *)
Module BarDateOrder <: TotalLeBool.
Definition t := Bar.
Definition leb (a b : Bar) : bool := (date_ a <=? date_ b)%Z.
Lemma leb_total : forall a b, leb a b = true \/ leb b a = true.
Proof. intros a b. unfold leb. lia. Qed.
End BarDateOrder.

Module BarSort := Sort BarDateOrder.

Definition sort_values (df : DataFrame) : DataFrame := BarSort.sort df.

(** [run_backtest], with the records paired with their row labels. *)
Definition run_backtest_events (p : Params) (manual_trigger_date : option Z)
    (df0 : DataFrame) : list Event :=
  let df := sort_values df0 in
  results (scan p manual_trigger_date df df 0%nat initial_state).

Definition run_backtest (p : Params) (manual_trigger_date : option Z)
    (df0 : DataFrame) : list Trade :=
  map trade (run_backtest_events p manual_trigger_date df0).

(** ** Daily summary *)

(** Row labels of the summary: a date, or one of the two appended rows. *)
Inductive Label : Type :=
| Day (d : Z)
| Total
| Average.

(** One row of the summary; [None] is a missing value (NaN).  Columns, in
    order: 'return_pct (sum)', '# of Trades (sum)', 'max_gain_pct (average)',
    'max_drawdown (average)', 'spread_ma5_10 (average)',
    'risk_to_reward (sum)', 'risk_to_reward (average)',
    '# of stocks bought (sum)', '# of stocks sold (sum)' and the held
    count. *)
Record SummaryRow : Type := mkRow {
  return_pct_sum : option Q;
  n_trades : option Q;
  max_gain_pct_avg : option Q;
  max_drawdown_avg : option Q;
  spread_ma5_10_avg : option Q;
  risk_to_reward_sum : option Q;
  risk_to_reward_avg : option Q;
  n_bought : option Q;
  n_sold : option Q;
  n_held : option Q
}.

Definition Summary : Type := list (Label * SummaryRow).

(** pandas [sum] and [mean] skip missing values. *)
Definition present (cells : list (option Q)) : list Q :=
  flat_map (fun c => match c with Some v => [v] | None => [] end) cells.

Definition Qsum (l : list Q) : Q := fold_left Qplus l 0.

Definition nan_sum (cells : list (option Q)) : option Q :=
  Some (Qsum (present cells)).

Definition nan_mean (cells : list (option Q)) : option Q :=
  match present cells with
  | [] => None
  | vs => Some (Qsum vs / inject_Z (Z.of_nat (List.length vs)))
  end.

Definition count_of (n : nat) : option Q := Some (inject_Z (Z.of_nat n)).

(** [pd.date_range(lo, hi)], daily. *)
Definition date_range (lo hi : Z) : list Z :=
  map (fun i => (lo + Z.of_nat i)%Z) (seq 0 (Z.to_nat (hi - lo + 1))).

Definition min_date (d : Z) (l : list Z) : Z := fold_left Z.min l d.
Definition max_date (d : Z) (l : list Z) : Z := fold_left Z.max l d.

(** The keys of [groupby('entry_date')]: the distinct dates, ascending. *)
Fixpoint insert_key (d : Z) (keys : list Z) : list Z :=
  match keys with
  | [] => [d]
  | k :: rest =>
    if (d <? k)%Z then d :: keys
    else if (d =? k)%Z then keys
    else k :: insert_key d rest
  end.

Definition group_keys (df : list Trade) : list Z :=
  fold_right insert_key [] (map entry_date df).

Definition group (df : list Trade) (d : Z) : list Trade :=
  filter (fun t => (entry_date t =? d)%Z) df.

(** The eight per-entry-date statistics of one group; the last two columns
    are filled in by the caller. *)
Definition group_stats (g : list Trade) : SummaryRow :=
  mkRow (nan_sum (map (fun t => Some (return_pct t)) g))
        (count_of (List.length g))
        (nan_mean (map (fun t => Some (max_gain_pct t)) g))
        (nan_mean (map (fun t => Some (max_drawdown t)) g))
        (nan_mean (map (fun t => Some (spread_ma5_10 t)) g))
        (nan_sum (map risk_to_reward g))
        (nan_mean (map risk_to_reward g))
        (count_of (List.length g))
        None None.

Definition exit_count (df : list Trade) (d : Z) : nat :=
  List.length (filter (fun t => (exit_date t =? d)%Z) df).

Definition held_count (df : list Trade) (d : Z) : nat :=
  List.length
    (filter (fun t => (entry_date t <=? d)%Z && (d <=? exit_date t)%Z) df).

Definition map_row (f : option Q -> option Q) (r : SummaryRow) : SummaryRow :=
  mkRow (f (return_pct_sum r)) (f (n_trades r)) (f (max_gain_pct_avg r))
        (f (max_drawdown_avg r)) (f (spread_ma5_10_avg r))
        (f (risk_to_reward_sum r)) (f (risk_to_reward_avg r))
        (f (n_bought r)) (f (n_sold r)) (f (n_held r)).

(** [summary.round(2)] *)
Definition round_row : SummaryRow -> SummaryRow :=
  map_row (option_map (fun v => round v 2)).

(** [fillna(0)] *)
Definition fillna0 (c : option Q) : option Q :=
  match c with
  | Some v => Some v
  | None => Some 0
  end.

(** A column-wise aggregate of the rows ([sum] or [mean]). *)
Definition aggregate (agg : list (option Q) -> option Q)
    (rows : list SummaryRow) : SummaryRow :=
  mkRow (agg (map return_pct_sum rows)) (agg (map n_trades rows))
        (agg (map max_gain_pct_avg rows)) (agg (map max_drawdown_avg rows))
        (agg (map spread_ma5_10_avg rows)) (agg (map risk_to_reward_sum rows))
        (agg (map risk_to_reward_avg rows)) (agg (map n_bought rows))
        (agg (map n_sold rows)) (agg (map n_held rows)).

(** The Total and Average rows put at the bottom. *)
Definition with_total_and_average (summary : Summary) : Summary :=
  let total_row := aggregate nan_sum (map snd summary) in
  let avg_row := aggregate nan_mean (map snd summary) in
  summary ++ [(Total, total_row); (Average, avg_row)].

Definition set_counts (sold held : option Q) (r : SummaryRow) : SummaryRow :=
  mkRow (return_pct_sum r) (n_trades r) (max_gain_pct_avg r)
        (max_drawdown_avg r) (spread_ma5_10_avg r) (risk_to_reward_sum r)
        (risk_to_reward_avg r) (n_bought r) sold held.

(** [generate_daily_summary] of [core/backtest_runner_MA5.py]: the frame
    returned is indexed by the group keys.  [None] stands for the error
    raised on an empty table. *)
Module BacktestRunner.

Definition generate_daily_summary (df : list Trade) : option Summary :=
  match df with
  | [] => None
  | t0 :: _ =>
    let all_dates :=
      date_range (min_date (entry_date t0) (map entry_date df))
                 (max_date (exit_date t0) (map exit_date df)) in
    let held_counts (d : Z) : option Q :=
      if existsb (Z.eqb d) all_dates then count_of (held_count df d)
      else None in
    let summary :=
      map (fun d =>
             (Day d,
              round_row
                (set_counts (count_of (exit_count df d))
                            (fillna0 (held_counts d))
                            (group_stats (group df d)))))
          (group_keys df) in
    Some (with_total_and_average summary)
  end.

End BacktestRunner.

(** [generate_daily_summary] of the stand-alone summary tool
    (summary_gui.py): the grouped statistics are re-indexed over the full
    calendar range. *)
Module SummaryGui.

Definition reindex (df : list Trade) (d : Z) : SummaryRow :=
  if existsb (Z.eqb d) (group_keys df) then group_stats (group df d)
  else mkRow None None None None None None None None None None.

Definition generate_daily_summary (df : list Trade) : option Summary :=
  match df with
  | [] => None
  | t0 :: _ =>
    let full_dates :=
      date_range (min_date (entry_date t0) (map entry_date df))
                 (max_date (exit_date t0) (map exit_date df)) in
    let summary :=
      map (fun d =>
             (Day d,
              round_row
                (set_counts (count_of (exit_count df d))
                            (count_of (held_count df d))
                            (map_row fillna0 (reindex df d)))))
          full_dates in
    Some (with_total_and_average summary)
  end.

End SummaryGui.

(** ** Streaks ([calculate_max_streaks], the same in both files) *)

(** The two loops of the source differ only in the test ([val > 0] for the
    winning streak, [val < 0] for the losing one). *)
Fixpoint streak_loop (test : Q -> bool) (vals : list Q)
    (streak max_streak : nat) : nat :=
  match vals with
  | [] => max_streak
  | val :: rest =>
    if test val then
      let streak := S streak in
      streak_loop test rest streak (Nat.max max_streak streak)
    else streak_loop test rest 0 max_streak
  end.

(** [df.groupby('entry_date')['return_pct'].sum().sort_index()] *)
Definition daily_returns (df : list Trade) : list Q :=
  map (fun d => Qsum (map return_pct (group df d))) (group_keys df).

Definition calculate_max_streaks (df : list Trade) : nat * nat :=
  let daily_returns := daily_returns df in
  let max_win := streak_loop (fun val => Qltb 0 val) daily_returns 0 0 in
  let max_loss := streak_loop (fun val => Qltb val 0) daily_returns 0 0 in
  (max_win, max_loss).

(** ** Held counts by the loop of the runner *)

(** [held_counts.loc[held_range] += 1] on a series of (date, count);
    every date of [held_range] is a label of the series in the loop below,
    so the look-up cannot fail. *)
Definition add_range (held_counts : list (Z * Z)) (held_range : list Z)
    : list (Z * Z) :=
  map (fun dc => if existsb (Z.eqb (fst dc)) held_range
                 then (fst dc, (snd dc + 1)%Z) else dc)
      held_counts.

(** [held_counts = pd.Series(0, index=all_dates)] followed by the loop
    over the rows of the table (in [main] and in the runner's
    [generate_daily_summary]).  [None] stands for the error that
    [pd.date_range] raises on the missing bounds of an empty table. *)
Definition held_counts_loop (df : list Trade) : option (list (Z * Z)) :=
  match df with
  | [] => None
  | t0 :: _ =>
    let all_dates :=
      date_range (min_date (entry_date t0) (map entry_date df))
                 (max_date (exit_date t0) (map exit_date df)) in
    Some (fold_left
            (fun held_counts row =>
               add_range held_counts
                         (date_range (entry_date row) (exit_date row)))
            df (map (fun d => (d, 0%Z)) all_dates))
  end.

(** [held_counts.max()]; the maximum of a series without rows is missing
    ([None]). *)
Definition max_held_stocks (df : list Trade) : option Z :=
  match held_counts_loop df with
  | None => None
  | Some held_counts =>
    match map snd held_counts with
    | [] => None
    | c :: rest => Some (fold_left Z.max rest c)
    end
  end.

(** ** Weekly and monthly summaries *)

(** The tables group the trades by a period label computed from the entry
    date ([strftime('%G-W%V')] for weeks, [to_period('M')] for months) and
    list the groups in the order of the labels.  [period] gives the
    ordinal of the period of a date; the labels sort as their ordinals. *)
Definition period_keys (period : Z -> Z) (df : list Trade) : list Z :=
  fold_right insert_key [] (map (fun t => period (entry_date t)) df).

Definition period_group (period : Z -> Z) (df : list Trade) (k : Z)
    : list Trade :=
  filter (fun t => (period (entry_date t) =? k)%Z) df.

(** [(g['return_pct'] > 0).sum()] and [(g['return_pct'] <= 0).sum()] *)
Definition win_count (g : list Trade) : nat :=
  List.length (filter (fun t => Qltb 0 (return_pct t)) g).

Definition lose_count (g : list Trade) : nat :=
  List.length (filter (fun t => Qle_bool (return_pct t) 0) g).

Definition count_q (n : nat) : Q := inject_Z (Z.of_nat n).

(** [(win_counts / total_counts).round(2)] *)
Definition win_ratio (g : list Trade) : Q :=
  round (count_q (win_count g) / count_q (List.length g)) 2.

Record WeeklyRow : Type := mkWeekly {
  week_return_sum : Q;
  week_win : Q;
  week_lose : Q;
  week_win_ratio : Q
}.

(** [generate_weekly_summary]; the final [round(2)] leaves the integer
    columns as they are. *)
Definition generate_weekly_summary (week : Z -> Z) (df : list Trade)
    : list (Z * WeeklyRow) :=
  map (fun k =>
         let g := period_group week df k in
         (k, mkWeekly (round (Qsum (map return_pct g)) 2)
                      (count_q (win_count g))
                      (count_q (lose_count g))
                      (round (win_ratio g) 2)))
      (period_keys week df).

(** [Series.cumsum()] *)
Fixpoint cumsum_from (acc : Q) (l : list Q) : list Q :=
  match l with
  | [] => []
  | x :: rest => (acc + x) :: cumsum_from (acc + x) rest
  end.

Definition cumsum (l : list Q) : list Q := cumsum_from 0 l.

(** One row of the transposed monthly table: the cells of the months,
    then the Total and Average columns. *)
Record MetricRow : Type := mkMetric {
  by_month : list (option Q);
  total_col : option Q;
  average_col : option Q
}.

(** [monthly['Total'] = monthly.sum(axis=1)] and then
    [monthly['Average'] = monthly.mean(axis=1)]: the mean is taken when
    the Total column is already part of the table. *)
Definition with_total_and_average_columns (cells : list (option Q))
    : MetricRow :=
  let total := nan_sum cells in
  mkMetric cells total (nan_mean (cells ++ [total])).

Record MonthlySummary : Type := mkMonthly {
  month_labels : list Z;
  month_return_pct_sum : MetricRow;
  month_cumulative_return_pct : MetricRow;
  month_win : MetricRow;
  month_lose : MetricRow;
  month_win_ratio : MetricRow;
  month_risk_to_reward_average : MetricRow;
  month_traded : MetricRow
}.

(** [generate_monthly_summary] (the runner sets the cumulative column
    twice, with the same values). *)
Definition generate_monthly_summary (month : Z -> Z) (df : list Trade)
    : MonthlySummary :=
  let keys := period_keys month df in
  let groups := map (period_group month df) keys in
  let return_sum := map (fun g => Qsum (map return_pct g)) groups in
  let rounded (q : Q) : option Q := Some (round q 2) in
  mkMonthly keys
    (with_total_and_average_columns (map rounded return_sum))
    (with_total_and_average_columns (map rounded (cumsum return_sum)))
    (with_total_and_average_columns
       (map (fun g => Some (count_q (win_count g))) groups))
    (with_total_and_average_columns
       (map (fun g => Some (count_q (lose_count g))) groups))
    (with_total_and_average_columns
       (map (fun g => rounded (win_ratio g)) groups))
    (with_total_and_average_columns
       (map (fun g => option_map (fun q => round q 2)
                        (nan_mean (map risk_to_reward g))) groups))
    (with_total_and_average_columns
       (map (fun g => Some (count_q (List.length g))) groups)).

(** ** Removal of duplicates in manual mode *)

(** A record together with its symbol code, as [main] collects them. *)
Definition ResultRow : Type := (String.string * Trade)%type.

(** The columns of [subset=["종목코드", "trigger_date"]]. *)
Definition dup_key (r : ResultRow) : String.string * Z :=
  (fst r, trigger_date (snd r)).

Definition dup_key_eqb (a b : String.string * Z) : bool :=
  String.eqb (fst a) (fst b) && (snd a =? snd b)%Z.

(** [drop_duplicates(subset=...)]: the first row of every key is kept. *)
Fixpoint drop_duplicates_from (seen : list (String.string * Z))
    (rows : list ResultRow) : list ResultRow :=
  match rows with
  | [] => []
  | r :: rest =>
    if existsb (dup_key_eqb (dup_key r)) seen
    then drop_duplicates_from seen rest
    else r :: drop_duplicates_from (dup_key r :: seen) rest
  end.

Definition drop_duplicates (rows : list ResultRow) : list ResultRow :=
  drop_duplicates_from [] rows.

(** ** Slope of a moving average ([calculate_slope]) *)





(** ** Columns added by the augmenter ([data_augmenter.py]) *)

(** [df[column].rolling(window=period).mean()] *)
Definition rolling_mean (period : nat) (column : list Q) : list (option Q) :=
  map (fun i =>
         if (S i <? period)%nat then None
         else Some (Qsum (firstn period (skipn (S i - period) column))
                    / inject_Z (Z.of_nat period)))
      (seq 0 (List.length column)).

(** [calculate_low_ma_5]: the four previous closes and the low of the day,
    divided by 5; missing on the first four rows. *)
Definition calculate_low_ma_5 (df : DataFrame) : list (option Q) :=
  map (fun i =>
         if (i <? 4)%nat then None
         else
           match loc df i with
           | None => None
           | Some row =>
             let prev_4_closes := map close (loc_slice df (i - 4) (i - 1)) in
             Some ((Qsum prev_4_closes + low row) / 5)
           end)
      (seq 0 (List.length df)).

(** [calculate_false_entry_checker], given the Low_MA_5 column. *)
Definition calculate_false_entry_checker (low_ma_5 : list (option Q))
    (df : DataFrame) : list (option String.string) :=
  map (fun cell =>
         match fst cell with
         | None => None
         | Some low_ma_5 =>
           if Qltb low_ma_5 (low (snd cell))
           then Some "No_Entry_Made"%string
           else Some "Entry_Made"%string
         end)
      (combine low_ma_5 df).

(** [df["False_Entry_Checker"] = calculate_false_entry_checker(df)] in
    [augment_single_file], with the Low_MA_5 column computed just before. *)
Definition assign_False_Entry_Checker (df : DataFrame) : DataFrame :=
  map (fun cell =>
         let row := snd cell in
         mkBar (date_ row) (open_ row) (high row) (low row) (close row)
               (value row) (rate row) (MA_5 row) (MA_10 row) (MA_20 row)
               (foreign row) (institution row) (fst cell))
      (combine (calculate_false_entry_checker (calculate_low_ma_5 df) df) df).

(** [calculate_verified_return] of [main]. *)
Definition calculate_verified_return (t : Trade) : Q :=
  match entry_False_Entry_Checker t with
  | Some s => if String.eqb s "Entry_Made" then return_pct t else 0
  | None => 0
  end.

(** ** Binned means of the plotter ([process_file]) *)




(** ** The trigger rule in words *)









(** ** The entry rule in words *)

(** A bar "crossed down MA5": one of low, high, open, close is below the
    bar's MA5. *)
Definition crossed_down (row : Bar) : Prop :=
  low row < MA_5 row \/ high row < MA_5 row \/
  open_ row < MA_5 row \/ close row < MA_5 row.

(** [k] is the first row after [idx] that crossed down MA5. *)
Definition first_candidate (df : DataFrame) (idx k : nat) (row : Bar) : Prop :=
  (idx < k)%nat /\ loc df k = Some row /\ crossed_down row /\
  forall j r, (idx < j < k)%nat -> loc df j = Some r -> ~ crossed_down r.

(** The entry price on a candidate: the open if it is below MA5, else MA5
    if low <= MA5 <= high, else the open. *)
Definition entry_price_rule (row : Bar) (price : Q) : Prop :=
  (open_ row < MA_5 row -> price = open_ row) /\
  (~ open_ row < MA_5 row -> low row <= MA_5 row <= high row ->
   price = MA_5 row) /\
  (~ open_ row < MA_5 row -> ~ low row <= MA_5 row <= high row ->
   price = open_ row).

(** ** The re-arm gate in words *)

(** The row labels of a record: trigger, entry, exit. *)
Definition labels (ev : Event) : nat * nat * nat :=
  (trigger_idx ev, entry_idx ev, exit_idx ev).

(** A dip below MA20 on a row [j] with [lo < j <= hi]. *)
Definition ma20_dip (df : DataFrame) (lo hi : nat) : Prop :=
  exists j row,
    (lo < j <= hi)%nat /\ loc df j = Some row /\ close row < MA_20 row.

(** Two records of one pass, the second triggered later, with a dip below
    MA20 after the first trigger and no later than the second. *)
Definition gated (df : DataFrame) (ev1 ev2 : Event) : Prop :=
  (trigger_idx ev1 < trigger_idx ev2)%nat /\
  ma20_dip df (trigger_idx ev1) (trigger_idx ev2).

(** What the scan maintains when it is about to read row [idx]. *)
Definition scan_inv (df : DataFrame) (idx : nat) (st : LoopState) : Prop :=
  (forall ev, In ev (results st) ->
     (trigger_idx ev < idx)%nat /\
     (waiting_for_ma20_dip st = true \/
      exists j row, (trigger_idx ev < j < idx)%nat /\ loc df j = Some row /\
                    close row < MA_20 row)) /\
  ForallOrdPairs (gated df) (results st).

(** ** Rounded values and empty summary rows *)

(** A multiple of one hundredth. *)
Definition two_decimals (q : Q) : Prop := exists k : Z, q == k # 100.

(** A cell holding the value zero. *)
Definition cell_zero (c : option Q) : Prop := exists v, c = Some v /\ v == 0.

(** The eight per-entry-date statistics of a row are all zero. *)
Definition zero_stats (r : SummaryRow) : Prop :=
  cell_zero (return_pct_sum r) /\ cell_zero (n_trades r) /\
  cell_zero (max_gain_pct_avg r) /\ cell_zero (max_drawdown_avg r) /\
  cell_zero (spread_ma5_10_avg r) /\ cell_zero (risk_to_reward_sum r) /\
  cell_zero (risk_to_reward_avg r) /\ cell_zero (n_bought r).

(** ** The exit scan in words *)

(** What holds of an exit found by the loop started on [rows] at label [i]
    with running drawdown [md]: the final drawdown is below [md] and below
    the drawdown of every row up to the exit row, and no row before the
    exit row touched MA10 or, unless it is the entry row, reached the
    target. *)
Definition exit_scan_facts (e : nat) (ep tp : Q) (rows : list Bar) (i : nat)
    (md : Q) (ex : ExitEvent) : Prop :=
  x_max_drawdown ex <= md /\
  (forall j row,
      nth_error rows j = Some row -> (i + j <= x_idx ex)%nat ->
      x_max_drawdown ex <= (low row - ep) / ep * 100) /\
  (forall j row,
      nth_error rows j = Some row -> (i + j < x_idx ex)%nat ->
      MA_10 row < low row /\ MA_10 row <= open_ row /\
      ((i + j)%nat <> e -> high row < tp)).

(** ** Runs of days *)

(** [l] starts with [j] values that pass [test]. *)
Definition prefix_run (test : Q -> bool) (j : nat) (l : list Q) : Prop :=
  exists r l2, l = r ++ l2 /\ List.length r = j /\ forallb test r = true.

(** [l] holds [k] consecutive values that pass [test]. *)
Definition has_run (test : Q -> bool) (k : nat) (l : list Q) : Prop :=
  exists l1 r l2,
    l = l1 ++ r ++ l2 /\ List.length r = k /\ forallb test r = true.

(** ** The Average column in words *)

(** The Total cell is the sum of the month cells present, and the Average
    cell is the mean of the month cells and the Total cell together: with
    [k] month cells present, Average x (k + 1) = 2 x Total. *)
Definition average_includes_total (r : MetricRow) : Prop :=
  exists T A,
    total_col r = Some T /\ average_col r = Some A /\
    T == Qsum (present (by_month r)) /\
    A * (count_q (List.length (present (by_month r))) + 1) == 2 * T.

(** ** Concrete series used by the examples below *)

(** A bar with the columns the scan reads; net-buy columns absent. *)
Definition bar (d : Z) (o h l c r ma5 ma10 ma20 : Q) : Bar :=
  mkBar d o h l c 0 r ma5 ma10 ma20 None None None.

(** No threshold enabled. *)
Definition no_thresholds : Params := mkParams None None None None None None.


(** Entry row first, a quiet day, then a day that reaches the target and
    touches MA10. *)
Definition exit_series : DataFrame :=
  [ bar 1 102 104 101 103 1 105 100 95;
    bar 2 104 106 103 105 1 105 101 96;
    bar 3 104 108 101 107 1 105 102 97 ].

(** A trigger on the second row, an entry at the open of the third and
    the target reached on the fourth. *)
Definition win_series : DataFrame :=
  [ bar 1 90 92 89 91 1 88 86 84;
    bar 2 92 101 92 100 9 90 88 86;
    bar 3 102 104 101 103 1 105 100 95;
    bar 4 104 108 103 107 1 105 101 96 ].

(** The previous bar fell by exactly 10 percent; everything else is as in
    [win_series]. *)
Definition limit_down_series : DataFrame :=
  [ bar 1 90 92 89 91 (-(10)) 88 86 84;
    bar 2 92 101 92 100 9 90 88 86;
    bar 3 102 104 101 103 1 105 100 95;
    bar 4 104 108 103 107 1 105 101 96 ].

(** Two triggers on consecutive rows: the second row closes below its MA20
    and meets the trigger rule itself.  Both triggers enter on the fourth
    row and leave on the fifth. *)
Definition overlap_series : DataFrame :=
  [ bar 1 90 92 89 91 1 88 86 84;
    bar 2 92 101 92 100 9 90 88 86;
    bar 3 101 107 100 106 6 100 104 108;
    bar 4 102 104 101 103 (-(3)) 105 100 95;
    bar 5 104 108 103 107 4 105 101 96 ].

(** A trigger on the second row, an entry on the third with a spread of
    6 percent, and a fall to MA10 on the fourth. *)
Definition loss_series : DataFrame :=
  [ bar 1 90 92 89 91 1 88 86 84;
    bar 2 92 101 92 100 9 90 88 86;
    bar 3 102 104 101 103 3 106 100 95;
    bar 4 103 104 100 101 (-(2)) 106 101 96 ].

(** [win_series] with the date of the third row repeated on the fourth:
    not a series of Daily Bars. *)
Definition repeated_date_series : DataFrame :=
  [ bar 1 90 92 89 91 1 88 86 84;
    bar 2 92 101 92 100 9 90 88 86;
    bar 3 102 104 101 103 1 105 100 95;
    bar 3 104 108 103 107 1 105 101 96 ].

(** Three days with high closes, a trigger on the second row, an entry
    on the fifth; the entry checker is filled in as the augmenter does. *)
Definition checked_series : DataFrame :=
  assign_False_Entry_Checker
    [ bar 1 109 111 108 110 1 88 86 84;
      bar 2 109 111 108 110 1 88 86 84;
      bar 3 109 111 108 110 1 88 86 84;
      bar 4 92 101 92 100 9 90 88 86;
      bar 5 102 104 101 103 1 105 100 95;
      bar 6 104 108 103 107 1 105 101 96 ].

(** * Properties *)

Lemma Qltb_lt (x y : Q) : Qltb x y = true <-> x < y.
Proof.
  unfold Qltb. rewrite negb_true_iff. split; intro H.
  - apply Qnot_le_lt. intro Hle. apply Qle_bool_iff in Hle. congruence.
  - destruct (Qle_bool y x) eqn:E; [|reflexivity].
    apply Qle_bool_iff in E. exfalso. exact (Qlt_not_le _ _ H E).
Qed.

Lemma Qltb_ge (x y : Q) : Qltb x y = false <-> y <= x.
Proof.
  unfold Qltb. rewrite negb_false_iff. apply Qle_bool_iff.
Qed.

Lemma Qltb_irrefl (x y : Q) : x == y -> Qltb x y = false.
Proof. intro H. apply Qltb_ge. rewrite H. apply Qle_refl. Qed.

Lemma Qle_bool_false (x y : Q) : Qle_bool x y = false <-> y < x.
Proof.
  rewrite <- Qltb_lt. unfold Qltb. now rewrite negb_true_iff.
Qed.

(** ** Exit logic *)

Lemma exit_loop_both_hit (e : nat) (ep tp : Q) :
  forall (k : nat) (rows : list Bar) (i : nat) (md : Q) (row : Bar),
    nth_error rows k = Some row ->
    exit_loop e ep tp (firstn k rows) i md = None ->
    Qle_bool tp (high row) = true ->
    Qle_bool (low row) (MA_10 row) || Qltb (open_ row) (MA_10 row) = true ->
    exists ev,
      exit_loop e ep tp rows i md = Some ev /\
      x_idx ev = (i + k)%nat /\
      x_date ev = date_ row /\
      x_outcome ev = loss /\
      x_price ev = if Qltb (open_ row) (MA_10 row)
                   then open_ row else MA_10 row.
Proof.
  induction k as [|k IH]; intros rows i md row Hnth Hpre Ht Hm.
  - destruct rows as [|r rest]; [discriminate|].
    injection Hnth as ->. cbn [exit_loop].
    rewrite Ht, Hm. cbn [andb].
    destruct (Qltb (open_ row) (MA_10 row)); eexists; split;
      try reflexivity; cbn; repeat split; lia.
  - destruct rows as [|r rest]; [discriminate|].
    cbn [nth_error] in Hnth. cbn [firstn exit_loop] in Hpre.
    cbn [exit_loop].
    destruct (Qle_bool tp (high r) &&
              (Qle_bool (low r) (MA_10 r) || Qltb (open_ r) (MA_10 r))).
    + destruct (Qltb (open_ r) (MA_10 r)); discriminate.
    + destruct ((i =? e)%nat && Qle_bool tp (high r) &&
                negb (Qle_bool (low r) (MA_10 r) || Qltb (open_ r) (MA_10 r))).
      * destruct (IH _ _ _ _ Hnth Hpre Ht Hm) as (ev & H1 & H2 & H3).
        exists ev. split; [exact H1|]. split; [lia|exact H3].
      * destruct (Qle_bool tp (high r)); [discriminate|].
        destruct (Qle_bool (low r) (MA_10 r) || Qltb (open_ r) (MA_10 r)).
        { destruct (Qltb (open_ r) (MA_10 r)); discriminate. }
        destruct (IH _ _ _ _ Hnth Hpre Ht Hm) as (ev & H1 & H2 & H3).
        exists ev. split; [exact H1|]. split; [lia|exact H3].
Qed.

(** C1.  A bar that the exit scan reaches (no exit on the bars from the
    entry bar up to it) and on which both the target condition
    (high >= target) and the MA10 condition (low <= MA10 or open < MA10)
    hold ends the trade on that bar with outcome loss, never win; the exit
    price is the open when the open is below MA10 and MA10 otherwise. *)
Theorem exit_both_hit_is_loss :
  forall (df : DataFrame) (entry_idx : nat) (entry_price target_price : Q)
         (k : nat) (row : Bar),
    (entry_idx <= k)%nat ->
    loc df k = Some row ->
    find_exit (firstn k df) entry_idx entry_price target_price = None ->
    target_price <= high row ->
    (low row <= MA_10 row \/ open_ row < MA_10 row) ->
    exists ev,
      find_exit df entry_idx entry_price target_price = Some ev /\
      x_idx ev = k /\
      x_date ev = date_ row /\
      x_outcome ev = loss /\
      x_outcome ev <> win /\
      (open_ row < MA_10 row -> x_price ev = open_ row) /\
      (~ open_ row < MA_10 row -> x_price ev = MA_10 row).
Proof.
  intros df e ep tp k row Hle Hloc Hpre Ht Hm.
  unfold find_exit in *. unfold loc in Hloc.
  rewrite skipn_firstn_comm in Hpre.
  assert (Hnth : nth_error (skipn e df) (k - e) = Some row).
  { rewrite nth_error_skipn. replace (e + (k - e))%nat with k by lia.
    exact Hloc. }
  assert (Hm' : Qle_bool (low row) (MA_10 row)
                || Qltb (open_ row) (MA_10 row) = true).
  { apply orb_true_iff. destruct Hm as [H|H].
    - left. now apply Qle_bool_iff.
    - right. now apply Qltb_lt. }
  apply Qle_bool_iff in Ht.
  destruct (exit_loop_both_hit e ep tp _ _ e 0 row Hnth Hpre Ht Hm')
    as (ev & H1 & H2 & H3 & H4 & H5).
  exists ev. split; [exact H1|]. split; [lia|]. split; [exact H3|].
  split; [exact H4|]. split; [rewrite H4; discriminate|]. split.
  - intro Hlt. apply Qltb_lt in Hlt. now rewrite Hlt in H5.
  - intro Hn. destruct (Qltb (open_ row) (MA_10 row)) eqn:E; [|exact H5].
    apply Qltb_lt in E. contradiction.
Qed.

Lemma exit_both_hit_is_loss_witness :
  exists ev,
    find_exit exit_series 0 102 (1071 # 10) = Some ev /\
    x_idx ev = 2%nat /\
    x_date ev = 3%Z /\
    x_outcome ev = loss /\
    x_outcome ev <> win /\
    (open_ (bar 3 104 108 101 107 1 105 102 97)
     < MA_10 (bar 3 104 108 101 107 1 105 102 97) -> x_price ev = 104) /\
    (~ open_ (bar 3 104 108 101 107 1 105 102 97)
       < MA_10 (bar 3 104 108 101 107 1 105 102 97) -> x_price ev = 102).
Proof.
  apply (exit_both_hit_is_loss exit_series 0 102 (1071 # 10) 2
           (bar 3 104 108 101 107 1 105 102 97)).
  - lia.
  - reflexivity.
  - reflexivity.
  - apply Qle_bool_iff. reflexivity.
  - left. apply Qle_bool_iff. reflexivity.
Defined.

(** ** What a record appended by the trigger block is made of *)

Lemma try_trade_inv (p : Params) (df : DataFrame) (idx : nat) (row : Bar)
    (n : nat) (ev : Event) :
  try_trade p df idx row n = Some ev ->
  exists prev ep entry_row ex,
    loc df (idx - 1) = Some prev /\
    is_trigger p df idx prev row = true /\
    find_entry df idx = Some (entry_idx ev, ep) /\
    loc df (entry_idx ev) = Some entry_row /\
    find_exit df (entry_idx ev) ep
      (calculate_target_price ep (MA_5 entry_row) (MA_10 entry_row))
      = Some ex /\
    trigger_idx ev = idx /\
    exit_idx ev = x_idx ex /\
    trigger_date (trade ev) = date_ row /\
    entry_date (trade ev) = date_ entry_row /\
    exit_date (trade ev) = x_date ex /\
    entry_price (trade ev) = ep /\
    exit_price (trade ev) = x_price ex /\
    target_price (trade ev)
      = calculate_target_price ep (MA_5 entry_row) (MA_10 entry_row) /\
    outcome (trade ev) = x_outcome ex /\
    return_pct (trade ev) = calculate_return ep (x_price ex) /\
    spread_ma5_10 (trade ev)
      = round ((MA_5 entry_row - MA_10 entry_row) / MA_10 entry_row * 100) 2 /\
    risk_to_reward (trade ev)
      = (if negb (Qeq_bool (spread_ma5_10 (trade ev)) 0)
         then Some (round (return_pct (trade ev) / spread_ma5_10 (trade ev)) 4)
         else None) /\
    trade_no (trade ev) = S n.
Proof.
  unfold try_trade. intro H.
  destruct (loc df (idx - 1)) as [prev|] eqn:Hprev; [|discriminate].
  destruct (is_trigger p df idx prev row) eqn:Htrig; [|discriminate].
  destruct (find_entry df idx) as [[ei ep]|] eqn:Hentry; [|discriminate].
  destruct (loc df ei) as [entry_row|] eqn:Hrow; [|discriminate].
  destruct (negb (is_valid_entry entry_row)); [discriminate|].
  destruct (find_exit df ei ep _) as [ex|] eqn:Hexit; [|discriminate].
  injection H as <-.
  exists prev, ep, entry_row, ex.
  cbn -[loc find_entry find_exit is_trigger round calculate_target_price
        calculate_return Qeq_bool].
  repeat (split; [first [reflexivity | assumption]|]). reflexivity.
Qed.

(** ** The scan: where the records come from *)

Lemma step_results (p : Params) (m : option Z) (df : DataFrame) (idx : nat)
    (row : Bar) (st : LoopState) :
  results (step p m df idx row st) = results st \/
  exists ev,
    (0 < idx)%nat /\
    try_trade p df idx row (List.length (results st)) = Some ev /\
    results (step p m df idx row st) = results st ++ [ev] /\
    waiting_for_ma20_dip (step p m df idx row st) = true.
Proof.
  unfold step.
  destruct (idx =? 0)%nat eqn:E0; [now left|]. apply Nat.eqb_neq in E0.
  destruct (negb (none_or m _)); [now left|].
  destruct (waiting_for_ma20_dip st && _); [now left|].
  destruct (try_trade p df idx row _) as [ev|] eqn:Et; [|now left].
  right. exists ev. repeat split; try reflexivity. lia.
Qed.

(** Every record of the scan was appended by the trigger block at a row
    of the frame. *)
Lemma scan_results_from (p : Params) (m : option Z) (df : DataFrame)
    (P : Event -> Prop) :
  (forall idx row n ev,
      (0 < idx)%nat -> loc df idx = Some row ->
      try_trade p df idx row n = Some ev -> P ev) ->
  forall rows idx st,
    rows = skipn idx df ->
    Forall P (results st) ->
    Forall P (results (scan p m df rows idx st)).
Proof.
  intros HP. induction rows as [|row rest IH]; intros idx st Hrows Hst.
  - exact Hst.
  - cbn [scan]. apply IH.
    + rewrite <- (Nat.add_1_l idx), <- skipn_skipn, <- Hrows. reflexivity.
    + destruct (step_results p m df idx row st) as [->|(ev & H0 & Ht & -> & _)].
      * exact Hst.
      * apply Forall_app. split; [exact Hst|]. constructor; [|constructor].
        apply (HP idx row (List.length (results st)) ev H0); [|exact Ht].
        unfold loc. rewrite <- (Nat.add_0_r idx), <- nth_error_skipn, <- Hrows.
        reflexivity.
Qed.

Lemma events_from_try_trade (p : Params) (m : option Z) (df0 : DataFrame)
    (P : Event -> Prop) :
  (forall idx row n ev,
      (0 < idx)%nat -> loc (sort_values df0) idx = Some row ->
      try_trade p (sort_values df0) idx row n = Some ev -> P ev) ->
  Forall P (run_backtest_events p m df0).
Proof.
  intro HP. unfold run_backtest_events.
  apply (scan_results_from p m (sort_values df0) P HP); [reflexivity|].
  constructor.
Qed.

Lemma exit_loop_inv (e : nat) (ep tp : Q) :
  forall (rows : list Bar) (i : nat) (md : Q) (ev : ExitEvent),
    exit_loop e ep tp rows i md = Some ev ->
    exists row,
      (i <= x_idx ev)%nat /\
      nth_error rows (x_idx ev - i) = Some row /\
      x_date ev = date_ row /\
      (x_outcome ev = win ->
       x_idx ev <> e /\ x_price ev = tp /\ tp <= high row /\
       MA_10 row < low row /\ MA_10 row <= open_ row) /\
      (x_outcome ev = loss ->
       (low row <= MA_10 row \/ open_ row < MA_10 row) /\
       x_price ev = if Qltb (open_ row) (MA_10 row)
                    then open_ row else MA_10 row).
Proof.
  induction rows as [|r rest IH]; intros i md ev H; [discriminate|].
  cbn [exit_loop] in H.
  assert (Hrec : forall md',
             exit_loop e ep tp rest (S i) md' = Some ev ->
             exists row,
               (i <= x_idx ev)%nat /\
               nth_error (r :: rest) (x_idx ev - i) = Some row /\
               x_date ev = date_ row /\
               (x_outcome ev = win ->
                x_idx ev <> e /\ x_price ev = tp /\ tp <= high row /\
                MA_10 row < low row /\ MA_10 row <= open_ row) /\
               (x_outcome ev = loss ->
                (low row <= MA_10 row \/ open_ row < MA_10 row) /\
                x_price ev = if Qltb (open_ row) (MA_10 row)
                             then open_ row else MA_10 row)).
  { intros md' H'. destruct (IH _ _ _ H') as (row & H1 & H2 & H3).
    exists row. split; [lia|]. split; [|exact H3].
    replace (x_idx ev - i)%nat with (S (x_idx ev - S i)) by lia. exact H2. }
  destruct (Qle_bool tp (high r)) eqn:Et;
    destruct (Qle_bool (low r) (MA_10 r)) eqn:El;
    destruct (Qltb (open_ r) (MA_10 r)) eqn:Eo;
    cbn [andb orb negb] in H;
    try (rewrite andb_false_r in H; cbn [andb orb negb] in H);
    try (injection H as <-; cbn; exists r; rewrite Nat.sub_diag;
         repeat split; try discriminate; try lia; try reflexivity;
         try rewrite Eo; try reflexivity;
         try (left; now apply Qle_bool_iff);
         try (right; now apply Qltb_lt));
    try (now apply (Hrec _ H)).
  destruct (i =? e)%nat eqn:Ei; cbn [andb] in H.
  - now apply (Hrec _ H).
  - injection H as <-; cbn; exists r; rewrite Nat.sub_diag.
    apply Nat.eqb_neq in Ei. apply Qle_bool_iff in Et.
    apply Qle_bool_false in El. apply Qltb_ge in Eo.
    repeat split; try discriminate; try lia; try assumption.
Qed.

Lemma find_exit_inv (df : DataFrame) (e : nat) (ep tp : Q) (ex : ExitEvent) :
  find_exit df e ep tp = Some ex ->
  exists row,
    (e <= x_idx ex)%nat /\
    loc df (x_idx ex) = Some row /\
    x_date ex = date_ row /\
    (x_outcome ex = win ->
     (e < x_idx ex)%nat /\ x_price ex = tp /\ tp <= high row /\
     MA_10 row < low row /\ MA_10 row <= open_ row) /\
    (x_outcome ex = loss ->
     (low row <= MA_10 row \/ open_ row < MA_10 row) /\
     x_price ex = if Qltb (open_ row) (MA_10 row)
                  then open_ row else MA_10 row).
Proof.
  unfold find_exit. intro H.
  destruct (exit_loop_inv _ _ _ _ _ _ _ H) as (row & H1 & H2 & H3 & H4 & H5).
  exists row. split; [exact H1|]. split.
  - unfold loc. rewrite nth_error_skipn in H2.
    replace (e + (x_idx ex - e))%nat with (x_idx ex) in H2 by lia. exact H2.
  - split; [exact H3|]. split; [|exact H5].
    intro Hw. destruct (H4 Hw) as (Hne & Hrest). split; [lia|exact Hrest].
Qed.

(** The same on the records of a pass: a record whose exit row met both
    the target and the MA10 condition is a loss at the open or at MA10. *)
Lemma record_both_hit_is_loss (p : Params) (m : option Z) (df0 : DataFrame)
    (ev : Event) (row : Bar) :
  In ev (run_backtest_events p m df0) ->
  loc (sort_values df0) (exit_idx ev) = Some row ->
  target_price (trade ev) <= high row ->
  (low row <= MA_10 row \/ open_ row < MA_10 row) ->
  outcome (trade ev) = loss /\
  exit_price (trade ev)
  = if Qltb (open_ row) (MA_10 row) then open_ row else MA_10 row.
Proof.
  intros Hin.
  pose proof (events_from_try_trade p m df0
    (fun ev => forall row,
         loc (sort_values df0) (exit_idx ev) = Some row ->
         target_price (trade ev) <= high row ->
         (low row <= MA_10 row \/ open_ row < MA_10 row) ->
         outcome (trade ev) = loss /\
         exit_price (trade ev)
         = if Qltb (open_ row) (MA_10 row) then open_ row else MA_10 row))
    as HF.
  rewrite Forall_forall in HF. apply HF; [|exact Hin].
  clear ev row Hin HF. intros idx row0 n ev _ _ Ht row Hrow _ Hm.
  destruct (try_trade_inv _ _ _ _ _ _ Ht)
    as (prev & ep & erow & ex & _ & _ & _ & _ & Hex & _ & Hxi & _ & _ & _ &
        _ & Hxp & _ & Ho & _).
  destruct (find_exit_inv _ _ _ _ _ Hex) as (xrow & _ & Hxrow & _ & Hwin & Hloss).
  rewrite Hxi, Hxrow in Hrow. injection Hrow as ->.
  rewrite Ho, Hxp. destruct (x_outcome ex).
  - exfalso. destruct (Hwin eq_refl) as (_ & _ & _ & Hlow & Hopen).
    destruct Hm as [Hm|Hm]; lra.
  - split; [reflexivity|]. apply (Hloss eq_refl).
Qed.

Lemma sort_values_NoDup (df0 : DataFrame) :
  NoDup (map date_ df0) -> NoDup (map date_ (sort_values df0)).
Proof.
  apply Permutation_NoDup, Permutation_map, BarSort.Permuted_sort.
Qed.

Lemma NoDup_dates_loc (df : DataFrame) (i j : nat) (ri rj : Bar) :
  NoDup (map date_ df) ->
  loc df i = Some ri -> loc df j = Some rj ->
  date_ ri = date_ rj -> i = j.
Proof.
  unfold loc. intros Hnd Hi Hj Hd.
  apply (proj1 (NoDup_nth_error (map date_ df)) Hnd).
  - rewrite length_map. apply nth_error_Some. congruence.
  - rewrite !nth_error_map, Hi, Hj. cbn. now rewrite Hd.
Qed.



(** The invariant is needed: with a date repeated on two rows the win of
    [win_series] is dated on the entry date. *)
Example repeated_date_win :
  map (fun t => (outcome t, entry_date t, exit_date t))
      (run_backtest no_thresholds None repeated_date_series)
  = [ (win, 3%Z, 3%Z) ].
Proof. vm_compute. reflexivity. Qed.

(** ** The trigger rule *)










(** On the whole pass: [win_series] gives one record, the same series
    with a previous change of exactly -10 gives none. *)
Example limit_down_series_no_trade :
  List.length (run_backtest no_thresholds None win_series) = 1%nat /\
  run_backtest no_thresholds None limit_down_series = [].
Proof. split; vm_compute; reflexivity. Qed.

(** ** Entry logic *)

Lemma crossed_down_existsb (row : Bar) :
  existsb (fun p => Qltb p (MA_5 row))
          [low row; high row; open_ row; close row] = true <->
  crossed_down row.
Proof.
  unfold crossed_down. cbn [existsb].
  rewrite !orb_true_iff, !Qltb_lt. intuition discriminate.
Qed.

Lemma entry_loop_skip (row : Bar) (rest : list Bar) (i : nat) :
  ~ crossed_down row ->
  entry_loop (row :: rest) i = entry_loop rest (S i).
Proof.
  intro H. cbn [entry_loop].
  destruct (existsb _ _) eqn:E; [|reflexivity].
  apply crossed_down_existsb in E. contradiction.
Qed.

Lemma entry_loop_stop (row : Bar) (rest : list Bar) (i : nat) :
  crossed_down row ->
  entry_loop (row :: rest) i = entry_loop [row] i.
Proof.
  intro H. apply crossed_down_existsb in H. cbn [entry_loop]. now rewrite H.
Qed.

Lemma entry_loop_none (rows : list Bar) :
  forall i,
    (forall j r, nth_error rows j = Some r -> ~ crossed_down r) ->
    entry_loop rows i = None.
Proof.
  induction rows as [|row rest IH]; intros i H; [reflexivity|].
  rewrite entry_loop_skip by (apply (H 0%nat); reflexivity).
  apply IH. intros j r Hj. apply (H (S j)). exact Hj.
Qed.

Lemma entry_loop_first (k : nat) :
  forall (rows : list Bar) (i : nat) (row : Bar),
    nth_error rows k = Some row ->
    crossed_down row ->
    (forall j r, (j < k)%nat -> nth_error rows j = Some r ->
                 ~ crossed_down r) ->
    entry_loop rows i = entry_loop [row] (i + k).
Proof.
  induction k as [|k IH]; intros rows i row Hk Hc Hbefore;
    (destruct rows as [|r rest]; [discriminate|]); cbn [nth_error] in Hk.
  - injection Hk as ->. rewrite Nat.add_0_r. now apply entry_loop_stop.
  - rewrite entry_loop_skip by (apply (Hbefore 0%nat); [lia|reflexivity]).
    rewrite (IH rest (S i) row Hk Hc).
    + f_equal. lia.
    + intros j r0 Hj Hr0. apply (Hbefore (S j)); [lia|exact Hr0].
Qed.

(** What the loop body does on a candidate row. *)
Lemma entry_on_candidate (row : Bar) (k : nat) :
  crossed_down row ->
  (open_ row < MA_10 row -> entry_loop [row] k = None) /\
  ((MA_5 row - MA_10 row) / MA_10 row * 100 < 3 ->
   entry_loop [row] k = None) /\
  (~ (MA_10 row < MA_5 row /\ MA_20 row < MA_10 row) ->
   entry_loop [row] k = None) /\
  (~ open_ row < MA_10 row ->
   ~ (MA_5 row - MA_10 row) / MA_10 row * 100 < 3 ->
   MA_10 row < MA_5 row -> MA_20 row < MA_10 row ->
   exists price,
     entry_loop [row] k = Some (k, price) /\ entry_price_rule row price).
Proof.
  intro Hc. apply crossed_down_existsb in Hc.
  unfold entry_price_rule. cbn [entry_loop]. rewrite Hc. clear Hc.
  unfold is_valid_entry.
  repeat setoid_rewrite <- Qle_bool_iff.
  repeat setoid_rewrite <- Qltb_lt.
  destruct (Qltb (open_ row) (MA_10 row));
    destruct (Qltb (open_ row) (MA_5 row));
    destruct (Qltb _ 3);
    destruct (Qltb (MA_10 row) (MA_5 row));
    destruct (Qltb (MA_20 row) (MA_10 row));
    destruct (Qle_bool (low row) (MA_5 row));
    destruct (Qle_bool (MA_5 row) (high row));
    cbn [andb negb];
    (repeat split; try reflexivity; try (intros; exfalso; intuition congruence));
    intros; eexists; (split; [reflexivity|]);
    repeat split; intros; try reflexivity; exfalso; intuition congruence.
Qed.

(** ** The re-arm gate *)

Lemma ForallOrdPairs_snoc {A : Type} (R : A -> A -> Prop) (l : list A) (x : A) :
  ForallOrdPairs R l -> Forall (fun a => R a x) l ->
  ForallOrdPairs R (l ++ [x]).
Proof.
  induction 1 as [|a l Ha Hl IH]; intro Hx; cbn.
  - constructor; constructor.
  - inversion Hx as [|? ? Hax Hlx]; subst. constructor.
    + apply Forall_app. split; [exact Ha|]. constructor; [exact Hax|constructor].
    + now apply IH.
Qed.

Lemma step_inv (p : Params) (m : option Z) (df : DataFrame) (idx : nat)
    (row : Bar) (st : LoopState) :
  loc df idx = Some row ->
  scan_inv df idx st ->
  scan_inv df (S idx) (step p m df idx row st).
Proof.
  intros Hrow [Hev Hpairs].
  assert (Hkeep : scan_inv df (S idx) st).
  { split; [|exact Hpairs]. intros ev Hin.
    destruct (Hev ev Hin) as [Hlt [Hw|(j & r & Hj & Hr)]].
    - split; [lia|now left].
    - split; [lia|]. right. exists j, r. split; [lia|exact Hr]. }
  unfold step.
  destruct (idx =? 0)%nat; [exact Hkeep|].
  destruct (negb (none_or m _)); [exact Hkeep|].
  destruct (waiting_for_ma20_dip st && negb (Qltb (close row) (MA_20 row)))
    eqn:Egate; [exact Hkeep|].
  assert (Hdip : forall ev, In ev (results st) ->
            exists j r, (trigger_idx ev < j <= idx)%nat /\ loc df j = Some r /\
                        close r < MA_20 r).
  { intros ev Hin. destruct (Hev ev Hin) as [Hlt [Hw|(j & r & Hj & Hr)]].
    - rewrite Hw in Egate. cbn in Egate. apply negb_false_iff in Egate.
      apply Qltb_lt in Egate. exists idx, row. split; [lia|]. now split.
    - exists j, r. split; [lia|exact Hr]. }
  destruct (try_trade p df idx row _) as [new|] eqn:Et.
  - destruct (try_trade_inv _ _ _ _ _ _ Et)
      as (_ & _ & _ & _ & _ & _ & _ & _ & _ & Hti & _).
    split; cbn [results waiting_for_ma20_dip].
    + intros ev Hin. apply in_app_iff in Hin. destruct Hin as [Hin|[<-|[]]].
      * split; [|now left]. destruct (Hev ev Hin). lia.
      * split; [lia|now left].
    + apply ForallOrdPairs_snoc; [exact Hpairs|].
      apply Forall_forall. intros ev Hin. unfold gated, ma20_dip.
      rewrite Hti. split; [destruct (Hev ev Hin); lia|].
      exact (Hdip ev Hin).
  - split; cbn [results waiting_for_ma20_dip]; [|exact Hpairs].
    intros ev Hin. split; [destruct (Hev ev Hin); lia|]. right.
    destruct (Hdip ev Hin) as (j & r & Hj & Hr). exists j, r.
    split; [lia|exact Hr].
Qed.

Lemma scan_inv_preserved (p : Params) (m : option Z) (df : DataFrame) :
  forall rows idx st,
    rows = skipn idx df ->
    scan_inv df idx st ->
    scan_inv df (idx + List.length rows) (scan p m df rows idx st).
Proof.
  induction rows as [|row rest IH]; intros idx st Hrows Hinv.
  - cbn. now rewrite Nat.add_0_r.
  - cbn [scan List.length]. rewrite Nat.add_succ_r, <- Nat.add_succ_l.
    apply IH.
    + rewrite <- (Nat.add_1_l idx), <- skipn_skipn, <- Hrows. reflexivity.
    + apply step_inv; [|exact Hinv].
      unfold loc. rewrite <- (Nat.add_0_r idx), <- nth_error_skipn, <- Hrows.
      reflexivity.
Qed.

Lemma events_gated (p : Params) (m : option Z) (df0 : DataFrame) :
  ForallOrdPairs (gated (sort_values df0)) (run_backtest_events p m df0).
Proof.
  unfold run_backtest_events.
  apply (scan_inv_preserved p m (sort_values df0) _ 0%nat initial_state eq_refl).
  split; [intros ev []|constructor].
Qed.

Lemma events_trigger_NoDup (p : Params) (m : option Z) (df0 : DataFrame) :
  NoDup (map trigger_idx (run_backtest_events p m df0)).
Proof.
  pose proof (events_gated p m df0) as H.
  induction H as [|ev l Hev Hl IH]; cbn; constructor; [|exact IH].
  intro Hin. apply in_map_iff in Hin. destruct Hin as (ev' & Heq & Hin').
  rewrite Forall_forall in Hev. destruct (Hev ev' Hin') as [Hlt _]. lia.
Qed.

(** C4.  The entry scan starts on the row after the trigger and stops at
    the first row on which one of low, high, open, close is below MA5.
    With no such row up to the end of the series there is no entry.  On
    the first such row: no entry if the open is below MA10, if
    (MA5 - MA10)/MA10 x 100 < 3, or if MA5 > MA10 > MA20 fails; otherwise
    the entry is on that row, at the open if open < MA5, else at MA5 if
    low <= MA5 <= high, else at the open.  No trigger row has more than
    one record. *)
Theorem entry_resolver_first_candidate :
  forall (df : DataFrame) (idx : nat),
    ((forall j r, (idx < j)%nat -> loc df j = Some r -> ~ crossed_down r) ->
     find_entry df idx = None) /\
    (forall k row,
        first_candidate df idx k row ->
        (open_ row < MA_10 row -> find_entry df idx = None) /\
        ((MA_5 row - MA_10 row) / MA_10 row * 100 < 3 ->
         find_entry df idx = None) /\
        (~ (MA_10 row < MA_5 row /\ MA_20 row < MA_10 row) ->
         find_entry df idx = None) /\
        (~ open_ row < MA_10 row ->
         ~ (MA_5 row - MA_10 row) / MA_10 row * 100 < 3 ->
         MA_10 row < MA_5 row -> MA_20 row < MA_10 row ->
         exists price,
           find_entry df idx = Some (k, price) /\
           entry_price_rule row price)) /\
    (forall p m, NoDup (map trigger_idx (run_backtest_events p m df))).
Proof.
  intros df idx. split; [|split].
  - intro Hnone. unfold find_entry. apply entry_loop_none.
    intros j r Hj. rewrite nth_error_skipn in Hj.
    apply (Hnone (S idx + j)%nat); [lia|exact Hj].
  - intros k row (Hlt & Hloc & Hc & Hfirst).
    assert (Heq : find_entry df idx = entry_loop [row] k).
    { unfold find_entry.
      rewrite (entry_loop_first (k - S idx) _ _ row).
      - f_equal. lia.
      - rewrite nth_error_skipn.
        replace (S idx + (k - S idx))%nat with k by lia. exact Hloc.
      - exact Hc.
      - intros j r Hj Hr. rewrite nth_error_skipn in Hr.
        apply (Hfirst (S idx + j)%nat); [lia|exact Hr]. }
    rewrite Heq. now apply entry_on_candidate.
  - intros p m. apply events_trigger_NoDup.
Qed.

Lemma entry_resolver_first_candidate_witness :
  exists price,
    find_entry win_series 1 = Some (2%nat, price) /\
    entry_price_rule (bar 3 102 104 101 103 1 105 100 95) price.
Proof.
  destruct (entry_resolver_first_candidate win_series 1) as (_ & H & _).
  apply (H 2%nat (bar 3 102 104 101 103 1 105 100 95)).
  - split; [lia|]. split; [reflexivity|]. split.
    + left. unfold Qlt. cbn. lia.
    + intros j r Hj. lia.
  - unfold Qlt. cbn. lia.
  - unfold Qlt. cbn. lia.
  - unfold Qlt. cbn. lia.
  - unfold Qlt. cbn. lia.
Defined.

Lemma scan_gate_blocks (p : Params) (m : option Z) (df : DataFrame) :
  forall rows idx st,
    waiting_for_ma20_dip st = true ->
    (forall r, In r rows -> ~ close r < MA_20 r) ->
    scan p m df rows idx st = st.
Proof.
  induction rows as [|row rest IH]; intros idx st Hw Hno; [reflexivity|].
  cbn [scan].
  assert (Hstep : step p m df idx row st = st).
  { unfold step. destruct (idx =? 0)%nat; [reflexivity|].
    destruct (negb (none_or m _)); [reflexivity|].
    rewrite Hw. destruct (Qltb (close row) (MA_20 row)) eqn:E; [|reflexivity].
    apply Qltb_lt in E. exfalso. apply (Hno row); [now left|exact E]. }
  rewrite Hstep. apply IH; [exact Hw|].
  intros r Hr. apply Hno. now right.
Qed.

Lemma scan_app (p : Params) (m : option Z) (df : DataFrame) :
  forall rows1 rows2 idx st,
    scan p m df (rows1 ++ rows2) idx st
    = scan p m df rows2 (idx + List.length rows1) (scan p m df rows1 idx st).
Proof.
  induction rows1 as [|row rest IH]; intros rows2 idx st; cbn [app scan].
  - cbn. now rewrite Nat.add_0_r.
  - rewrite IH. cbn [List.length]. f_equal. lia.
Qed.

Lemma step_on_dip (p : Params) (m : option Z) (df : DataFrame) (idx : nat)
    (row : Bar) (st : LoopState) :
  (0 < idx)%nat ->
  none_or m (fun d => (date_ row =? d)%Z) = true ->
  close row < MA_20 row ->
  step p m df idx row st
  = match try_trade p df idx row (List.length (results st)) with
    | None => mkState false (last_exit_idx st) (results st)
    | Some ev => mkState true (Z.of_nat (exit_idx ev)) (results st ++ [ev])
    end.
Proof.
  intros Hidx Hm Hdip. unfold step.
  destruct (idx =? 0)%nat eqn:E0; [apply Nat.eqb_eq in E0; lia|].
  rewrite Hm. apply Qltb_lt in Hdip. rewrite Hdip.
  cbn [negb]. now rewrite andb_false_r.
Qed.

Lemma events_trigger_increasing (p : Params) (m : option Z) (df0 : DataFrame) :
  forall l1 ev1 l2 ev2,
    run_backtest_events p m df0 = l1 ++ ev1 :: l2 ->
    In ev2 l2 ->
    (trigger_idx ev1 < trigger_idx ev2)%nat.
Proof.
  intros l1 ev1 l2 ev2 E Hin.
  pose proof (events_gated p m df0) as H. rewrite E in H. clear E.
  induction l1 as [|x l1 IH]; cbn in H; inversion H as [|? ? Hall Hrest]; subst.
  - rewrite Forall_forall in Hall. apply (Hall ev2 Hin).
  - apply IH. exact Hrest.
Qed.

(** On [overlap_series] the first record has its trigger on row 1 and its
    exit on row 4; the scan goes on with row 2, which is taken as a
    trigger again and gives a second record. *)
Example scan_continues_after_trigger_row :
  map labels (run_backtest_events no_thresholds None overlap_series)
  = [ (1, 3, 4); (2, 3, 4) ]%nat.
Proof. vm_compute. reflexivity. Qed.

(** C5 (amended).  After a record is appended the scan goes on with the
    row after the trigger row, the gate set.  The following rows are passed
    over as long as they do not close below their MA20, and the first row
    that closes below its MA20 is tested as a trigger again, wherever it
    lies relative to the exit row.  The scan never goes back: a later
    record has a later trigger row. *)
Theorem scan_after_record :
  forall (p : Params) (m : option Z),
    (forall df idx row st,
        results (step p m df idx row st) <> results st ->
        waiting_for_ma20_dip (step p m df idx row st) = true /\
        forall rest,
          scan p m df (row :: rest) idx st
          = scan p m df rest (S idx) (step p m df idx row st)) /\
    (forall df st rows1 row rest idx,
        waiting_for_ma20_dip st = true ->
        (forall r, In r rows1 -> ~ close r < MA_20 r) ->
        close row < MA_20 row ->
        none_or m (fun d => (date_ row =? d)%Z) = true ->
        (0 < idx + List.length rows1)%nat ->
        scan p m df (rows1 ++ row :: rest) idx st
        = scan p m df rest (S (idx + List.length rows1))
            match try_trade p df (idx + List.length rows1) row
                            (List.length (results st)) with
            | None => mkState false (last_exit_idx st) (results st)
            | Some ev =>
              mkState true (Z.of_nat (exit_idx ev)) (results st ++ [ev])
            end) /\
    (forall df0 l1 ev1 l2 ev2,
        run_backtest_events p m df0 = l1 ++ ev1 :: l2 ->
        In ev2 l2 ->
        (trigger_idx ev1 < trigger_idx ev2)%nat).
Proof.
  intros p m. split; [|split].
  - intros df idx row st Hne. split; [|reflexivity].
    destruct (step_results p m df idx row st)
      as [H|(ev & _ & _ & _ & H)]; [contradiction|exact H].
  - intros df st rows1 row rest idx Hw Hno Hdip Hm Hidx.
    rewrite scan_app, (scan_gate_blocks p m df rows1 idx st Hw Hno).
    cbn [scan]. now rewrite step_on_dip.
  - intro df0. apply events_trigger_increasing.
Qed.

Lemma scan_after_record_witness :
  map labels
    (results
       (scan no_thresholds None overlap_series
          ([] ++ bar 3 101 107 100 106 6 100 104 108
              :: [ bar 4 102 104 101 103 (-(3)) 105 100 95;
                   bar 5 104 108 103 107 4 105 101 96 ])
          2
          (step no_thresholds None overlap_series 1
                (bar 2 92 101 92 100 9 90 88 86) initial_state)))
  = [ (1, 3, 4); (2, 3, 4) ]%nat.
Proof.
  rewrite (proj1 (proj2 (scan_after_record no_thresholds None))).
  - vm_compute. reflexivity.
  - vm_compute. reflexivity.
  - intros r [].
  - unfold Qlt. cbn. lia.
  - reflexivity.
  - cbn. lia.
Defined.

(** C5 as worded fails on [overlap_series]: the second record has its
    trigger on a row strictly between the trigger row and the exit row of
    the first. *)
Lemma trigger_inside_previous_window :
  exists ev1 ev2,
    run_backtest_events no_thresholds None overlap_series = [ev1; ev2] /\
    (trigger_idx ev1 < trigger_idx ev2 < exit_idx ev1)%nat.
Proof.
  assert (E : exists ev1 ev2,
             run_backtest_events no_thresholds None overlap_series = [ev1; ev2] /\
             labels ev1 = (1, 3, 4)%nat /\ labels ev2 = (2, 3, 4)%nat)
    by (vm_compute; eauto).
  destruct E as (ev1 & ev2 & E & L1 & L2).
  exists ev1, ev2. split; [exact E|].
  injection L1 as T1 _ X1. injection L2 as T2 _ _.
  rewrite T1, T2, X1. lia.
Qed.

(** C6 (amended).  For two records of one pass whose windows overlap (the
    later trigger row is not after the earlier record's exit row), some
    row after the earlier trigger row and no later than the later trigger
    row closes below its MA20.  Appending a record sets the gate, and
    while the gate is set rows that do not close below their MA20 leave
    the scan state as it is. *)
Theorem rearm_gate :
  forall (p : Params) (m : option Z) (df0 : DataFrame),
    (forall ev1 ev2,
        In ev1 (run_backtest_events p m df0) ->
        In ev2 (run_backtest_events p m df0) ->
        (trigger_idx ev1 < trigger_idx ev2)%nat ->
        (trigger_idx ev2 <= exit_idx ev1)%nat ->
        ma20_dip (sort_values df0) (trigger_idx ev1) (trigger_idx ev2)) /\
    (forall idx row st,
        results (step p m (sort_values df0) idx row st) <> results st ->
        waiting_for_ma20_dip (step p m (sort_values df0) idx row st) = true) /\
    (forall rows idx st,
        waiting_for_ma20_dip st = true ->
        (forall r, In r rows -> ~ close r < MA_20 r) ->
        scan p m (sort_values df0) rows idx st = st).
Proof.
  intros p m df0. split; [|split].
  - intros ev1 ev2 H1 H2 Hlt _.
    destruct (ForallOrdPairs_In (events_gated p m df0) _ _ H1 H2)
      as [->|[[_ H]|[H _]]]; [lia|exact H|lia].
  - intros idx row st Hne.
    destruct (step_results p m (sort_values df0) idx row st)
      as [H|(ev & _ & _ & _ & H)]; [contradiction|exact H].
  - apply scan_gate_blocks.
Qed.

Lemma rearm_gate_witness :
  exists ev1 ev2,
    run_backtest_events no_thresholds None overlap_series = [ev1; ev2] /\
    ma20_dip (sort_values overlap_series) (trigger_idx ev1) (trigger_idx ev2).
Proof.
  assert (E : exists ev1 ev2,
             run_backtest_events no_thresholds None overlap_series = [ev1; ev2] /\
             labels ev1 = (1, 3, 4)%nat /\ labels ev2 = (2, 3, 4)%nat)
    by (vm_compute; eauto).
  destruct E as (ev1 & ev2 & E & L1 & L2).
  exists ev1, ev2. split; [exact E|].
  injection L1 as T1 _ X1. injection L2 as T2 _ _.
  apply (proj1 (rearm_gate no_thresholds None overlap_series) ev1 ev2).
  - rewrite E. left. reflexivity.
  - rewrite E. right. left. reflexivity.
  - rewrite T1, T2. lia.
  - rewrite T2, X1. lia.
Defined.

(** C6 as worded fails on [overlap_series]: the two records have
    overlapping windows, and no row strictly between their trigger rows
    closes below its MA20 (the row that does is the second trigger row
    itself). *)
Lemma dip_on_second_trigger_row :
  exists ev1 ev2,
    run_backtest_events no_thresholds None overlap_series = [ev1; ev2] /\
    (trigger_idx ev1 < trigger_idx ev2 <= exit_idx ev1)%nat /\
    ~ (exists j row,
          (trigger_idx ev1 < j < trigger_idx ev2)%nat /\
          loc (sort_values overlap_series) j = Some row /\
          close row < MA_20 row).
Proof.
  assert (E : exists ev1 ev2,
             run_backtest_events no_thresholds None overlap_series = [ev1; ev2] /\
             labels ev1 = (1, 3, 4)%nat /\ labels ev2 = (2, 3, 4)%nat)
    by (vm_compute; eauto).
  destruct E as (ev1 & ev2 & E & L1 & L2).
  exists ev1, ev2. split; [exact E|].
  injection L1 as T1 _ X1. injection L2 as T2 _ _.
  rewrite T1, T2, X1. split; [lia|].
  intros (j & row & Hj & _). lia.
Qed.

(** ** Rounding *)

Lemma rint_bounds (y : Q) :
  y - (1 # 2) <= inject_Z (rint y) <= y + (1 # 2).
Proof.
  unfold rint.
  pose proof (Qfloor_le y) as Hlo. pose proof (Qlt_floor y) as Hhi.
  rewrite inject_Z_plus in Hhi. change (inject_Z 1) with 1 in Hhi.
  destruct (Qcompare (y - inject_Z (Qfloor y)) (1 # 2)) eqn:E.
  - apply Qeq_alt in E.
    destruct (Z.even (Qfloor y)); [|rewrite inject_Z_plus;
      change (inject_Z 1) with 1]; lra.
  - apply Qlt_alt in E. lra.
  - apply Qgt_alt in E. rewrite inject_Z_plus. change (inject_Z 1) with 1. lra.
Qed.

Lemma round_2_bounds (x : Q) :
  x - (1 # 200) <= round x 2 <= x + (1 # 200).
Proof.
  unfold round. change (inject_Z (10 ^ Z.of_nat 2)) with 100.
  pose proof (rint_bounds (x * 100)) as H.
  set (r := inject_Z (rint (x * 100))) in *.
  unfold Qdiv. change (/ 100) with (1 # 100). lra.
Qed.

Lemma round_2_two_decimals (x : Q) : two_decimals (round x 2).
Proof.
  exists (rint (x * 100)). unfold round.
  change (inject_Z (10 ^ Z.of_nat 2)) with 100.
  unfold Qeq, Qdiv, Qmult, Qinv, inject_Z. cbn. lia.
Qed.

Lemma In_events (p : Params) (m : option Z) (df0 : DataFrame) (ev : Event) :
  In ev (run_backtest_events p m df0) ->
  exists idx row n,
    loc (sort_values df0) idx = Some row /\
    try_trade p (sort_values df0) idx row n = Some ev.
Proof.
  intro Hin.
  pose proof (events_from_try_trade p m df0
    (fun ev => exists idx row n,
         loc (sort_values df0) idx = Some row /\
         try_trade p (sort_values df0) idx row n = Some ev)) as HF.
  rewrite Forall_forall in HF. apply HF; [|exact Hin].
  intros idx row n ev' _ Hrow Ht. now exists idx, row, n.
Qed.

(** ** Risk/reward *)




(** ** Target price and return *)

(** C10.  The target price of every record is
    entry price x (1 + (MA5 - MA10)/MA10), with the moving averages of the
    entry row, rounded to 2 decimal places; the exit price of a win is
    that rounded value; the return% is (exit - entry)/entry x 100 rounded
    to 2 decimal places.  Both recorded values are multiples of 0.01
    within 0.005 of the exact formulas. *)
Theorem target_and_return_rounded :
  forall (p : Params) (m : option Z) (df0 : DataFrame) (ev : Event),
    In ev (run_backtest_events p m df0) ->
    exists entry_row,
      loc (sort_values df0) (entry_idx ev) = Some entry_row /\
      let t := trade ev in
      let exact_target :=
        entry_price t
        * (1 + (MA_5 entry_row - MA_10 entry_row) / MA_10 entry_row) in
      let exact_return :=
        (exit_price t - entry_price t) / entry_price t * 100 in
      target_price t = round exact_target 2 /\
      (outcome t = win -> exit_price t = target_price t) /\
      return_pct t = round exact_return 2 /\
      two_decimals (target_price t) /\
      two_decimals (return_pct t) /\
      exact_target - (1 # 200) <= target_price t <= exact_target + (1 # 200) /\
      exact_return - (1 # 200) <= return_pct t <= exact_return + (1 # 200).
Proof.
  intros p m df0 ev Hin.
  destruct (In_events _ _ _ _ Hin) as (idx & row & n & _ & Ht).
  destruct (try_trade_inv _ _ _ _ _ _ Ht)
    as (prev & ep & erow & ex & _ & _ & _ & Herow & Hex & _ & _ & _ & _ & _ &
        Hep & Hxp & Htp & Ho & Hret & _).
  destruct (find_exit_inv _ _ _ _ _ Hex) as (xrow & _ & _ & _ & Hwin & _).
  exists erow. split; [exact Herow|]. cbv zeta.
  rewrite Htp, Hret, Hxp, Hep, Ho.
  unfold calculate_target_price, calculate_return.
  split; [reflexivity|]. split; [intro Hw; apply (Hwin Hw)|].
  split; [reflexivity|].
  split; [apply round_2_two_decimals|]. split; [apply round_2_two_decimals|].
  split; apply round_2_bounds.
Qed.

Lemma target_and_return_rounded_witness :
  exists ev entry_row,
    run_backtest_events no_thresholds None win_series = [ev] /\
    loc (sort_values win_series) (entry_idx ev) = Some entry_row /\
    target_price (trade ev)
    = round (entry_price (trade ev)
             * (1 + (MA_5 entry_row - MA_10 entry_row) / MA_10 entry_row)) 2 /\
    (outcome (trade ev) = win ->
     exit_price (trade ev) = target_price (trade ev)) /\
    return_pct (trade ev)
    = round ((exit_price (trade ev) - entry_price (trade ev))
             / entry_price (trade ev) * 100) 2.
Proof.
  assert (E : exists ev,
             run_backtest_events no_thresholds None win_series = [ev])
    by (vm_compute; eauto).
  destruct E as (ev & E).
  destruct (target_and_return_rounded no_thresholds None win_series ev)
    as (entry_row & H1 & H2 & H3 & H4 & _).
  - rewrite E. left. reflexivity.
  - exists ev, entry_row. repeat split; assumption.
Defined.

(** ** Thresholds *)






(** ** Daily summary *)

Lemma insert_key_In (d x : Z) (keys : list Z) :
  In x (insert_key d keys) <-> x = d \/ In x keys.
Proof.
  induction keys as [|k rest IH]; cbn [insert_key].
  - cbn. intuition.
  - destruct (d <? k)%Z; [cbn; intuition|].
    destruct (d =? k)%Z eqn:E.
    + apply Z.eqb_eq in E. subst k. cbn. intuition.
    + cbn [In]. rewrite IH. intuition.
Qed.

Lemma group_keys_In (df : list Trade) (d : Z) :
  In d (group_keys df) <-> In d (map entry_date df).
Proof.
  unfold group_keys. induction (map entry_date df) as [|x l IH]; cbn.
  - tauto.
  - rewrite insert_key_In, IH. intuition.
Qed.

Lemma existsb_eqb_In (d : Z) (l : list Z) :
  existsb (Z.eqb d) l = true <-> In d l.
Proof.
  rewrite existsb_exists. split.
  - intros (x & Hx & E). apply Z.eqb_eq in E. now subst.
  - intro H. exists d. split; [exact H|apply Z.eqb_refl].
Qed.

Lemma date_range_In (lo hi d : Z) :
  In d (date_range lo hi) <-> (lo <= d <= hi)%Z.
Proof.
  unfold date_range. rewrite in_map_iff. split.
  - intros (i & <- & Hi). apply in_seq in Hi. lia.
  - intro H. exists (Z.to_nat (d - lo)). split; [lia|].
    apply in_seq. lia.
Qed.

Lemma min_date_spec (l : list Z) :
  forall d0,
    In (min_date d0 l) (d0 :: l) /\
    (forall x, In x (d0 :: l) -> (min_date d0 l <= x)%Z).
Proof.
  unfold min_date. induction l as [|y l IH]; intro d0; cbn [fold_left].
  - split; [now left|]. intros x [<-|[]]. lia.
  - destruct (IH (Z.min d0 y)) as [Hin Hle]. split.
    + destruct Hin as [Hm|Hm]; [|now right; right].
      rewrite <- Hm. destruct (Z.min_spec d0 y) as [[_ ->]|[_ ->]];
        [now left|now right; left].
    + intros x [<-|[<-|Hx]].
      * specialize (Hle (Z.min d0 y) (or_introl eq_refl)). lia.
      * specialize (Hle (Z.min d0 y) (or_introl eq_refl)). lia.
      * apply Hle. now right.
Qed.

Lemma max_date_spec (l : list Z) :
  forall d0,
    In (max_date d0 l) (d0 :: l) /\
    (forall x, In x (d0 :: l) -> (x <= max_date d0 l)%Z).
Proof.
  unfold max_date. induction l as [|y l IH]; intro d0; cbn [fold_left].
  - split; [now left|]. intros x [<-|[]]. lia.
  - destruct (IH (Z.max d0 y)) as [Hin Hle]. split.
    + destruct Hin as [Hm|Hm]; [|now right; right].
      rewrite <- Hm. destruct (Z.max_spec d0 y) as [[_ ->]|[_ ->]];
        [now right; left|now left].
    + intros x [<-|[<-|Hx]].
      * specialize (Hle (Z.max d0 y) (or_introl eq_refl)). lia.
      * specialize (Hle (Z.max d0 y) (or_introl eq_refl)). lia.
      * apply Hle. now right.
Qed.

Lemma with_total_and_average_labels (dates : list Z) (f : Z -> SummaryRow) :
  map fst (with_total_and_average (map (fun d => (Day d, f d)) dates))
  = map Day dates ++ [Total; Average].
Proof.
  unfold with_total_and_average. rewrite map_app, map_map. reflexivity.
Qed.

Lemma round_0_zero : cell_zero (Some (round 0 2)).
Proof. exists (round 0 2). split; reflexivity. Qed.

(** The summary of the stand-alone tool: one row for every calendar day
    from the earliest entry date to the latest exit date, zero statistics
    on the days without an entry, then the Total and Average rows. *)
Theorem gui_daily_summary_full_span :
  forall (df : list Trade),
    df <> [] ->
    exists s lo hi,
      SummaryGui.generate_daily_summary df = Some s /\
      (In lo (map entry_date df) /\
       forall t, In t df -> (lo <= entry_date t)%Z) /\
      (In hi (map exit_date df) /\
       forall t, In t df -> (exit_date t <= hi)%Z) /\
      map fst s = map Day (date_range lo hi) ++ [Total; Average] /\
      (forall d, In d (date_range lo hi) <-> (lo <= d <= hi)%Z) /\
      (forall d row,
          In (Day d, row) s ->
          (forall t, In t df -> entry_date t <> d) ->
          zero_stats row).
Proof.
  intros df Hne. destruct df as [|t0 rest]; [contradiction|].
  set (df := t0 :: rest) in *.
  set (lo := min_date (entry_date t0) (map entry_date df)).
  set (hi := max_date (exit_date t0) (map exit_date df)).
  eexists. exists lo, hi. split; [reflexivity|].
  destruct (min_date_spec (map entry_date df) (entry_date t0)) as [Hlo1 Hlo2].
  destruct (max_date_spec (map exit_date df) (exit_date t0)) as [Hhi1 Hhi2].
  fold lo in Hlo1, Hlo2. fold hi in Hhi1, Hhi2.
  split; [|split; [|split; [|split]]].
  - split.
    + destruct Hlo1 as [<-|H]; [now left|exact H].
    + intros t Ht. apply Hlo2. right. now apply in_map.
  - split.
    + destruct Hhi1 as [<-|H]; [now left|exact H].
    + intros t Ht. apply Hhi2. right. now apply in_map.
  - apply with_total_and_average_labels.
  - intro d. apply date_range_In.
  - intros d row Hin Hnone.
    unfold with_total_and_average in Hin. apply in_app_iff in Hin.
    destruct Hin as [Hin|[Hin|[Hin|[]]]]; try discriminate.
    apply in_map_iff in Hin. destruct Hin as (d' & Heq & _).
    injection Heq as -> <-.
    assert (Hk : existsb (Z.eqb d) (group_keys df) = false).
    { destruct (existsb (Z.eqb d) (group_keys df)) eqn:E; [|reflexivity].
      apply existsb_eqb_In, group_keys_In, in_map_iff in E.
      destruct E as (t & Ht & Hin). exfalso. exact (Hnone t Hin Ht). }
    unfold SummaryGui.reindex. rewrite Hk. cbn.
    repeat split; apply round_0_zero.
Qed.

(** The summary of the runner: one row for every date on which some
    trade was entered, and no other date, then the Total and Average
    rows. *)
Lemma runner_daily_summary_labels (df : list Trade) :
  df <> [] ->
  exists s,
    BacktestRunner.generate_daily_summary df = Some s /\
    map fst s = map Day (group_keys df) ++ [Total; Average] /\
    (forall d, In d (group_keys df) <-> exists t, In t df /\ entry_date t = d).
Proof.
  intro Hne. destruct df as [|t0 rest]; [contradiction|].
  eexists. split; [reflexivity|]. split.
  - apply with_total_and_average_labels.
  - intro d. rewrite group_keys_In, in_map_iff. split.
    + intros (t & Ht & Hin). now exists t.
    + intros (t & Hin & Ht). now exists t.
Qed.

(** C7, evaluated.  The summary of [backtest_runner_MA5] for the single
    trade of [win_series] (entered on day 3, left on day 4) has the rows
    day 3, Total and Average: day 4 has no row. *)
Lemma runner_daily_summary_index :
  option_map (map fst)
    (BacktestRunner.generate_daily_summary
       (run_backtest no_thresholds None win_series))
  = Some [Day 3; Total; Average] /\
  option_map (map fst)
    (SummaryGui.generate_daily_summary
       (run_backtest no_thresholds None win_series))
  = Some [Day 3; Day 4; Total; Average].
Proof. split; vm_compute; reflexivity. Qed.

(** * Further properties of the engine *)

(** ** Rows of a record *)

Lemma entry_loop_inv (rows : list Bar) :
  forall (i k : nat) (price : Q),
    entry_loop rows i = Some (k, price) ->
    exists row,
      (i <= k)%nat /\
      nth_error rows (k - i) = Some row /\
      crossed_down row /\
      MA_10 row <= open_ row /\
      3 <= (MA_5 row - MA_10 row) / MA_10 row * 100 /\
      MA_10 row < MA_5 row /\ MA_20 row < MA_10 row /\
      entry_price_rule row price /\
      (forall j r, (j < k - i)%nat -> nth_error rows j = Some r ->
                   ~ crossed_down r).
Proof.
  induction rows as [|row rest IH]; intros i k price H; [discriminate|].
  destruct (existsb (fun p => Qltb p (MA_5 row))
                    [low row; high row; open_ row; close row]) eqn:Ec.
  - pose proof (proj1 (crossed_down_existsb row) Ec) as Hc.
    rewrite (entry_loop_stop row rest i Hc) in H.
    destruct (Qlt_le_dec (open_ row) (MA_10 row)) as [Ho|Ho].
    { rewrite (proj1 (entry_on_candidate row i Hc) Ho) in H. discriminate. }
    destruct (Qlt_le_dec ((MA_5 row - MA_10 row) / MA_10 row * 100) 3)
      as [Hs|Hs].
    { rewrite (proj1 (proj2 (entry_on_candidate row i Hc)) Hs) in H.
      discriminate. }
    destruct (Qlt_le_dec (MA_10 row) (MA_5 row)) as [H5|H5];
      [destruct (Qlt_le_dec (MA_20 row) (MA_10 row)) as [H10|H10]|].
    + destruct (proj2 (proj2 (proj2 (entry_on_candidate row i Hc))))
        as (pr & Hpr & Hrule);
        try assumption; try (apply Qle_not_lt; assumption).
      rewrite Hpr in H. injection H as <- <-.
      exists row. rewrite Nat.sub_diag.
      repeat split; try assumption; try lia; try apply Hrule.
    + rewrite (proj1 (proj2 (proj2 (entry_on_candidate row i Hc)))) in H;
        [discriminate|].
      intros [_ Hx]. exact (Qlt_not_le _ _ Hx H10).
    + rewrite (proj1 (proj2 (proj2 (entry_on_candidate row i Hc)))) in H;
        [discriminate|].
      intros [Hx _]. exact (Qlt_not_le _ _ Hx H5).
  - assert (Hn : ~ crossed_down row).
    { intro Hc. apply crossed_down_existsb in Hc. congruence. }
    rewrite (entry_loop_skip row rest i Hn) in H.
    destruct (IH _ _ _ H) as (r & Hle & Hnth & Hrest).
    exists r. split; [lia|].
    replace (k - i)%nat with (S (k - S i)) by lia.
    split; [exact Hnth|].
    destruct Hrest as (A & B & C & D & E & F & G).
    repeat split; try assumption; try apply F.
    intros j r0 Hj Hr0. destruct j as [|j].
    + cbn in Hr0. injection Hr0 as <-. exact Hn.
    + apply (G j r0); [lia|exact Hr0].
Qed.

Lemma find_entry_inv (df : DataFrame) (idx k : nat) (price : Q) :
  find_entry df idx = Some (k, price) ->
  exists row,
    (idx < k)%nat /\ loc df k = Some row /\
    crossed_down row /\
    MA_10 row <= open_ row /\
    3 <= (MA_5 row - MA_10 row) / MA_10 row * 100 /\
    MA_10 row < MA_5 row /\ MA_20 row < MA_10 row /\
    entry_price_rule row price.
Proof.
  unfold find_entry. intro H.
  destruct (entry_loop_inv _ _ _ _ H)
    as (row & Hle & Hnth & A & B & C & D & E & F & _).
  exists row. split; [lia|]. split.
  - unfold loc. rewrite nth_error_skipn in Hnth.
    replace (S idx + (k - S idx))%nat with k in Hnth by lia. exact Hnth.
  - repeat split; try assumption; apply F.
Qed.

Lemma sort_values_length (df0 : DataFrame) :
  List.length (sort_values df0) = List.length df0.
Proof.
  symmetry. apply Permutation_length, BarSort.Permuted_sort.
Qed.

Lemma event_rows (p : Params) (m : option Z) (df0 : DataFrame) (ev : Event) :
  In ev (run_backtest_events p m df0) ->
  (0 < trigger_idx ev < entry_idx ev)%nat /\
  (entry_idx ev <= exit_idx ev < List.length df0)%nat.
Proof.
  intro Hin.
  pose proof (events_from_try_trade p m df0
    (fun ev => (0 < trigger_idx ev < entry_idx ev)%nat /\
               (entry_idx ev <= exit_idx ev < List.length df0)%nat)) as HF.
  rewrite Forall_forall in HF. apply HF; [|exact Hin].
  clear ev Hin HF. intros idx row n ev Hidx _ Ht.
  destruct (try_trade_inv _ _ _ _ _ _ Ht)
    as (prev & ep & erow & ex & _ & _ & Hentry & _ & Hex & Hti & Hxi & _).
  destruct (find_entry_inv _ _ _ _ Hentry) as (r & Hlt & _).
  destruct (find_exit_inv _ _ _ _ _ Hex) as (xrow & Hle & Hxrow & _).
  assert (x_idx ex < List.length df0)%nat.
  { rewrite <- sort_values_length. apply nth_error_Some.
    unfold loc in Hxrow. congruence. }
  lia.
Qed.

(** X1.  Every record has its trigger on a row after the first, its entry
    on a later row and its exit on the entry row or after it, inside the
    frame.  A frame of fewer than three rows gives no record. *)
Theorem record_rows_ordered :
  forall (p : Params) (m : option Z) (df0 : DataFrame),
    (forall ev,
        In ev (run_backtest_events p m df0) ->
        (0 < trigger_idx ev < entry_idx ev)%nat /\
        (entry_idx ev <= exit_idx ev < List.length df0)%nat) /\
    ((List.length df0 < 3)%nat -> run_backtest p m df0 = []).
Proof.
  intros p m df0. split.
  - intros ev Hin. now apply (event_rows p m df0).
  - intro Hlen. unfold run_backtest.
    destruct (run_backtest_events p m df0) as [|ev rest] eqn:E; [reflexivity|].
    assert (Hin : In ev (run_backtest_events p m df0))
      by (rewrite E; now left).
    apply event_rows in Hin. lia.
Qed.

Lemma record_rows_ordered_witness :
  run_backtest no_thresholds None
    [ bar 1 90 92 89 91 1 88 86 84; bar 2 92 101 92 100 9 90 88 86 ] = [].
Proof.
  apply (proj2 (record_rows_ordered no_thresholds None
           [ bar 1 90 92 89 91 1 88 86 84; bar 2 92 101 92 100 9 90 88 86 ])).
  cbn. lia.
Defined.

(** ** Numbering and manual mode *)

Lemma scan_state_inv (p : Params) (m : option Z) (df : DataFrame)
    (I : LoopState -> Prop) :
  (forall idx row st, I st -> I (step p m df idx row st)) ->
  forall rows idx st, I st -> I (scan p m df rows idx st).
Proof.
  intros Hstep. induction rows as [|row rest IH]; intros idx st Hst.
  - exact Hst.
  - cbn [scan]. apply IH, Hstep, Hst.
Qed.

(** X2.  The records of a pass are numbered 1, 2, 3, ... in the order in
    which they are appended (the number used in entry_id and exit_id). *)
Theorem records_numbered :
  forall (p : Params) (m : option Z) (df0 : DataFrame),
    map trade_no (run_backtest p m df0)
    = seq 1 (List.length (run_backtest p m df0)).
Proof.
  intros p m df0. unfold run_backtest, run_backtest_events.
  rewrite map_map, length_map.
  apply (scan_state_inv p m (sort_values df0)
           (fun st => map (fun ev => trade_no (trade ev)) (results st)
                      = seq 1 (List.length (results st)))).
  - intros idx row st Hst.
    destruct (step_results p m (sort_values df0) idx row st)
      as [->|(ev & _ & Ht & -> & _)]; [exact Hst|].
    destruct (try_trade_inv _ _ _ _ _ _ Ht)
      as (_ & _ & _ & _ & _ & _ & _ & _ & _ & _ & _ & _ & _ & _ & _ & _ & _ &
          _ & _ & _ & _ & Hno).
    rewrite map_app, length_app, Hst. cbn [map List.length].
    rewrite Hno, Nat.add_1_r, seq_S. reflexivity.
  - reflexivity.
Qed.

Lemma step_results_manual (p : Params) (d : Z) (df : DataFrame) (idx : nat)
    (row : Bar) (st : LoopState) :
  results (step p (Some d) df idx row st) = results st \/
  exists ev,
    date_ row = d /\
    try_trade p df idx row (List.length (results st)) = Some ev /\
    results (step p (Some d) df idx row st) = results st ++ [ev].
Proof.
  unfold step.
  destruct (idx =? 0)%nat; [now left|]. cbn [none_or].
  destruct (date_ row =? d)%Z eqn:Ed; cbn [negb]; [|now left].
  apply Z.eqb_eq in Ed.
  destruct (waiting_for_ma20_dip st && _); [now left|].
  destruct (try_trade p df idx row _) as [ev|] eqn:Et; [|now left].
  right. exists ev. repeat split; try reflexivity. exact Ed.
Qed.

Lemma manual_trigger_dates (p : Params) (d : Z) (df0 : DataFrame) :
  Forall (fun ev => trigger_date (trade ev) = d)
         (run_backtest_events p (Some d) df0).
Proof.
  unfold run_backtest_events.
  apply (scan_state_inv p (Some d) (sort_values df0)
           (fun st => Forall (fun ev => trigger_date (trade ev) = d)
                             (results st))).
  - intros idx row st Hst.
    destruct (step_results_manual p d (sort_values df0) idx row st)
      as [->|(ev & Hd & Ht & ->)]; [exact Hst|].
    apply Forall_app. split; [exact Hst|]. constructor; [|constructor].
    destruct (try_trade_inv _ _ _ _ _ _ Ht)
      as (_ & _ & _ & _ & _ & _ & _ & _ & _ & _ & _ & Htd & _).
    now rewrite Htd.
  - constructor.
Qed.

Lemma event_trigger_row (p : Params) (m : option Z) (df0 : DataFrame)
    (ev : Event) :
  In ev (run_backtest_events p m df0) ->
  exists row,
    loc (sort_values df0) (trigger_idx ev) = Some row /\
    trigger_date (trade ev) = date_ row.
Proof.
  intro Hin.
  pose proof (events_from_try_trade p m df0
    (fun ev => exists row,
         loc (sort_values df0) (trigger_idx ev) = Some row /\
         trigger_date (trade ev) = date_ row)) as HF.
  rewrite Forall_forall in HF. apply HF; [|exact Hin].
  clear ev Hin HF. intros idx row n ev _ Hrow Ht.
  destruct (try_trade_inv _ _ _ _ _ _ Ht)
    as (_ & _ & _ & _ & _ & _ & _ & _ & _ & Hti & _ & Htd & _).
  exists row. rewrite Hti. now split.
Qed.

(** X3.  In manual mode every record has the forced date as its trigger
    date; when no two bars share a date the pass gives at most one
    record. *)
Theorem manual_mode_single_date :
  forall (p : Params) (d : Z) (df0 : DataFrame),
    (forall t, In t (run_backtest p (Some d) df0) -> trigger_date t = d) /\
    (NoDup (map date_ df0) ->
     (List.length (run_backtest p (Some d) df0) <= 1)%nat).
Proof.
  intros p d df0. split.
  - intros t Hin. unfold run_backtest in Hin. apply in_map_iff in Hin.
    destruct Hin as (ev & <- & Hin).
    pose proof (manual_trigger_dates p d df0) as HF.
    rewrite Forall_forall in HF. now apply HF.
  - intro Hnd. unfold run_backtest. rewrite length_map.
    pose proof (events_trigger_NoDup p (Some d) df0) as Hnodup.
    pose proof (manual_trigger_dates p d df0) as HF.
    rewrite Forall_forall in HF.
    destruct (run_backtest_events p (Some d) df0) as [|e1 [|e2 rest]] eqn:E;
      cbn; try lia.
    exfalso.
    assert (H1 : In e1 (run_backtest_events p (Some d) df0))
      by (rewrite E; now left).
    assert (H2 : In e2 (run_backtest_events p (Some d) df0))
      by (rewrite E; right; now left).
    destruct (event_trigger_row _ _ _ _ H1) as (r1 & Hr1 & Hd1).
    destruct (event_trigger_row _ _ _ _ H2) as (r2 & Hr2 & Hd2).
    assert (Heq : trigger_idx e1 = trigger_idx e2).
    { apply (NoDup_dates_loc (sort_values df0) _ _ r1 r2);
        [now apply sort_values_NoDup|exact Hr1|exact Hr2|].
      rewrite <- Hd1, <- Hd2.
      rewrite (HF e1), (HF e2); [reflexivity| |]; cbn; tauto. }
    cbn in Hnodup. inversion Hnodup as [|? ? Hnotin _]; subst.
    apply Hnotin. left. now symmetry.
Qed.

Lemma manual_mode_single_date_witness :
  (List.length (run_backtest no_thresholds (Some 2%Z) win_series) <= 1)%nat.
Proof.
  apply (proj2 (manual_mode_single_date no_thresholds 2%Z win_series)).
  cbn. repeat constructor; cbn; lia.
Defined.

(** ** Rounding is monotone *)

Lemma rint_floor_bounds (x : Q) :
  (Qfloor x <= rint x <= Qfloor x + 1)%Z.
Proof.
  unfold rint. destruct (Qcompare _ _); [destruct (Z.even _)| |]; lia.
Qed.

Lemma rint_monotone (x y : Q) : x <= y -> (rint x <= rint y)%Z.
Proof.
  intro Hxy. pose proof (Qfloor_resp_le x y Hxy) as Hf.
  destruct (Z.eq_dec (Qfloor x) (Qfloor y)) as [E|N].
  - unfold rint. rewrite <- E.
    destruct (Qcompare_spec (x - inject_Z (Qfloor x)) (1 # 2)) as [Cx|Cx|Cx];
      destruct (Qcompare_spec (y - inject_Z (Qfloor x)) (1 # 2)) as [Cy|Cy|Cy];
      try (destruct (Z.even (Qfloor x))); try lia; exfalso; lra.
  - pose proof (rint_floor_bounds x). pose proof (rint_floor_bounds y). lia.
Qed.

Lemma scale_pos (n : nat) : 0 < inject_Z (10 ^ Z.of_nat n).
Proof.
  change 0 with (inject_Z 0). rewrite <- Zlt_Qlt.
  apply Z.pow_pos_nonneg; lia.
Qed.

Lemma round_monotone (x y : Q) (n : nat) : x <= y -> round x n <= round y n.
Proof.
  intro Hxy. unfold round. pose proof (scale_pos n) as Hs.
  set (s := inject_Z (10 ^ Z.of_nat n)) in *.
  unfold Qdiv. apply Qmult_le_compat_r.
  - rewrite <- Zle_Qle. apply rint_monotone.
    apply Qmult_le_compat_r; [exact Hxy|]. now apply Qlt_le_weak.
  - apply Qinv_le_0_compat. now apply Qlt_le_weak.
Qed.

Lemma round_2_ge_3 (x : Q) : 3 <= x -> 3 <= round x 2.
Proof.
  intro H. apply (Qle_trans _ (round 3 2)).
  - apply Qle_bool_iff. reflexivity.
  - now apply round_monotone.
Qed.

Lemma round_2_le_0 (x : Q) : x <= 0 -> round x 2 <= 0.
Proof.
  intro H. apply (Qle_trans _ (round 0 2)).
  - now apply round_monotone.
  - apply Qle_bool_iff. reflexivity.
Qed.

(** ** Entry row, drawdown and exit row of a record *)

Lemma try_trade_metrics (p : Params) (df : DataFrame) (idx : nat) (row : Bar)
    (n : nat) (ev : Event) :
  try_trade p df idx row n = Some ev ->
  exists ep entry_row ex,
    find_entry df idx = Some (entry_idx ev, ep) /\
    loc df (entry_idx ev) = Some entry_row /\
    find_exit df (entry_idx ev) ep
      (calculate_target_price ep (MA_5 entry_row) (MA_10 entry_row))
      = Some ex /\
    exit_idx ev = x_idx ex /\
    entry_price (trade ev) = ep /\
    target_price (trade ev)
      = calculate_target_price ep (MA_5 entry_row) (MA_10 entry_row) /\
    max_drawdown (trade ev) = round (x_max_drawdown ex) 2 /\
    days_held (trade ev) = rows_between df (date_ entry_row) (x_date ex) /\
    Days_took_to_Entry (trade ev)
      = rows_between df (date_ row) (date_ entry_row) /\
    entry_False_Entry_Checker (trade ev) = False_Entry_Checker entry_row /\
    exit_price (trade ev) = x_price ex /\
    outcome (trade ev) = x_outcome ex /\
    trigger_idx ev = idx.
Proof.
  unfold try_trade. intro H.
  destruct (loc df (idx - 1)) as [prev|] eqn:Hprev; [|discriminate].
  destruct (is_trigger p df idx prev row) eqn:Htrig; [|discriminate].
  destruct (find_entry df idx) as [[ei ep]|] eqn:Hentry; [|discriminate].
  destruct (loc df ei) as [entry_row|] eqn:Hrow; [|discriminate].
  destruct (negb (is_valid_entry entry_row)); [discriminate|].
  destruct (find_exit df ei ep _) as [ex|] eqn:Hexit; [|discriminate].
  injection H as <-.
  exists ep, entry_row, ex.
  cbn -[loc find_entry find_exit round calculate_target_price
        calculate_return rows_between].
  repeat (split; [first [reflexivity | assumption]|]). reflexivity.
Qed.

Lemma event_entry_row (p : Params) (m : option Z) (df0 : DataFrame)
    (ev : Event) :
  In ev (run_backtest_events p m df0) ->
  exists row,
    loc (sort_values df0) (entry_idx ev) = Some row /\
    crossed_down row /\
    MA_10 row <= open_ row /\
    3 <= (MA_5 row - MA_10 row) / MA_10 row * 100 /\
    MA_10 row < MA_5 row /\ MA_20 row < MA_10 row /\
    entry_price_rule row (entry_price (trade ev)) /\
    spread_ma5_10 (trade ev)
    = round ((MA_5 row - MA_10 row) / MA_10 row * 100) 2.
Proof.
  intro Hin. destruct (In_events _ _ _ _ Hin) as (idx & row & n & _ & Ht).
  destruct (try_trade_inv _ _ _ _ _ _ Ht)
    as (_ & ep & erow & _ & _ & _ & Hentry & Herow & _ & _ & _ & _ & _ & _ &
        Hep & _ & _ & _ & _ & Hsp & _).
  destruct (find_entry_inv _ _ _ _ Hentry)
    as (r & _ & Hr & A & B & C & D & E & F).
  rewrite Herow in Hr. injection Hr as <-.
  exists erow. rewrite Hep. repeat split; try assumption; apply F.
Qed.

(** X4.  The entry row of every record crossed down its MA5, opened at or
    above its MA10 and has MA5 > MA10 > MA20; the recorded MA5-MA10
    spread is at least 3, so every record carries a risk/reward value. *)
Theorem record_entry_row :
  forall (p : Params) (m : option Z) (df0 : DataFrame) (ev : Event),
    In ev (run_backtest_events p m df0) ->
    (exists row,
        loc (sort_values df0) (entry_idx ev) = Some row /\
        crossed_down row /\ MA_10 row <= open_ row /\
        MA_20 row < MA_10 row /\ MA_10 row < MA_5 row) /\
    3 <= spread_ma5_10 (trade ev) /\
    risk_to_reward (trade ev)
    = Some (round (return_pct (trade ev) / spread_ma5_10 (trade ev)) 4).
Proof.
  intros p m df0 ev Hin.
  destruct (event_entry_row _ _ _ _ Hin)
    as (row & Hrow & A & B & C & D & E & _ & Hsp).
  assert (H3 : 3 <= spread_ma5_10 (trade ev)).
  { rewrite Hsp. now apply round_2_ge_3. }
  split; [exists row; tauto|]. split; [exact H3|].
  destruct (In_events _ _ _ _ Hin) as (idx & r & n & _ & Ht).
  destruct (try_trade_inv _ _ _ _ _ _ Ht)
    as (_ & _ & _ & _ & _ & _ & _ & _ & _ & _ & _ & _ & _ & _ & _ & _ & _ & _ &
        _ & _ & Hrr & _).
  rewrite Hrr.
  destruct (Qeq_bool (spread_ma5_10 (trade ev)) 0) eqn:Ez; [|reflexivity].
  apply Qeq_bool_iff in Ez. rewrite Ez in H3. exfalso.
  apply (Qlt_not_le 0 3); [reflexivity|exact H3].
Qed.

Lemma record_entry_row_witness :
  exists ev,
    run_backtest_events no_thresholds None win_series = [ev] /\
    3 <= spread_ma5_10 (trade ev) /\
    risk_to_reward (trade ev)
    = Some (round (return_pct (trade ev) / spread_ma5_10 (trade ev)) 4).
Proof.
  assert (E : exists ev,
             run_backtest_events no_thresholds None win_series = [ev])
    by (vm_compute; eauto).
  destruct E as (ev & E). exists ev. split; [exact E|].
  apply (record_entry_row no_thresholds None win_series ev).
  rewrite E. left. reflexivity.
Defined.

Lemma py_min_le (a b : Q) : py_min a b <= a /\ py_min a b <= b.
Proof.
  unfold py_min. destruct (Qltb b a) eqn:E.
  - apply Qltb_lt in E. split; [now apply Qlt_le_weak|apply Qle_refl].
  - apply Qltb_ge in E. split; [apply Qle_refl|exact E].
Qed.

Lemma exit_loop_facts (e : nat) (ep tp : Q) :
  forall (rows : list Bar) (i : nat) (md : Q) (ex : ExitEvent),
    exit_loop e ep tp rows i md = Some ex ->
    exit_scan_facts e ep tp rows i md ex.
Proof.
  induction rows as [|r rest IH]; intros i md ex H; [discriminate|].
  cbn [exit_loop] in H.
  set (d := (low r - ep) / ep * 100) in *.
  destruct (py_min_le md d) as [Hmd Hd].
  set (md' := py_min md d) in *.
  assert (Hstop : x_idx ex = i -> x_max_drawdown ex = md' ->
                  exit_scan_facts e ep tp (r :: rest) i md ex).
  { intros Hi Hx. unfold exit_scan_facts. rewrite Hi, Hx.
    split; [exact Hmd|]. split.
    - intros j row Hj Hle. assert (j = 0)%nat by lia. subst j.
      cbn in Hj. injection Hj as <-. exact Hd.
    - intros j row _ Hlt. lia. }
  assert (Hrec : (MA_10 r < low r /\ MA_10 r <= open_ r /\
                  (i <> e -> high r < tp)) ->
                 exit_loop e ep tp rest (S i) md' = Some ex ->
                 exit_scan_facts e ep tp (r :: rest) i md ex).
  { intros Hr H'. destruct (IH _ _ _ H') as (F1 & F2 & F3).
    split; [exact (Qle_trans _ _ _ F1 Hmd)|]. split.
    - intros [|j] row Hj Hle; cbn in Hj.
      + injection Hj as <-. exact (Qle_trans _ _ _ F1 Hd).
      + apply (F2 j row Hj). lia.
    - intros [|j] row Hj Hlt; cbn in Hj.
      + injection Hj as <-. rewrite Nat.add_0_r. exact Hr.
      + replace (i + S j)%nat with (S i + j)%nat by lia.
        apply (F3 j row Hj). lia. }
  destruct (Qle_bool tp (high r)) eqn:Et;
    destruct (Qle_bool (low r) (MA_10 r)) eqn:El;
    destruct (Qltb (open_ r) (MA_10 r)) eqn:Eo;
    cbn [andb orb negb] in H;
    try (rewrite andb_false_r in H; cbn [andb orb negb] in H);
    try (injection H as <-; now apply Hstop).
  - apply Qle_bool_false in El. apply Qltb_ge in Eo.
    destruct (i =? e)%nat eqn:Ei; cbn [andb] in H.
    + apply Nat.eqb_eq in Ei. apply (Hrec); [|exact H].
      split; [exact El|]. split; [exact Eo|]. intro Hne. contradiction.
    + injection H as <-. now apply Hstop.
  - apply Qle_bool_false in El. apply Qltb_ge in Eo.
    apply Qle_bool_false in Et.
    apply Hrec; [|exact H]. repeat split; try assumption.
    intros _. exact Et.
Qed.

Lemma find_exit_facts (df : DataFrame) (e : nat) (ep tp : Q) (ex : ExitEvent) :
  find_exit df e ep tp = Some ex ->
  x_max_drawdown ex <= 0 /\
  (forall j row,
      (e <= j <= x_idx ex)%nat -> loc df j = Some row ->
      x_max_drawdown ex <= (low row - ep) / ep * 100) /\
  (forall j row,
      (e <= j < x_idx ex)%nat -> loc df j = Some row ->
      MA_10 row < low row /\ MA_10 row <= open_ row /\
      ((e < j)%nat -> high row < tp)).
Proof.
  unfold find_exit, loc. intro H.
  destruct (exit_loop_facts _ _ _ _ _ _ _ H) as (F1 & F2 & F3).
  split; [exact F1|]. split.
  - intros j row Hj Hrow. apply (F2 (j - e)%nat row); [|lia].
    rewrite nth_error_skipn. replace (e + (j - e))%nat with j by lia.
    exact Hrow.
  - intros j row Hj Hrow.
    destruct (F3 (j - e)%nat row) as (A & B & C); [|lia|].
    + rewrite nth_error_skipn. replace (e + (j - e))%nat with j by lia.
      exact Hrow.
    + split; [exact A|]. split; [exact B|]. intro Hlt. apply C. lia.
Qed.

Lemma event_exit (p : Params) (m : option Z) (df0 : DataFrame) (ev : Event) :
  In ev (run_backtest_events p m df0) ->
  exists ex,
    find_exit (sort_values df0) (entry_idx ev) (entry_price (trade ev))
              (target_price (trade ev)) = Some ex /\
    exit_idx ev = x_idx ex /\
    exit_price (trade ev) = x_price ex /\
    outcome (trade ev) = x_outcome ex /\
    max_drawdown (trade ev) = round (x_max_drawdown ex) 2.
Proof.
  intro Hin. destruct (In_events _ _ _ _ Hin) as (idx & row & n & _ & Ht).
  destruct (try_trade_metrics _ _ _ _ _ _ Ht)
    as (ep & erow & ex & _ & _ & Hex & Hxi & Hep & Htp & Hmd & _ & _ & _ &
        Hxp & Ho & _).
  exists ex. rewrite Hep, Htp. repeat split; assumption.
Qed.

(** X5.  The recorded maximum drawdown is never positive, and it is at
    most the (rounded) drawdown of the low of every row from the entry row
    to the exit row. *)
Theorem record_max_drawdown :
  forall (p : Params) (m : option Z) (df0 : DataFrame) (ev : Event),
    In ev (run_backtest_events p m df0) ->
    max_drawdown (trade ev) <= 0 /\
    (forall j row,
        (entry_idx ev <= j <= exit_idx ev)%nat ->
        loc (sort_values df0) j = Some row ->
        max_drawdown (trade ev)
        <= round ((low row - entry_price (trade ev))
                  / entry_price (trade ev) * 100) 2).
Proof.
  intros p m df0 ev Hin.
  destruct (event_exit _ _ _ _ Hin) as (ex & Hex & Hxi & _ & _ & Hmd).
  destruct (find_exit_facts _ _ _ _ _ Hex) as (F1 & F2 & _).
  rewrite Hmd, Hxi. split.
  - now apply round_2_le_0.
  - intros j row Hj Hrow. apply round_monotone. now apply (F2 j row).
Qed.

Lemma record_max_drawdown_witness :
  exists ev,
    run_backtest_events no_thresholds None loss_series = [ev] /\
    max_drawdown (trade ev) <= 0.
Proof.
  assert (E : exists ev,
             run_backtest_events no_thresholds None loss_series = [ev])
    by (vm_compute; eauto).
  destruct E as (ev & E). exists ev. split; [exact E|].
  apply (record_max_drawdown no_thresholds None loss_series ev).
  rewrite E. left. reflexivity.
Defined.

(** X6.  The exit is the first event of the scan: from the entry row up to
    the row before the exit row no row has its low at or below MA10 or
    opens below MA10, and no row after the entry row reaches the target.
    A loss never exits above the MA10 of the exit row. *)
Theorem exit_is_first_event :
  forall (p : Params) (m : option Z) (df0 : DataFrame) (ev : Event),
    In ev (run_backtest_events p m df0) ->
    (forall j row,
        (entry_idx ev <= j < exit_idx ev)%nat ->
        loc (sort_values df0) j = Some row ->
        MA_10 row < low row /\ MA_10 row <= open_ row /\
        ((entry_idx ev < j)%nat -> high row < target_price (trade ev))) /\
    (forall row,
        loc (sort_values df0) (exit_idx ev) = Some row ->
        outcome (trade ev) = loss ->
        exit_price (trade ev) <= MA_10 row).
Proof.
  intros p m df0 ev Hin.
  destruct (event_exit _ _ _ _ Hin) as (ex & Hex & Hxi & Hxp & Ho & _).
  destruct (find_exit_facts _ _ _ _ _ Hex) as (_ & _ & F3).
  destruct (find_exit_inv _ _ _ _ _ Hex) as (xrow & _ & Hxrow & _ & _ & Hloss).
  rewrite Hxi, Hxp, Ho. split; [exact F3|].
  intros row Hrow Hl. rewrite Hxrow in Hrow. injection Hrow as <-.
  destruct (Hloss Hl) as [_ ->].
  destruct (Qltb (open_ xrow) (MA_10 xrow)) eqn:E.
  - apply Qltb_lt in E. now apply Qlt_le_weak.
  - apply Qle_refl.
Qed.

Lemma exit_is_first_event_witness :
  exists ev,
    run_backtest_events no_thresholds None loss_series = [ev] /\
    (forall row,
        loc (sort_values loss_series) (exit_idx ev) = Some row ->
        outcome (trade ev) = loss ->
        exit_price (trade ev) <= MA_10 row).
Proof.
  assert (E : exists ev,
             run_backtest_events no_thresholds None loss_series = [ev])
    by (vm_compute; eauto).
  destruct E as (ev & E). exists ev. split; [exact E|].
  apply (exit_is_first_event no_thresholds None loss_series ev).
  rewrite E. left. reflexivity.
Defined.

(** ** Sorted frames *)

Lemma leb_date_transitive : Transitive (fun a b => is_true (BarDateOrder.leb a b)).
Proof.
  intros a b c. unfold is_true, BarDateOrder.leb. rewrite !Z.leb_le. lia.
Qed.

Lemma strict_of_sorted_NoDup (l : list Bar) :
  StronglySorted (fun a b => is_true (BarDateOrder.leb a b)) l ->
  NoDup (map date_ l) ->
  StronglySorted Z.lt (map date_ l).
Proof.
  induction 1 as [|a l Hl IH Ha]; intro Hnd; cbn; constructor.
  - apply IH. now inversion Hnd.
  - inversion Hnd as [|? ? Hnotin _]; subst.
    rewrite Forall_forall in *. intros d Hd.
    apply in_map_iff in Hd. destruct Hd as (b & <- & Hb).
    specialize (Ha b Hb). unfold is_true, BarDateOrder.leb in Ha.
    apply Z.leb_le in Ha.
    assert (date_ a <> date_ b).
    { intro E. apply Hnotin. rewrite E. now apply in_map. }
    lia.
Qed.

Lemma sort_values_strict (df0 : DataFrame) :
  NoDup (map date_ df0) ->
  StronglySorted Z.lt (map date_ (sort_values df0)).
Proof.
  intro Hnd. apply strict_of_sorted_NoDup.
  - apply BarSort.StronglySorted_sort, leb_date_transitive.
  - now apply sort_values_NoDup.
Qed.

Lemma rows_between_none (l : list Bar) (lo hi : Z) :
  Forall (fun d => (hi < d)%Z) (map date_ l) -> rows_between l lo hi = 0%nat.
Proof.
  unfold rows_between. induction l as [|x l IH]; intro H; [reflexivity|].
  cbn in H. inversion H as [|? ? Hx Hl]; subst. cbn [filter].
  destruct (date_ x <=? hi)%Z eqn:E; [apply Z.leb_le in E; lia|].
  rewrite andb_false_r. now apply IH.
Qed.

Lemma rows_between_upto (l : list Bar) (lo : Z) :
  StronglySorted Z.lt (map date_ l) ->
  Forall (fun d => (lo < d)%Z) (map date_ l) ->
  forall j rj, loc l j = Some rj -> rows_between l lo (date_ rj) = S j.
Proof.
  unfold loc, rows_between.
  induction l as [|x l IH]; intros Hs Hlo j rj Hj; [destruct j; discriminate|].
  cbn in Hs, Hlo. inversion Hs as [|? ? Hs' Hx]; subst.
  inversion Hlo as [|? ? Hlox Hlol]; subst.
  destruct j as [|j]; cbn in Hj.
  - injection Hj as <-. cbn [filter].
    replace (lo <? date_ x)%Z with true by (symmetry; apply Z.ltb_lt; lia).
    rewrite Z.leb_refl. cbn [andb List.length]. f_equal.
    apply (rows_between_none l lo (date_ x)). exact Hx.
  - assert (Hlt : (date_ x < date_ rj)%Z).
    { rewrite Forall_forall in Hx. apply Hx.
      apply in_map. now apply (nth_error_In l j). }
    cbn [filter].
    replace (lo <? date_ x)%Z with true by (symmetry; apply Z.ltb_lt; lia).
    replace (date_ x <=? date_ rj)%Z with true
      by (symmetry; apply Z.leb_le; lia).
    cbn [andb List.length]. f_equal. now apply IH.
Qed.

Lemma rows_between_sorted (l : list Bar) :
  StronglySorted Z.lt (map date_ l) ->
  forall i j ri rj,
    (i <= j)%nat -> loc l i = Some ri -> loc l j = Some rj ->
    rows_between l (date_ ri) (date_ rj) = (j - i)%nat.
Proof.
  induction l as [|x l IH]; intros Hs i j ri rj Hij Hi Hj;
    [destruct i; discriminate|].
  cbn in Hs. inversion Hs as [|? ? Hs' Hx]; subst.
  destruct i as [|i].
  - cbn in Hi. injection Hi as <-.
    unfold rows_between. cbn [filter]. rewrite Z.ltb_irrefl. cbn [andb].
    destruct j as [|j]; cbn in Hj.
    + injection Hj as <-. apply (rows_between_none l (date_ x) (date_ x) Hx).
    + apply (rows_between_upto l (date_ x) Hs' Hx j rj Hj).
  - destruct j as [|j]; [lia|]. cbn in Hi, Hj.
    assert (Hlt : (date_ x < date_ ri)%Z).
    { rewrite Forall_forall in Hx. apply Hx.
      apply in_map. now apply (nth_error_In l i). }
    unfold rows_between. cbn [filter].
    replace (date_ ri <? date_ x)%Z with false
      by (symmetry; apply Z.ltb_ge; lia).
    cbn [andb]. apply (IH Hs' i j ri rj); [lia|exact Hi|exact Hj].
Qed.

(** X7.  When no two bars share a date, the days held of a record is the
    number of rows from the entry row to the exit row, and the days it
    took to enter is the number of rows from the trigger row to the entry
    row. *)
Theorem record_day_counts :
  forall (p : Params) (m : option Z) (df0 : DataFrame) (ev : Event),
    NoDup (map date_ df0) ->
    In ev (run_backtest_events p m df0) ->
    days_held (trade ev) = (exit_idx ev - entry_idx ev)%nat /\
    Days_took_to_Entry (trade ev) = (entry_idx ev - trigger_idx ev)%nat.
Proof.
  intros p m df0 ev Hnd Hin.
  pose proof (sort_values_strict df0 Hnd) as Hs.
  destruct (event_rows _ _ _ _ Hin) as [Hte Hex].
  destruct (In_events _ _ _ _ Hin) as (idx & row & n & Hrow & Ht).
  destruct (try_trade_metrics _ _ _ _ _ _ Ht)
    as (ep & erow & ex & _ & Herow & Hfx & Hxi & _ & _ & _ & Hdh & Hdt & _ &
        _ & _ & Hti).
  destruct (find_exit_inv _ _ _ _ _ Hfx) as (xrow & _ & Hxrow & Hxd & _).
  rewrite Hdh, Hdt, Hxd, Hxi, Hti. split.
  - apply (rows_between_sorted _ Hs); [lia|exact Herow|exact Hxrow].
  - apply (rows_between_sorted _ Hs); [lia|exact Hrow|exact Herow].
Qed.

Lemma record_day_counts_witness :
  exists ev,
    run_backtest_events no_thresholds None win_series = [ev] /\
    days_held (trade ev) = (exit_idx ev - entry_idx ev)%nat /\
    Days_took_to_Entry (trade ev) = (entry_idx ev - trigger_idx ev)%nat.
Proof.
  assert (E : exists ev,
             run_backtest_events no_thresholds None win_series = [ev])
    by (vm_compute; eauto).
  destruct E as (ev & E). exists ev. split; [exact E|].
  apply (record_day_counts no_thresholds None win_series ev).
  - cbn. repeat constructor; cbn; lia.
  - rewrite E. left. reflexivity.
Defined.

Lemma strict_sorted_perm_eq (l1 : list Bar) :
  forall l2,
    StronglySorted Z.lt (map date_ l1) ->
    StronglySorted Z.lt (map date_ l2) ->
    Permutation l1 l2 -> l1 = l2.
Proof.
  induction l1 as [|a l1 IH]; intros l2 H1 H2 Hp.
  - apply Permutation_nil in Hp. now subst.
  - destruct l2 as [|b l2];
      [apply Permutation_sym, Permutation_nil in Hp; discriminate|].
    cbn in H1, H2.
    inversion H1 as [|? ? H1' Ha]; inversion H2 as [|? ? H2' Hb]; subst.
    rewrite Forall_forall in Ha, Hb.
    assert (Hab : a = b).
    { assert (Hina : In a (b :: l2))
        by (apply (Permutation_in a Hp); now left).
      assert (Hinb : In b (a :: l1))
        by (apply (Permutation_in b (Permutation_sym Hp)); now left).
      destruct Hina as [E|Hina]; [now symmetry|].
      destruct Hinb as [E|Hinb]; [exact E|].
      specialize (Ha (date_ b) (in_map date_ _ _ Hinb)).
      specialize (Hb (date_ a) (in_map date_ _ _ Hina)). lia. }
    subst b. f_equal. apply IH; [exact H1'|exact H2'|].
    now apply Permutation_cons_inv in Hp.
Qed.

(** X8.  The order in which the rows of a symbol are supplied does not
    matter: when no two bars share a date, any two arrangements of the
    same rows give the same records. *)
Theorem run_backtest_row_order :
  forall (p : Params) (m : option Z) (df0 df1 : DataFrame),
    NoDup (map date_ df0) ->
    Permutation df0 df1 ->
    run_backtest p m df0 = run_backtest p m df1.
Proof.
  intros p m df0 df1 Hnd Hp.
  assert (Hnd1 : NoDup (map date_ df1)).
  { apply (Permutation_NoDup (Permutation_map date_ Hp) Hnd). }
  assert (Hs : sort_values df0 = sort_values df1).
  { apply strict_sorted_perm_eq.
    - now apply sort_values_strict.
    - now apply sort_values_strict.
    - apply (Permutation_trans (Permutation_sym (BarSort.Permuted_sort df0))).
      apply (Permutation_trans Hp). apply BarSort.Permuted_sort. }
  unfold run_backtest, run_backtest_events. cbv zeta. now rewrite Hs.
Qed.

Lemma run_backtest_row_order_witness :
  run_backtest no_thresholds None win_series
  = run_backtest no_thresholds None (rev win_series).
Proof.
  apply (run_backtest_row_order no_thresholds None win_series (rev win_series)).
  - cbn. repeat constructor; cbn; lia.
  - apply Permutation_rev.
Defined.

(** * Streaks *)

Lemma prefix_run_0 (test : Q -> bool) (l : list Q) : prefix_run test 0 l.
Proof. exists [], l. repeat split. Qed.

Lemma prefix_run_cons (test : Q -> bool) (j : nat) (v : Q) (l : list Q) :
  prefix_run test (S j) (v :: l) <-> test v = true /\ prefix_run test j l.
Proof.
  split.
  - intros (r & l2 & E & Hlen & Hall).
    destruct r as [|x r]; [discriminate|]. cbn in E, Hlen, Hall.
    injection E as <- ->. apply andb_true_iff in Hall. split; [tauto|].
    exists r, l2. repeat split; [lia|tauto].
  - intros (Hv & r & l2 & -> & Hlen & Hall).
    exists (v :: r), l2. cbn. rewrite Hv, Hall. repeat split. lia.
Qed.

Lemma prefix_run_nil (test : Q -> bool) (j : nat) :
  prefix_run test j [] -> j = 0%nat.
Proof.
  intros (r & l2 & E & Hlen & _). symmetry in E.
  apply app_eq_nil in E. destruct E as [-> _]. now cbn in Hlen.
Qed.

Lemma has_run_cons (test : Q -> bool) (k : nat) (v : Q) (l : list Q) :
  has_run test k l -> has_run test k (v :: l).
Proof.
  intros (l1 & r & l2 & -> & Hlen & Hall).
  exists (v :: l1), r, l2. repeat split; assumption.
Qed.

Lemma has_run_cons_inv (test : Q -> bool) (k : nat) (v : Q) (l : list Q) :
  has_run test k (v :: l) -> prefix_run test k (v :: l) \/ has_run test k l.
Proof.
  intros (l1 & r & l2 & E & Hlen & Hall). destruct l1 as [|x l1].
  - left. exists r, l2. repeat split; assumption.
  - right. cbn in E. injection E as _ ->. exists l1, r, l2.
    repeat split; assumption.
Qed.

Lemma prefix_run_has_run (test : Q -> bool) (j k : nat) (l : list Q) :
  prefix_run test j l -> (k <= j)%nat -> has_run test k l.
Proof.
  intros (r & l2 & -> & Hlen & Hall) Hk.
  exists [], (firstn k r), (skipn k r ++ l2). repeat split.
  - cbn. now rewrite app_assoc, firstn_skipn.
  - rewrite length_firstn. lia.
  - rewrite <- (firstn_skipn k r), forallb_app in Hall.
    apply andb_true_iff in Hall. tauto.
Qed.

Lemma streak_loop_spec (test : Q -> bool) (k : nat) :
  forall (l : list Q) (cur best : nat),
    (cur <= best)%nat ->
    ((k <= streak_loop test l cur best)%nat <->
     (k <= best)%nat \/
     (exists j, prefix_run test j l /\ (k <= cur + j)%nat) \/
     has_run test k l).
Proof.
  induction l as [|v l IH]; intros cur best Hcb; cbn [streak_loop].
  - split; [now left|]. intros [H|[(j & Hj & Hk)|H]]; [exact H| |].
    + apply prefix_run_nil in Hj. lia.
    + destruct H as (l1 & r & l2 & E & Hlen & _). symmetry in E.
      apply app_eq_nil in E. destruct E as [_ E].
      apply app_eq_nil in E. destruct E as [-> _]. cbn in Hlen. lia.
  - destruct (test v) eqn:Hv.
    + rewrite IH by lia. split.
      * intros [H|[(j & Hj & Hk)|H]].
        { destruct (Nat.le_gt_cases k best) as [Hb|Hb]; [now left|].
          right. left. exists 1%nat. split; [|lia].
          apply prefix_run_cons. split; [exact Hv|apply prefix_run_0]. }
        { right. left. exists (S j). split; [|lia].
          apply prefix_run_cons. now split. }
        { right. right. now apply has_run_cons. }
      * assert (Hpre : forall j, prefix_run test j (v :: l) ->
                  (k <= cur + j)%nat ->
                  (k <= Nat.max best (S cur))%nat \/
                  (exists j0, prefix_run test j0 l /\ (k <= S cur + j0)%nat) \/
                  has_run test k l).
        { intros [|j] Hj Hk; [left; lia|].
          apply prefix_run_cons in Hj. right. left. exists j.
          split; [tauto|lia]. }
        intros [H|[(j & Hj & Hk)|H]].
        { left. lia. }
        { now apply (Hpre j). }
        { destruct (has_run_cons_inv _ _ _ _ H) as [Hp|Hr].
          - apply (Hpre k Hp). lia.
          - now right; right. }
    + rewrite IH by lia. split.
      * intros [H|[(j & Hj & Hk)|H]]; [now left| |].
        { right. right. apply has_run_cons.
          apply (prefix_run_has_run test j k l Hj). lia. }
        { right. right. now apply has_run_cons. }
      * assert (Hpre : forall j, prefix_run test j (v :: l) -> j = 0%nat).
        { intros [|j] Hj; [reflexivity|].
          apply prefix_run_cons in Hj. destruct Hj as [Hj _]. congruence. }
        intros [H|[(j & Hj & Hk)|H]]; [now left| |].
        { apply Hpre in Hj. left. lia. }
        { destruct (has_run_cons_inv _ _ _ _ H) as [Hp|Hr].
          - apply Hpre in Hp. left. lia.
          - now right; right. }
Qed.

Lemma streak_loop_longest_run (test : Q -> bool) (l : list Q) (k : nat) :
  (k <= streak_loop test l 0 0)%nat <-> has_run test k l.
Proof.
  rewrite streak_loop_spec by lia. split.
  - intros [H|[(j & Hj & Hk)|H]].
    + replace k with 0%nat by lia. exists [], [], l. repeat split.
    + now apply (prefix_run_has_run test j k l).
    + exact H.
  - intro H. now right; right.
Qed.

(** X9.  The maximum winning streak is the length of the longest run of
    consecutive entry dates whose summed return is strictly positive, and
    the maximum losing streak the length of the longest run of dates whose
    summed return is strictly negative: a run of k such dates exists
    exactly when k is at most the streak.  A date with a zero sum breaks
    both. *)
Theorem max_streaks_are_longest_runs :
  forall (df : list Trade) (k : nat),
    ((k <= fst (calculate_max_streaks df))%nat <->
     has_run (fun val => Qltb 0 val) k (daily_returns df)) /\
    ((k <= snd (calculate_max_streaks df))%nat <->
     has_run (fun val => Qltb val 0) k (daily_returns df)).
Proof.
  intros df k. unfold calculate_max_streaks. cbn [fst snd].
  split; apply streak_loop_longest_run.
Qed.

Lemma run_nth (l1 r l2 : list Q) (i : nat) :
  (List.length l1 <= i < List.length l1 + List.length r)%nat ->
  exists x, nth_error (l1 ++ r ++ l2) i = Some x /\ In x r.
Proof.
  intro Hi. rewrite nth_error_app2 by lia. rewrite nth_error_app1 by lia.
  destruct (nth_error r (i - List.length l1)) as [x|] eqn:E.
  - exists x. split; [reflexivity|]. now apply (nth_error_In r _ E).
  - apply nth_error_None in E. lia.
Qed.

Lemma runs_disjoint (t1 t2 : Q -> bool) (a b : nat) (l : list Q) :
  (forall x, t1 x = true -> t2 x = false) ->
  has_run t1 a l -> has_run t2 b l ->
  (a + b <= List.length l)%nat.
Proof.
  intros Hex (l1 & r & l2 & E & Ha & Hr) (l1' & r' & l2' & E' & Hb & Hr').
  assert (Hlen : List.length l
                 = (List.length l1 + a + List.length l2)%nat).
  { rewrite E, !length_app. lia. }
  assert (Hlen' : List.length l
                  = (List.length l1' + b + List.length l2')%nat).
  { rewrite E', !length_app. lia. }
  destruct (Nat.le_gt_cases (List.length l1 + a) (List.length l1'))
    as [H1|H1]; [lia|].
  destruct (Nat.le_gt_cases (List.length l1' + b) (List.length l1))
    as [H2|H2]; [lia|].
  destruct a as [|a]; [lia|]. destruct b as [|b]; [lia|].
  exfalso.
  set (i := Nat.max (List.length l1) (List.length l1')).
  destruct (run_nth l1 r l2 i) as (x & Hx & Hin); [lia|].
  destruct (run_nth l1' r' l2' i) as (x' & Hx' & Hin'); [lia|].
  rewrite <- E in Hx. rewrite <- E' in Hx'.
  assert (x' = x) by congruence. subst x'.
  rewrite forallb_forall in Hr, Hr'.
  specialize (Hex x (Hr x Hin)). rewrite (Hr' x Hin') in Hex. discriminate.
Qed.

(** X10.  The winning and the losing streak together never exceed the
    number of distinct entry dates. *)
Theorem max_streaks_bounded :
  forall (df : list Trade),
    (fst (calculate_max_streaks df) + snd (calculate_max_streaks df)
     <= List.length (group_keys df))%nat.
Proof.
  intro df.
  replace (List.length (group_keys df))
    with (List.length (daily_returns df))
    by (unfold daily_returns; apply length_map).
  apply (runs_disjoint (fun val => Qltb 0 val) (fun val => Qltb val 0)).
  - intros x Hx. apply Qltb_lt in Hx. apply Qltb_ge.
    now apply Qlt_le_weak.
  - apply streak_loop_longest_run. unfold calculate_max_streaks. cbn. lia.
  - apply streak_loop_longest_run. unfold calculate_max_streaks. cbn. lia.
Qed.

(** * Held counts *)

Lemma add_range_counts (c : Z -> Z) (dates : list Z) (e x : Z) :
  add_range (map (fun d => (d, c d)) dates) (date_range e x)
  = map (fun d => (d, (c d + if (e <=? d)%Z && (d <=? x)%Z then 1 else 0)%Z))
        dates.
Proof.
  unfold add_range. rewrite map_map. apply map_ext. intro d. cbn [fst snd].
  destruct (existsb (Z.eqb d) (date_range e x)) eqn:E.
  - apply existsb_eqb_In, date_range_In in E.
    replace ((e <=? d)%Z && (d <=? x)%Z) with true; [reflexivity|].
    symmetry. apply andb_true_iff. split; apply Z.leb_le; lia.
  - replace ((e <=? d)%Z && (d <=? x)%Z) with false;
      [now rewrite Z.add_0_r|].
    symmetry. apply not_true_iff_false. intro H.
    apply andb_true_iff in H. destruct H as [H1 H2].
    apply Z.leb_le in H1, H2.
    assert (Hin : In d (date_range e x)) by (apply date_range_In; lia).
    apply existsb_eqb_In in Hin. congruence.
Qed.

Lemma held_loop_counts (dates : list Z) :
  forall (df : list Trade) (c : Z -> Z),
    fold_left
      (fun held_counts row =>
         add_range held_counts (date_range (entry_date row) (exit_date row)))
      df (map (fun d => (d, c d)) dates)
    = map (fun d => (d, (c d + Z.of_nat (held_count df d))%Z)) dates.
Proof.
  induction df as [|t df IH]; intro c; cbn [fold_left].
  - apply map_ext. intro d. cbn. now rewrite Z.add_0_r.
  - rewrite add_range_counts, IH. apply map_ext. intro d.
    unfold held_count. cbn [filter].
    destruct ((entry_date t <=? d)%Z && (d <=? exit_date t)%Z);
      cbn [List.length]; f_equal; lia.
Qed.

Lemma held_count_le (df : list Trade) (d : Z) :
  (held_count df d <= List.length df)%nat.
Proof. unfold held_count. apply filter_length_le. Qed.

(** X11.  The held counts that the runner builds by adding 1 over the
    date range of every trade are, for every calendar date from the
    earliest entry to the latest exit, the number of trades whose
    [entry, exit] interval contains the date (the count the summary tool
    computes by filtering); no count exceeds the number of trades. *)
Theorem held_counts_loop_counts :
  forall (t0 : Trade) (rest : list Trade),
    let df := t0 :: rest in
    exists held_counts,
      held_counts_loop df = Some held_counts /\
      held_counts
      = map (fun d => (d, Z.of_nat (held_count df d)))
            (date_range (min_date (entry_date t0) (map entry_date df))
                        (max_date (exit_date t0) (map exit_date df))) /\
      (forall d c, In (d, c) held_counts ->
                   (0 <= c <= Z.of_nat (List.length df))%Z).
Proof.
  intros t0 rest df. eexists. split; [reflexivity|].
  assert (E : fold_left
                (fun held_counts row =>
                   add_range held_counts
                             (date_range (entry_date row) (exit_date row)))
                df
                (map (fun d => (d, 0%Z))
                     (date_range (min_date (entry_date t0) (map entry_date df))
                                 (max_date (exit_date t0) (map exit_date df))))
              = map (fun d => (d, Z.of_nat (held_count df d)))
                    (date_range (min_date (entry_date t0) (map entry_date df))
                                (max_date (exit_date t0) (map exit_date df)))).
  { exact (held_loop_counts _ df (fun _ => 0%Z)). }
  split; [exact E|].
  intros d c Hin. rewrite E in Hin. apply in_map_iff in Hin.
  destruct Hin as (d' & Heq & _). injection Heq as _ <-.
  pose proof (held_count_le df d'). lia.
Qed.

(** * Weekly and monthly summaries *)

Lemma fold_Qplus_acc (l : list Q) :
  forall a, fold_left Qplus l a == a + fold_left Qplus l 0.
Proof.
  induction l as [|x l IH]; intro a; cbn [fold_left].
  - ring.
  - rewrite (IH (a + x)), (IH (0 + x)). ring.
Qed.

Lemma Qsum_cons (x : Q) (l : list Q) : Qsum (x :: l) == x + Qsum l.
Proof. unfold Qsum. cbn [fold_left]. rewrite fold_Qplus_acc. ring. Qed.

Lemma Qsum_app (l1 l2 : list Q) : Qsum (l1 ++ l2) == Qsum l1 + Qsum l2.
Proof.
  induction l1 as [|x l1 IH]; cbn [app].
  - unfold Qsum at 2. cbn. ring.
  - rewrite !Qsum_cons, IH. ring.
Qed.

Lemma Qsum_map_plus {A : Type} (f g : A -> Q) (l : list A) :
  Qsum (map (fun a => f a + g a) l) == Qsum (map f l) + Qsum (map g l).
Proof.
  induction l as [|a l IH]; cbn [map].
  - reflexivity.
  - rewrite !Qsum_cons, IH. ring.
Qed.

Lemma Qsum_map_ext {A : Type} (f g : A -> Q) (l : list A) :
  (forall a, In a l -> f a == g a) -> Qsum (map f l) == Qsum (map g l).
Proof.
  induction l as [|a l IH]; intro H; cbn [map].
  - reflexivity.
  - rewrite !Qsum_cons, IH, (H a) by (intros; apply H; cbn; tauto)
      || (cbn; tauto).
    reflexivity.
Qed.

Lemma Qsum_indicator (k0 : Z) (v : Q) (keys : list Z) :
  NoDup keys ->
  Qsum (map (fun k => if (k0 =? k)%Z then v else 0) keys)
  == if existsb (Z.eqb k0) keys then v else 0.
Proof.
  induction 1 as [|k keys Hnotin Hnd IH]; cbn [map existsb].
  - reflexivity.
  - rewrite Qsum_cons, IH. destruct (k0 =? k)%Z eqn:E; cbn [orb].
    + apply Z.eqb_eq in E. subst k.
      destruct (existsb (Z.eqb k0) keys) eqn:Ex.
      * apply existsb_eqb_In in Ex. contradiction.
      * ring.
    + ring.
Qed.

Lemma Qsum_partition (key : Trade -> Z) (f : Trade -> Q) (keys : list Z) :
  NoDup keys ->
  forall df,
    (forall t, In t df -> In (key t) keys) ->
    Qsum (map (fun k => Qsum (map f (filter (fun t => (key t =? k)%Z) df)))
              keys)
    == Qsum (map f df).
Proof.
  intros Hnd. induction df as [|t df IH]; intro Hin.
  - cbn [filter map]. clear. induction keys as [|k keys IH]; cbn [map].
    + reflexivity.
    + rewrite Qsum_cons, IH. reflexivity.
  - cbn [map]. rewrite Qsum_cons, <- IH by (intros; apply Hin; now right).
    rewrite (Qsum_map_ext _
      (fun k => (if (key t =? k)%Z then f t else 0)
                + Qsum (map f (filter (fun t0 => (key t0 =? k)%Z) df)))).
    + rewrite Qsum_map_plus, Qsum_indicator by exact Hnd.
      replace (existsb (Z.eqb (key t)) keys) with true; [reflexivity|].
      symmetry. apply existsb_eqb_In, Hin. now left.
    + intros k _. cbn [filter]. destruct (key t =? k)%Z; cbn [map].
      * apply Qsum_cons.
      * ring.
Qed.

Lemma insert_key_sorted (d : Z) (keys : list Z) :
  StronglySorted Z.lt keys -> StronglySorted Z.lt (insert_key d keys).
Proof.
  induction 1 as [|k keys Hs IH Hk]; cbn [insert_key].
  - repeat constructor.
  - destruct (d <? k)%Z eqn:E1.
    + apply Z.ltb_lt in E1. constructor; [now constructor|].
      constructor; [exact E1|].
      rewrite Forall_forall in *. intros x Hx. specialize (Hk x Hx). lia.
    + destruct (d =? k)%Z eqn:E2; [now constructor|].
      apply Z.ltb_ge in E1. apply Z.eqb_neq in E2.
      constructor; [exact IH|].
      rewrite Forall_forall in *. intros x Hx.
      apply insert_key_In in Hx. destruct Hx as [->|Hx]; [lia|now apply Hk].
Qed.

Lemma period_keys_sorted (period : Z -> Z) (df : list Trade) :
  StronglySorted Z.lt (period_keys period df).
Proof.
  unfold period_keys. induction (map _ df) as [|x l IH]; cbn.
  - constructor.
  - now apply insert_key_sorted.
Qed.

Lemma sorted_NoDup (l : list Z) : StronglySorted Z.lt l -> NoDup l.
Proof.
  induction 1 as [|k l Hs IH Hk]; constructor; [|exact IH].
  intro Hin. rewrite Forall_forall in Hk. specialize (Hk k Hin). lia.
Qed.

Lemma period_keys_In (period : Z -> Z) (df : list Trade) (k : Z) :
  In k (period_keys period df) <->
  exists t, In t df /\ period (entry_date t) = k.
Proof.
  unfold period_keys. rewrite <- (map_map entry_date period).
  induction df as [|t df IH]; cbn.
  - split; [tauto|]. intros (t & [] & _).
  - rewrite insert_key_In, IH. split.
    + intros [->|(t' & Ht' & E)]; [exists t; tauto|exists t'; tauto].
    + intros (t' & [<-|Ht'] & E); [now left|right; now exists t'].
Qed.

Lemma Qsum_by_period (period : Z -> Z) (f : Trade -> Q) (df : list Trade) :
  Qsum (map (fun g => Qsum (map f g))
            (map (period_group period df) (period_keys period df)))
  == Qsum (map f df).
Proof.
  rewrite map_map.
  apply (Qsum_partition (fun t => period (entry_date t)) f).
  - apply sorted_NoDup, period_keys_sorted.
  - intros t Ht. apply period_keys_In. now exists t.
Qed.

Lemma Qsum_ones {A : Type} (l : list A) :
  Qsum (map (fun _ => 1) l) == count_q (List.length l).
Proof.
  unfold count_q. induction l as [|a l IH]; cbn [map List.length].
  - reflexivity.
  - rewrite Qsum_cons, IH, Nat2Z.inj_succ, <- Z.add_1_l, inject_Z_plus.
    reflexivity.
Qed.

Lemma win_lose_length (g : list Trade) :
  (win_count g + lose_count g = List.length g)%nat.
Proof.
  unfold win_count, lose_count. induction g as [|t g IH]; [reflexivity|].
  cbn [filter List.length]. unfold Qltb at 1.
  destruct (Qle_bool (return_pct t) 0); cbn [negb List.length]; lia.
Qed.

Lemma count_q_plus (a b : nat) : count_q (a + b) == count_q a + count_q b.
Proof. unfold count_q. now rewrite Nat2Z.inj_add, inject_Z_plus. Qed.

Lemma count_q_nonneg (a : nat) : 0 <= count_q a.
Proof.
  unfold count_q. change 0 with (inject_Z 0). rewrite <- Zle_Qle. lia.
Qed.

Lemma win_fraction_bounds (g : list Trade) :
  0 <= count_q (win_count g) / count_q (List.length g) <= 1.
Proof.
  pose proof (win_lose_length g) as Hwl.
  pose proof (count_q_nonneg (win_count g)) as Hw.
  destruct (List.length g) as [|n] eqn:E.
  - assert (win_count g = 0%nat) by lia. rewrite H.
    split; [apply Qle_bool_iff; reflexivity|apply Qle_bool_iff; reflexivity].
  - assert (Hpos : 0 < count_q (S n)).
    { unfold count_q. change 0 with (inject_Z 0). rewrite <- Zlt_Qlt. lia. }
    split.
    + apply Qle_shift_div_l; [exact Hpos|]. rewrite Qmult_0_l. exact Hw.
    + apply Qle_shift_div_r; [exact Hpos|]. rewrite Qmult_1_l.
      unfold count_q. rewrite <- Zle_Qle. lia.
Qed.

Lemma round_2_unit (x : Q) : 0 <= x <= 1 -> 0 <= round x 2 <= 1.
Proof.
  intros [H0 H1]. split.
  - apply (Qle_trans _ (round 0 2)); [apply Qle_bool_iff; reflexivity|].
    now apply round_monotone.
  - apply (Qle_trans _ (round 1 2)); [now apply round_monotone|].
    apply Qle_bool_iff. reflexivity.
Qed.

(** X12.  In the weekly summary every row belongs to a week with at least
    one trade, its wins and losses add up to the trades of that week and
    its win ratio lies between 0 and 1; the weeks are listed in ascending
    order without repetition, and over all rows wins and losses add up to
    the number of trades in the table. *)
Theorem weekly_summary_counts :
  forall (week : Z -> Z) (df : list Trade),
    (forall k row,
        In (k, row) (generate_weekly_summary week df) ->
        period_group week df k <> [] /\
        week_win row + week_lose row
        == count_q (List.length (period_group week df k)) /\
        0 <= week_win_ratio row <= 1) /\
    StronglySorted Z.lt (map fst (generate_weekly_summary week df)) /\
    Qsum (map (fun kr => week_win (snd kr) + week_lose (snd kr))
              (generate_weekly_summary week df))
    == count_q (List.length df).
Proof.
  intros week df. unfold generate_weekly_summary. split; [|split].
  - intros k row Hin. apply in_map_iff in Hin.
    destruct Hin as (k' & Heq & Hk). injection Heq as -> <-.
    cbn [week_win week_lose week_win_ratio]. split; [|split].
    + apply period_keys_In in Hk. destruct Hk as (t & Ht & E).
      intro Hnil.
      assert (Hin : In t (period_group week df k)).
      { unfold period_group. apply filter_In. split; [exact Ht|].
        now apply Z.eqb_eq. }
      rewrite Hnil in Hin. exact Hin.
    + rewrite <- count_q_plus, win_lose_length. reflexivity.
    + apply round_2_unit. unfold win_ratio. apply round_2_unit.
      apply win_fraction_bounds.
  - rewrite map_map. cbn [fst]. rewrite map_id. apply period_keys_sorted.
  - rewrite map_map. cbn [snd week_win week_lose].
    rewrite (Qsum_map_ext _
      (fun k => Qsum (map (fun _ => 1) (period_group week df k)))).
    + rewrite <- (map_map (period_group week df)
                          (fun g => Qsum (map (fun _ => 1) g))).
      rewrite (Qsum_by_period week (fun _ => 1) df). apply Qsum_ones.
    + intros k _. rewrite <- count_q_plus, win_lose_length, Qsum_ones.
      reflexivity.
Qed.

Lemma rint_comp (x y : Q) : x == y -> rint x = rint y.
Proof.
  intro H. unfold rint. rewrite (Qfloor_comp x y H).
  assert (Hc : Qcompare (x - inject_Z (Qfloor y)) (1 # 2)
               = Qcompare (y - inject_Z (Qfloor y)) (1 # 2))
    by (now rewrite H).
  now rewrite Hc.
Qed.

Lemma round_comp (x y : Q) (n : nat) : x == y -> round x n = round y n.
Proof.
  intro H. unfold round.
  rewrite (rint_comp (x * inject_Z (10 ^ Z.of_nat n))
                     (y * inject_Z (10 ^ Z.of_nat n))); [reflexivity|].
  now rewrite H.
Qed.

Lemma present_app (a b : list (option Q)) :
  present (a ++ b) = present a ++ present b.
Proof. unfold present. apply flat_map_app. Qed.

Lemma present_Some {A : Type} (f : A -> Q) (l : list A) :
  present (map (fun a => Some (f a)) l) = map f l.
Proof.
  unfold present. induction l as [|a l IH]; cbn; [reflexivity|].
  now f_equal.
Qed.

Lemma columns_average (cells : list (option Q)) :
  average_includes_total (with_total_and_average_columns cells).
Proof.
  unfold average_includes_total, with_total_and_average_columns.
  cbn [total_col average_col by_month]. unfold nan_sum.
  set (T := Qsum (present cells)).
  set (k := List.length (present cells)).
  assert (Hp : present (cells ++ [Some T]) = present cells ++ [T]).
  { rewrite present_app. reflexivity. }
  assert (Hm : nan_mean (cells ++ [Some T])
               = Some (Qsum (present cells ++ [T])
                       / inject_Z (Z.of_nat
                                     (List.length (present cells ++ [T]))))).
  { unfold nan_mean. rewrite Hp. clear Hp.
    destruct (present cells ++ [T]) as [|q vs] eqn:E; [|reflexivity].
    apply app_eq_nil in E. destruct E as [_ E]. discriminate. }
  rewrite Hm. clear Hm Hp.
  eexists. eexists. split; [reflexivity|]. split; [reflexivity|].
  split; [reflexivity|].
  rewrite Qsum_app, length_app. cbn [List.length]. fold k.
  assert (Hk : inject_Z (Z.of_nat (k + 1)) == count_q k + 1).
  { fold (count_q (k + 1)). rewrite count_q_plus. reflexivity. }
  rewrite Hk.
  assert (Hpos : ~ count_q k + 1 == 0).
  { pose proof (count_q_nonneg k). lra. }
  replace (Qsum [T]) with (0 + T) by reflexivity. fold T.
  field. exact Hpos.
Qed.

(** X13.  In every row of the monthly table the Average column is the
    mean of the month cells together with the Total cell, not the mean of
    the month cells: with k month cells present,
    Average x (k + 1) = 2 x Total, where Total is the sum of the month
    cells. *)
Theorem monthly_average_column :
  forall (month : Z -> Z) (df : list Trade),
    let s := generate_monthly_summary month df in
    average_includes_total (month_return_pct_sum s) /\
    average_includes_total (month_cumulative_return_pct s) /\
    average_includes_total (month_win s) /\
    average_includes_total (month_lose s) /\
    average_includes_total (month_win_ratio s) /\
    average_includes_total (month_risk_to_reward_average s) /\
    average_includes_total (month_traded s).
Proof.
  intros month df s. subst s. unfold generate_monthly_summary.
  cbn [month_return_pct_sum month_cumulative_return_pct month_win month_lose
       month_win_ratio month_risk_to_reward_average month_traded].
  repeat split; apply columns_average.
Qed.

Lemma cumsum_from_snoc (l : list Q) :
  forall (a x : Q),
    cumsum_from a (l ++ [x]) = cumsum_from a l ++ [fold_left Qplus l a + x].
Proof.
  induction l as [|y l IH]; intros a x; cbn [app cumsum_from fold_left].
  - reflexivity.
  - now rewrite IH.
Qed.

Lemma period_keys_nonempty (period : Z -> Z) (df : list Trade) :
  df <> [] -> period_keys period df <> [].
Proof.
  intros Hne Hk. destruct df as [|t df]; [contradiction|].
  assert (Hin : In (period (entry_date t)) (period_keys period (t :: df))).
  { apply period_keys_In. exists t. split; [now left|reflexivity]. }
  rewrite Hk in Hin. exact Hin.
Qed.

(** X14.  In the monthly table the Total of the trade counts is the
    number of trades of the whole table, the Totals of wins and losses add
    up to it, and for a non-empty table the cumulative return of the last
    month is the sum of the returns of all trades, rounded to 2
    decimals. *)
Theorem monthly_totals :
  forall (month : Z -> Z) (df : list Trade),
    let s := generate_monthly_summary month df in
    (exists T, total_col (month_traded s) = Some T /\
               T == count_q (List.length df)) /\
    (exists W L, total_col (month_win s) = Some W /\
                 total_col (month_lose s) = Some L /\
                 W + L == count_q (List.length df)) /\
    (df <> [] ->
     last (by_month (month_cumulative_return_pct s)) None
     = Some (round (Qsum (map return_pct df)) 2)).
Proof.
  intros month df s. subst s. unfold generate_monthly_summary.
  cbn [month_cumulative_return_pct month_win month_lose month_traded].
  unfold with_total_and_average_columns. cbn [total_col by_month].
  unfold nan_sum. split; [|split].
  - eexists. split; [reflexivity|].
    rewrite (present_Some (fun g => count_q (List.length g))).
    rewrite (Qsum_map_ext _ (fun g => Qsum (map (fun _ => 1) g)))
      by (intros; symmetry; apply Qsum_ones).
    rewrite (Qsum_by_period month (fun _ => 1) df). apply Qsum_ones.
  - eexists. eexists. split; [reflexivity|]. split; [reflexivity|].
    rewrite (present_Some (fun g => count_q (win_count g))).
    rewrite (present_Some (fun g => count_q (lose_count g))).
    rewrite <- Qsum_map_plus.
    rewrite (Qsum_map_ext _ (fun g => Qsum (map (fun _ => 1) g))).
    + rewrite (Qsum_by_period month (fun _ => 1) df). apply Qsum_ones.
    + intros g _. rewrite <- count_q_plus, win_lose_length. symmetry.
      apply Qsum_ones.
  - intro Hne.
    pose proof (Qsum_by_period month return_pct df) as Hsum.
    pose proof (period_keys_nonempty month df Hne) as Hk.
    set (rs := map (fun g => Qsum (map return_pct g))
                   (map (period_group month df) (period_keys month df))) in *.
    assert (Hrs : rs <> []).
    { subst rs. intro E. apply map_eq_nil in E. apply map_eq_nil in E.
      contradiction. }
    destruct (exists_last Hrs) as (l & x & E). rewrite E in *.
    unfold cumsum. rewrite cumsum_from_snoc, map_app. cbn [map].
    rewrite last_last. f_equal. apply round_comp.
    rewrite <- Hsum, Qsum_app. unfold Qsum. cbn [fold_left]. ring.
Qed.

Lemma monthly_totals_witness :
  last (by_month
          (month_cumulative_return_pct
             (generate_monthly_summary (fun d => d)
                (run_backtest no_thresholds None win_series)))) None
  = Some (round (Qsum (map return_pct
                         (run_backtest no_thresholds None win_series))) 2).
Proof.
  apply (proj2 (proj2 (monthly_totals (fun d => d)
                         (run_backtest no_thresholds None win_series)))).
  vm_compute. discriminate.
Defined.

(** * Removal of duplicates *)

Lemma dup_key_eqb_eq (a b : String.string * Z) :
  dup_key_eqb a b = true <-> a = b.
Proof.
  unfold dup_key_eqb. destruct a as [s d], b as [s' d']. cbn [fst snd].
  rewrite andb_true_iff, String.eqb_eq, Z.eqb_eq. split.
  - intros [-> ->]. reflexivity.
  - intros [= -> ->]. now split.
Qed.

Lemma seen_existsb (k : String.string * Z) (seen : list (String.string * Z)) :
  existsb (dup_key_eqb k) seen = true <-> In k seen.
Proof.
  rewrite existsb_exists. split.
  - intros (x & Hx & E). apply dup_key_eqb_eq in E. now subst.
  - intro H. exists k. split; [exact H|]. now apply dup_key_eqb_eq.
Qed.

Lemma drop_duplicates_from_spec (rows : list ResultRow) :
  forall seen,
    NoDup (map dup_key (drop_duplicates_from seen rows)) /\
    (forall r, In r (drop_duplicates_from seen rows) ->
               In r rows /\ ~ In (dup_key r) seen) /\
    (forall r, In r rows ->
               In (dup_key r) seen \/
               In (dup_key r) (map dup_key (drop_duplicates_from seen rows))).
Proof.
  induction rows as [|r rows IH]; intro seen; cbn [drop_duplicates_from].
  - split; [constructor|]. split; intros r [].
  - destruct (existsb (dup_key_eqb (dup_key r)) seen) eqn:E.
    + apply seen_existsb in E. destruct (IH seen) as (H1 & H2 & H3).
      split; [exact H1|]. split.
      * intros x Hx. destruct (H2 x Hx). split; [now right|assumption].
      * intros x [<-|Hx]; [now left|now apply H3].
    + assert (Hns : ~ In (dup_key r) seen).
      { intro H. apply seen_existsb in H. congruence. }
      destruct (IH (dup_key r :: seen)) as (H1 & H2 & H3).
      split; [|split].
      * cbn [map]. constructor; [|exact H1].
        intro Hin. apply in_map_iff in Hin. destruct Hin as (x & Ex & Hx).
        destruct (H2 x Hx) as [_ Hn]. apply Hn. left. now symmetry.
      * intros x [<-|Hx]; [split; [now left|exact Hns]|].
        destruct (H2 x Hx) as [Hin Hn]. split; [now right|].
        intro H. apply Hn. now right.
      * intros x [<-|Hx]; [right; now left|].
        destruct (H3 x Hx) as [[Ek|Hs]|Ho].
        { right. left. exact Ek. }
        { now left. }
        { right. now right. }
Qed.

Lemma drop_duplicates_from_id (rows : list ResultRow) :
  forall seen,
    NoDup (map dup_key rows) ->
    (forall r, In r rows -> ~ In (dup_key r) seen) ->
    drop_duplicates_from seen rows = rows.
Proof.
  induction rows as [|r rows IH]; intros seen Hnd Hs; [reflexivity|].
  cbn [drop_duplicates_from]. cbn in Hnd.
  inversion Hnd as [|? ? Hnotin Hnd']; subst.
  destruct (existsb (dup_key_eqb (dup_key r)) seen) eqn:E.
  - apply seen_existsb in E. exfalso. apply (Hs r); [now left|exact E].
  - f_equal. apply IH; [exact Hnd'|].
    intros x Hx [Ek|Hin].
    + apply Hnotin. rewrite Ek. now apply in_map.
    + apply (Hs x); [now right|exact Hin].
Qed.

(** X15.  After the removal of duplicates no two rows share a symbol code
    and trigger date, every row kept is a row of the input, and every
    (code, trigger date) pair of the input is still present. *)
Theorem drop_duplicates_keys :
  forall (rows : list ResultRow),
    NoDup (map dup_key (drop_duplicates rows)) /\
    (forall r, In r (drop_duplicates rows) -> In r rows) /\
    (forall r, In r rows ->
               In (dup_key r) (map dup_key (drop_duplicates rows))) /\
    (List.length (drop_duplicates rows) <= List.length rows)%nat.
Proof.
  intro rows. unfold drop_duplicates.
  destruct (drop_duplicates_from_spec rows []) as (H1 & H2 & H3).
  split; [exact H1|]. split; [intros r Hr; apply (H2 r Hr)|]. split.
  - intros r Hr. destruct (H3 r Hr) as [[]|H]. exact H.
  - apply NoDup_incl_length.
    + now apply NoDup_map_inv in H1.
    + intros r Hr. apply (H2 r Hr).
Qed.

Lemma NoDup_map_from {A B C : Type} (f : A -> B) (g : A -> C) (l : list A) :
  NoDup (map g l) ->
  (forall a b, In a l -> In b l -> f a = f b -> g a = g b) ->
  NoDup (map f l).
Proof.
  induction l as [|a l IH]; intros Hnd Hfg; cbn; constructor.
  - intro Hin. apply in_map_iff in Hin. destruct Hin as (b & E & Hb).
    cbn in Hnd. inversion Hnd as [|? ? Hnotin _]; subst.
    apply Hnotin. rewrite (Hfg a b); [now apply in_map|now left|now right|].
    now symmetry.
  - cbn in Hnd. inversion Hnd; subst. apply IH; [assumption|].
    intros x y Hx Hy. apply Hfg; now right.
Qed.

Lemma trigger_dates_NoDup (p : Params) (m : option Z) (df0 : DataFrame) :
  NoDup (map date_ df0) ->
  NoDup (map trigger_date (run_backtest p m df0)).
Proof.
  intro Hnd. unfold run_backtest. rewrite map_map.
  apply (NoDup_map_from _ trigger_idx); [apply events_trigger_NoDup|].
  intros a b Ha Hb E.
  destruct (event_trigger_row _ _ _ _ Ha) as (ra & Hra & Hda).
  destruct (event_trigger_row _ _ _ _ Hb) as (rb & Hrb & Hdb).
  apply (NoDup_dates_loc (sort_values df0) _ _ ra rb);
    [now apply sort_values_NoDup|exact Hra|exact Hrb|congruence].
Qed.

(** X16.  The removal of duplicates changes nothing on the records of a
    single pass over a symbol whose bars have pairwise different dates:
    such a pass never gives two records with one trigger date. *)
Theorem drop_duplicates_single_pass :
  forall (p : Params) (m : option Z) (df0 : DataFrame) (code : String.string),
    NoDup (map date_ df0) ->
    NoDup (map trigger_date (run_backtest p m df0)) /\
    drop_duplicates (map (pair code) (run_backtest p m df0))
    = map (pair code) (run_backtest p m df0).
Proof.
  intros p m df0 code Hnd.
  pose proof (trigger_dates_NoDup p m df0 Hnd) as Ht.
  split; [exact Ht|].
  apply drop_duplicates_from_id; [|intros r _ []].
  rewrite map_map. unfold dup_key. cbn [fst snd].
  apply (NoDup_map_from _ trigger_date); [exact Ht|].
  intros a b _ _ [= E]. exact E.
Qed.

Lemma drop_duplicates_single_pass_witness :
  drop_duplicates
    (map (pair "005930"%string) (run_backtest no_thresholds None overlap_series))
  = map (pair "005930"%string) (run_backtest no_thresholds None overlap_series).
Proof.
  apply (drop_duplicates_single_pass no_thresholds None overlap_series
           "005930"%string).
  cbn. repeat constructor; cbn; lia.
Defined.

(** * Slopes *)

Lemma firstn_S_loc {A : Type} (l : list A) :
  forall i x, nth_error l i = Some x -> firstn (S i) l = firstn i l ++ [x].
Proof.
  induction l as [|a l IH]; intros [|i] x H; cbn in H; try discriminate.
  - injection H as ->. reflexivity.
  - cbn [firstn app]. f_equal. now apply IH.
Qed.




(** * The augmenter's entry checker *)

Lemma nth_error_map_seq {A : Type} (f : nat -> A) (n i : nat) :
  (i < n)%nat -> nth_error (map f (seq 0 n)) i = Some (f i).
Proof.
  intro H. rewrite nth_error_map, nth_error_seq.
  destruct (Nat.ltb_spec i n) as [_|H']; [reflexivity|lia].
Qed.

Lemma nth_error_combine {A B : Type} (l1 : list A) :
  forall (l2 : list B) i a b,
    nth_error l1 i = Some a -> nth_error l2 i = Some b ->
    nth_error (combine l1 l2) i = Some (a, b).
Proof.
  induction l1 as [|x l1 IH]; intros [|y l2] [|i] a b H1 H2;
    cbn in *; try discriminate.
  - congruence.
  - now apply IH.
Qed.

Lemma low_ma_5_cell (df : DataFrame) (i : nat) (row : Bar) :
  loc df i = Some row ->
  nth_error (calculate_low_ma_5 df) i
  = Some (if (i <? 4)%nat then None
          else Some ((Qsum (map close (loc_slice df (i - 4) (i - 1)))
                      + low row) / 5)).
Proof.
  intro H. unfold calculate_low_ma_5.
  assert (Hi : (i < List.length df)%nat).
  { apply nth_error_Some. unfold loc in H. congruence. }
  rewrite (nth_error_map_seq _ _ _ Hi). rewrite H. reflexivity.
Qed.

Lemma checker_cell (df : DataFrame) (i : nat) (row : Bar) :
  loc df i = Some row ->
  nth_error (calculate_false_entry_checker (calculate_low_ma_5 df) df) i
  = Some (if (i <? 4)%nat then None
          else if Qltb ((Qsum (map close (loc_slice df (i - 4) (i - 1)))
                         + low row) / 5) (low row)
               then Some "No_Entry_Made"%string
               else Some "Entry_Made"%string).
Proof.
  intro H. unfold calculate_false_entry_checker.
  rewrite nth_error_map.
  rewrite (nth_error_combine _ _ i _ row (low_ma_5_cell df i row H) H).
  cbn [option_map fst snd]. destruct (i <? 4)%nat; reflexivity.
Qed.

(** X18.  The augmenter leaves the entry checker empty on the first four
    rows.  On every later row it writes "Entry_Made" exactly when the low
    of the day is at most the mean of the four previous closes, and
    "No_Entry_Made" exactly when the low is above that mean. *)
Theorem false_entry_checker_rule :
  forall (df : DataFrame) (i : nat) (row : Bar),
    loc df i = Some row ->
    exists cell,
      nth_error (calculate_false_entry_checker (calculate_low_ma_5 df) df) i
      = Some cell /\
      ((i < 4)%nat -> cell = None) /\
      ((4 <= i)%nat ->
       let prev_4_closes := map close (loc_slice df (i - 4) (i - 1)) in
       (cell = Some "Entry_Made"%string <->
        low row <= Qsum prev_4_closes / 4) /\
       (cell = Some "No_Entry_Made"%string <->
        Qsum prev_4_closes / 4 < low row)).
Proof.
  intros df i row H. eexists. split; [apply (checker_cell df i row H)|].
  destruct (Nat.ltb_spec i 4) as [Hi|Hi].
  - split; [reflexivity|lia].
  - split; [lia|]. intros _ prev.
    fold prev. set (s := Qsum prev).
    assert (Hlt : (s + low row) / 5 < low row <-> s / 4 < low row).
    { unfold Qdiv. change (/ 5) with (1 # 5). change (/ 4) with (1 # 4).
      split; intro; lra. }
    destruct (Qltb ((s + low row) / 5) (low row)) eqn:E.
    + apply Qltb_lt in E. apply Hlt in E. split.
      * split; [discriminate|]. intro Hle. lra.
      * split; [intros _; exact E|reflexivity].
    + apply Qltb_ge in E.
      assert (Hle : low row <= s / 4).
      { apply Qnot_lt_le. intro Hc. apply Hlt in Hc. lra. }
      split.
      * split; [intros _; exact Hle|reflexivity].
      * split; [discriminate|]. intro Hc. lra.
Qed.

Lemma false_entry_checker_rule_witness :
  nth_error
    (calculate_false_entry_checker (calculate_low_ma_5 overlap_series)
                                   overlap_series) 4
  = Some (Some "No_Entry_Made"%string).
Proof.
  destruct (false_entry_checker_rule overlap_series 4
              (bar 5 104 108 103 107 4 105 101 96) eq_refl)
    as (cell & Hc & _ & H4).
  destruct (H4 (le_n 4)) as [_ [_ Hno]].
  rewrite Hc, Hno; [reflexivity|]. vm_compute. reflexivity.
Defined.

(** X19.  The low-based average of the augmenter is defined on the rows on
    which the five-day average of the closes is, and lies below it by a
    fifth of the distance from the low to the close of the day. *)
Theorem low_ma_5_below_ma_5 :
  forall (df : DataFrame) (i : nat) (row : Bar),
    loc df i = Some row ->
    ((i < 4)%nat ->
     nth_error (calculate_low_ma_5 df) i = Some None /\
     nth_error (rolling_mean 5 (map close df)) i = Some None) /\
    ((4 <= i)%nat ->
     exists low_ma_5 ma_5,
       nth_error (calculate_low_ma_5 df) i = Some (Some low_ma_5) /\
       nth_error (rolling_mean 5 (map close df)) i = Some (Some ma_5) /\
       low_ma_5 == ma_5 - (close row - low row) / 5).
Proof.
  intros df i row H.
  assert (Hi : (i < List.length df)%nat).
  { apply nth_error_Some. unfold loc in H. congruence. }
  pose proof (low_ma_5_cell df i row H) as HL.
  assert (HM : nth_error (rolling_mean 5 (map close df)) i
               = Some (if (S i <? 5)%nat then None
                       else Some (Qsum (firstn 5 (skipn (S i - 5)
                                                    (map close df)))
                                  / inject_Z (Z.of_nat 5)))).
  { unfold rolling_mean. rewrite length_map.
    now rewrite (nth_error_map_seq _ _ _ Hi). }
  split; intro Hlt.
  - destruct (Nat.ltb_spec i 4) as [_|]; [|lia].
    destruct (Nat.ltb_spec (S i) 5) as [_|]; [|lia].
    now split.
  - destruct (Nat.ltb_spec i 4) as [|_]; [lia|].
    destruct (Nat.ltb_spec (S i) 5) as [|_]; [lia|].
    eexists. eexists. split; [exact HL|]. split; [exact HM|].
    replace (S i - 5)%nat with (i - 4)%nat by lia.
    rewrite skipn_map, firstn_map.
    assert (E4 : nth_error (skipn (i - 4) df) 4 = Some row).
    { rewrite nth_error_skipn. replace (i - 4 + 4)%nat with i by lia.
      exact H. }
    rewrite (firstn_S_loc _ 4 row E4), map_app, Qsum_app. cbn [map].
    rewrite Qsum_cons. unfold loc_slice.
    replace (S (i - 1) - (i - 4))%nat with 4%nat by lia.
    set (s := Qsum (map close (firstn 4 (skipn (i - 4) df)))).
    change (Qsum []) with 0. change (inject_Z (Z.of_nat 5)) with 5.
    field.
Qed.

Lemma low_ma_5_below_ma_5_witness :
  exists low_ma_5 ma_5,
    nth_error (calculate_low_ma_5 overlap_series) 4 = Some (Some low_ma_5) /\
    nth_error (rolling_mean 5 (map close overlap_series)) 4
    = Some (Some ma_5) /\
    low_ma_5 == ma_5 - (107 - 103) / 5.
Proof.
  exact (proj2 (low_ma_5_below_ma_5 overlap_series 4
                  (bar 5 104 108 103 107 4 105 101 96) eq_refl) (le_n 4)).
Defined.

(** * Totals of the daily summaries *)

Lemma rint_inject_Z (k : Z) : rint (inject_Z k) = k.
Proof.
  unfold rint. rewrite Qfloor_Z.
  destruct (Qcompare_spec (inject_Z k - inject_Z k) (1 # 2)) as [C|C|C].
  - exfalso. lra.
  - reflexivity.
  - exfalso. lra.
Qed.

Lemma round_inject_Z (k : Z) (n : nat) : round (inject_Z k) n == inject_Z k.
Proof.
  unfold round. pose proof (scale_pos n) as Hs.
  rewrite (rint_comp (inject_Z k * inject_Z (10 ^ Z.of_nat n))
                     (inject_Z (k * 10 ^ Z.of_nat n)))
    by (now rewrite inject_Z_mult).
  rewrite rint_inject_Z, inject_Z_mult.
  set (s := inject_Z (10 ^ Z.of_nat n)) in *.
  field. intro H. rewrite H in Hs. now apply Qlt_irrefl in Hs.
Qed.

Lemma Qsum_partition_le (key : Trade -> Z) (f : Trade -> Q) (keys : list Z) :
  NoDup keys ->
  (forall t, 0 <= f t) ->
  forall df,
    Qsum (map (fun k => Qsum (map f (filter (fun t => (key t =? k)%Z) df)))
              keys)
    <= Qsum (map f df).
Proof.
  intros Hnd Hf. induction df as [|t df IH].
  - cbn [filter map]. clear. induction keys as [|k keys IH]; cbn [map].
    + apply Qle_refl.
    + rewrite Qsum_cons. unfold Qsum at 1. cbn [fold_left]. lra.
  - cbn [map]. rewrite Qsum_cons.
    rewrite (Qsum_map_ext _
      (fun k => (if (key t =? k)%Z then f t else 0)
                + Qsum (map f (filter (fun t0 => (key t0 =? k)%Z) df)))).
    + rewrite Qsum_map_plus, Qsum_indicator by exact Hnd.
      specialize (Hf t).
      destruct (existsb (Z.eqb (key t)) keys); lra.
    + intros k _. cbn [filter]. destruct (key t =? k)%Z; cbn [map].
      * apply Qsum_cons.
      * ring.
Qed.

Lemma Qsum_rounded_counts {A : Type} (c : A -> nat) (l : list A) :
  Qsum (map (fun a => round (count_q (c a)) 2) l)
  == Qsum (map (fun a => count_q (c a)) l).
Proof.
  apply Qsum_map_ext. intros a _. apply round_inject_Z.
Qed.

Lemma group_keys_NoDup (df : list Trade) : NoDup (group_keys df).
Proof.
  apply sorted_NoDup. exact (period_keys_sorted (fun d => d) df).
Qed.

Lemma date_range_NoDup (lo hi : Z) : NoDup (date_range lo hi).
Proof.
  unfold date_range.
  apply (NoDup_map_from _ (fun i : nat => i)).
  - rewrite map_id. apply seq_NoDup.
  - intros a b _ _ H. lia.
Qed.

Lemma group_nil (df : list Trade) (d : Z) :
  existsb (Z.eqb d) (group_keys df) = false -> group df d = [].
Proof.
  intro H. unfold group.
  destruct (filter _ df) as [|t g] eqn:E; [reflexivity|exfalso].
  assert (Ht : In t (filter (fun t => (entry_date t =? d)%Z) df))
    by (rewrite E; now left).
  apply filter_In in Ht. destruct Ht as [Hin Hd]. apply Z.eqb_eq in Hd.
  assert (Hk : existsb (Z.eqb d) (group_keys df) = true).
  { apply existsb_eqb_In, group_keys_In. rewrite <- Hd. now apply in_map. }
  congruence.
Qed.

(** X20.  In the runner's daily summary the Total of the trade counts is
    the number of trades of the table, and the Total of the sold counts is
    at most that number: exits are counted only on dates that are also
    entry dates. *)
Theorem runner_daily_totals :
  forall (t0 : Trade) (rest : list Trade),
    let df := t0 :: rest in
    exists days total average T S,
      BacktestRunner.generate_daily_summary df
      = Some (days ++ [(Total, total); (Average, average)]) /\
      map fst days = map Day (group_keys df) /\
      n_trades total = Some T /\ T == count_q (List.length df) /\
      n_sold total = Some S /\ S <= count_q (List.length df).
Proof.
  intros t0 rest df.
  eexists. eexists. eexists. eexists. eexists.
  split; [reflexivity|]. split; [now rewrite map_map|].
  split; [reflexivity|]. split; [|split; [reflexivity|]].
  - fold df. rewrite !map_map. cbn [snd n_trades round_row map_row set_counts
      group_stats count_of option_map].
    rewrite (present_Some
               (fun d => round (inject_Z (Z.of_nat (List.length (group df d))))
                               2)).
    rewrite (Qsum_rounded_counts (fun d => List.length (group df d))).
    rewrite (Qsum_map_ext _ (fun d => Qsum (map (fun _ => 1) (group df d))))
      by (intros; symmetry; apply Qsum_ones).
    unfold group.
    rewrite (Qsum_partition entry_date (fun _ => 1) (group_keys df)
               (group_keys_NoDup df) df).
    + apply Qsum_ones.
    + intros t Ht. apply group_keys_In. now apply in_map.
  - fold df. rewrite !map_map. cbn [snd n_sold round_row map_row set_counts
      group_stats count_of option_map].
    rewrite (present_Some
               (fun d => round (inject_Z (Z.of_nat (exit_count df d))) 2)).
    rewrite (Qsum_rounded_counts (exit_count df)).
    rewrite (Qsum_map_ext _
               (fun d => Qsum (map (fun _ => 1)
                                 (filter (fun t => (exit_date t =? d)%Z) df))))
      by (intros; symmetry; apply Qsum_ones).
    rewrite <- (Qsum_ones df).
    apply (Qsum_partition_le exit_date (fun _ => 1) (group_keys df)
             (group_keys_NoDup df)).
    intros _. apply Qle_bool_iff. reflexivity.
Qed.

Lemma gui_trades_cell (df : list Trade) (sold held : option Q) (d : Z) :
  n_trades (round_row (set_counts sold held
                         (map_row fillna0 (SummaryGui.reindex df d))))
  = Some (round (count_q (List.length (group df d))) 2).
Proof.
  unfold SummaryGui.reindex.
  destruct (existsb (Z.eqb d) (group_keys df)) eqn:E.
  - reflexivity.
  - rewrite (group_nil df d E). reflexivity.
Qed.

(** X21.  When no trade leaves before it enters, the Totals of the trade
    counts and of the sold counts in the daily summary of the stand-alone
    tool are both the number of trades of the table. *)
Theorem gui_daily_totals :
  forall (df : list Trade),
    df <> [] ->
    (forall t, In t df -> (entry_date t <= exit_date t)%Z) ->
    exists days total average T S,
      SummaryGui.generate_daily_summary df
      = Some (days ++ [(Total, total); (Average, average)]) /\
      n_trades total = Some T /\ T == count_q (List.length df) /\
      n_sold total = Some S /\ S == count_q (List.length df).
Proof.
  intros df Hne Hle. destruct df as [|t0 rest]; [contradiction|].
  set (df := t0 :: rest) in *.
  set (lo := min_date (entry_date t0) (map entry_date df)).
  set (hi := max_date (exit_date t0) (map exit_date df)).
  destruct (min_date_spec (map entry_date df) (entry_date t0)) as [_ Hlo].
  destruct (max_date_spec (map exit_date df) (exit_date t0)) as [_ Hhi].
  fold lo in Hlo. fold hi in Hhi.
  assert (Hspan : forall t, In t df ->
            (lo <= entry_date t /\ exit_date t <= hi)%Z).
  { intros t Ht. split.
    - apply Hlo. right. now apply in_map.
    - apply Hhi. right. now apply in_map. }
  eexists. eexists. eexists. eexists. eexists.
  split; [reflexivity|].
  split; [reflexivity|]. split; [|split; [reflexivity|]].
  - fold df lo hi. rewrite !map_map. cbn [snd].
    rewrite (map_ext _ _
               (fun d => gui_trades_cell df (count_of (exit_count df d))
                           (count_of (held_count df d)) d)).
    rewrite (present_Some
               (fun d => round (count_q (List.length (group df d))) 2)).
    rewrite (Qsum_rounded_counts (fun d => List.length (group df d))).
    rewrite (Qsum_map_ext _ (fun d => Qsum (map (fun _ => 1) (group df d))))
      by (intros; symmetry; apply Qsum_ones).
    unfold group.
    rewrite (Qsum_partition entry_date (fun _ => 1) (date_range lo hi)
               (date_range_NoDup lo hi) df).
    + apply Qsum_ones.
    + intros t Ht. apply date_range_In.
      specialize (Hspan t Ht). specialize (Hle t Ht). lia.
  - fold df lo hi. rewrite !map_map. cbn [snd n_sold round_row map_row
      set_counts count_of option_map].
    rewrite (present_Some
               (fun d => round (inject_Z (Z.of_nat (exit_count df d))) 2)).
    rewrite (Qsum_rounded_counts (exit_count df)).
    rewrite (Qsum_map_ext _
               (fun d => Qsum (map (fun _ => 1)
                                 (filter (fun t => (exit_date t =? d)%Z) df))))
      by (intros; symmetry; apply Qsum_ones).
    rewrite (Qsum_partition exit_date (fun _ => 1) (date_range lo hi)
               (date_range_NoDup lo hi) df).
    + apply Qsum_ones.
    + intros t Ht. apply date_range_In.
      specialize (Hspan t Ht). specialize (Hle t Ht). lia.
Qed.

Lemma gui_daily_totals_witness :
  exists days total average T S,
    SummaryGui.generate_daily_summary
      (run_backtest no_thresholds None win_series)
    = Some (days ++ [(Total, total); (Average, average)]) /\
    n_trades total = Some T /\ T == count_q 1 /\
    n_sold total = Some S /\ S == count_q 1.
Proof.
  apply (gui_daily_totals (run_backtest no_thresholds None win_series)).
  - vm_compute. discriminate.
  - intros t Ht. vm_compute in Ht. destruct Ht as [<-|[]].
    vm_compute. discriminate.
Defined.

(** * The largest held count *)

Lemma max_held_stocks_counts (t0 : Trade) (rest : list Trade) :
  let df := t0 :: rest in
  max_held_stocks df
  = match map (fun d => Z.of_nat (held_count df d))
              (date_range (min_date (entry_date t0) (map entry_date df))
                          (max_date (exit_date t0) (map exit_date df))) with
    | [] => None
    | c :: l => Some (max_date c l)
    end.
Proof.
  intro df. subst df. unfold max_held_stocks, held_counts_loop.
  cbv beta iota zeta.
  rewrite (held_loop_counts _ (t0 :: rest) (fun _ => 0%Z)).
  rewrite map_map. cbn [snd Z.add]. reflexivity.
Qed.

(** X22.  The largest held count that [main] writes under the monthly
    table is the number of trades open on some calendar date between the
    earliest entry and the latest exit, and on no such date are more trades
    open.  When the latest exit lies before the earliest entry there is no
    date and no largest count. *)
Theorem max_held_stocks_is_max :
  forall (t0 : Trade) (rest : list Trade),
    let df := t0 :: rest in
    let lo := min_date (entry_date t0) (map entry_date df) in
    let hi := max_date (exit_date t0) (map exit_date df) in
    ((lo <= hi)%Z ->
     exists m,
       max_held_stocks df = Some m /\
       (exists d, (lo <= d <= hi)%Z /\ m = Z.of_nat (held_count df d)) /\
       (forall d, (lo <= d <= hi)%Z -> (Z.of_nat (held_count df d) <= m)%Z) /\
       (m <= Z.of_nat (List.length df))%Z) /\
    ((hi < lo)%Z -> max_held_stocks df = None).
Proof.
  intros t0 rest df lo hi.
  pose proof (max_held_stocks_counts t0 rest) as E. cbv zeta in E.
  fold df lo hi in E. rewrite E. clear E.
  pose proof (date_range_In lo hi) as Hr.
  destruct (date_range lo hi) as [|d0 ds] eqn:Ed; cbn [map].
  - split; [|reflexivity]. intro Hle. exfalso.
    apply (proj2 (Hr lo)). lia.
  - split.
    + intros _.
      set (f := fun d => Z.of_nat (held_count df d)).
      destruct (max_date_spec (map f ds) (f d0)) as [Hin Hmax].
      exists (max_date (f d0) (map f ds)). split; [reflexivity|].
      assert (Hd : exists d, In d (d0 :: ds) /\
                             max_date (f d0) (map f ds) = f d).
      { destruct Hin as [Hm|Hm].
        - exists d0. split; [now left|now symmetry].
        - apply in_map_iff in Hm. destruct Hm as (d & Hm & Hin).
          exists d. split; [now right|now symmetry]. }
      destruct Hd as (d & Hdin & Hm).
      split; [|split].
      * exists d. split; [now apply Hr|exact Hm].
      * intros d' Hd'. apply Hr in Hd'. apply Hmax.
        destruct Hd' as [<-|Hd']; [now left|].
        right. now apply (in_map f).
      * rewrite Hm. unfold f. pose proof (held_count_le df d). lia.
    + intro Hlt. exfalso.
      assert (Hin : In d0 (d0 :: ds)) by now left.
      apply Hr in Hin. lia.
Qed.

Lemma max_held_stocks_is_max_witness :
  exists m,
    max_held_stocks (run_backtest no_thresholds None overlap_series) = Some m.
Proof.
  assert (E : exists t0 rest,
             run_backtest no_thresholds None overlap_series = t0 :: rest)
    by (vm_compute; eauto).
  destruct E as (t0 & rest & E). rewrite E.
  destruct (proj1 (max_held_stocks_is_max t0 rest)) as (m & Hm & _).
  - assert (E0 : In t0 (run_backtest no_thresholds None overlap_series))
      by (rewrite E; now left).
    destruct (min_date_spec (map entry_date (t0 :: rest)) (entry_date t0))
      as [_ Hlo].
    destruct (max_date_spec (map exit_date (t0 :: rest)) (exit_date t0))
      as [_ Hhi].
    specialize (Hlo (entry_date t0) (or_introl eq_refl)).
    specialize (Hhi (exit_date t0) (or_introl eq_refl)).
    assert (Hle : (entry_date t0 <= exit_date t0)%Z).
    { vm_compute in E0. destruct E0 as [<-|[<-|[]]]; vm_compute; discriminate. }
    lia.
  - exists m. exact Hm.
Defined.

(** * The verified return *)

(** X23.  On a frame whose entry checker is the one the augmenter
    computes, the verified return of a record is its return when the entry
    row has four rows before it and its low is at most the mean of the four
    previous closes; it is 0 when the low is above that mean, and 0 for every
    record whose entry row is among the first four rows. *)
Theorem verified_return_rule :
  forall (p : Params) (m : option Z) (df0 : DataFrame) (ev : Event),
    map False_Entry_Checker (sort_values df0)
    = calculate_false_entry_checker (calculate_low_ma_5 (sort_values df0))
                                    (sort_values df0) ->
    In ev (run_backtest_events p m df0) ->
    exists row,
      loc (sort_values df0) (entry_idx ev) = Some row /\
      ((entry_idx ev < 4)%nat -> calculate_verified_return (trade ev) = 0) /\
      ((4 <= entry_idx ev)%nat ->
       let prev_4_closes :=
         map close (loc_slice (sort_values df0) (entry_idx ev - 4)
                              (entry_idx ev - 1)) in
       (low row <= Qsum prev_4_closes / 4 ->
        calculate_verified_return (trade ev) = return_pct (trade ev)) /\
       (Qsum prev_4_closes / 4 < low row ->
        calculate_verified_return (trade ev) = 0)).
Proof.
  intros p m df0 ev Hcol Hin.
  destruct (In_events _ _ _ _ Hin) as (idx & trow & n & _ & Ht).
  destruct (try_trade_metrics _ _ _ _ _ _ Ht)
    as (ep & row & ex & _ & Hrow & _ & _ & _ & _ & _ & _ & _ & Hfec & _).
  set (df := sort_values df0) in *.
  exists row. split; [exact Hrow|].
  pose proof (checker_cell df (entry_idx ev) row Hrow) as Hcell.
  rewrite <- Hcol in Hcell.
  rewrite (map_nth_error False_Entry_Checker _ _ Hrow) in Hcell.
  injection Hcell as Hcell.
  unfold calculate_verified_return. rewrite Hfec, Hcell.
  destruct (Nat.ltb_spec (entry_idx ev) 4) as [Hi|Hi].
  - split; [reflexivity|lia].
  - split; [lia|]. intros _. cbv zeta.
    set (s := Qsum (map close (loc_slice df (entry_idx ev - 4)
                                         (entry_idx ev - 1)))).
    assert (Hlt : (s + low row) / 5 < low row <-> s / 4 < low row).
    { unfold Qdiv. change (/ 5) with (1 # 5). change (/ 4) with (1 # 4).
      split; intro; lra. }
    destruct (Qltb ((s + low row) / 5) (low row)) eqn:E.
    + apply Qltb_lt in E. apply Hlt in E. split.
      * intro Hle. exfalso. lra.
      * reflexivity.
    + apply Qltb_ge in E. split.
      * reflexivity.
      * intro Hc. apply Hlt in Hc. exfalso. lra.
Qed.

Lemma verified_return_rule_witness :
  exists ev,
    run_backtest_events no_thresholds None checked_series = [ev] /\
    calculate_verified_return (trade ev) = return_pct (trade ev).
Proof.
  assert (E : exists ev,
             run_backtest_events no_thresholds None checked_series = [ev] /\
             entry_idx ev = 4%nat)
    by (vm_compute; eauto).
  destruct E as (ev & E & He). exists ev. split; [exact E|].
  destruct (verified_return_rule no_thresholds None checked_series ev)
    as (row & Hrow & _ & H4).
  - vm_compute. reflexivity.
  - rewrite E. now left.
  - rewrite He in Hrow, H4. vm_compute in Hrow. injection Hrow as <-.
    apply (H4 (le_n 4)). vm_compute. discriminate.
Defined.

(** * Gain, halt mark and return of a record *)

Lemma try_trade_gain (p : Params) (df : DataFrame) (idx : nat) (row : Bar)
    (n : nat) (ev : Event) :
  try_trade p df idx row n = Some ev ->
  max_gain_pct (trade ev)
  = match (if negb (exit_date (trade ev) =? entry_date (trade ev))%Z
           then max_gain_loop (skipn (S (entry_idx ev)) df) None
           else None) with
    | Some m =>
      round ((m - entry_price (trade ev)) / entry_price (trade ev) * 100) 2
    | None => 0
    end /\
  halt_suspect (trade ev)
  = (1 <? List.length
            (filter is_flat_row
                    (loc_slice df (S (entry_idx ev)) (exit_idx ev))))%nat /\
  days_held (trade ev)
  = rows_between df (entry_date (trade ev)) (exit_date (trade ev)).
Proof.
  unfold try_trade. intro H.
  destruct (loc df (idx - 1)) as [prev|] eqn:Hprev; [|discriminate].
  destruct (is_trigger p df idx prev row) eqn:Htrig; [|discriminate].
  destruct (find_entry df idx) as [[ei ep]|] eqn:Hentry; [|discriminate].
  destruct (loc df ei) as [entry_row|] eqn:Hrow; [|discriminate].
  destruct (negb (is_valid_entry entry_row)); [discriminate|].
  destruct (find_exit df ei ep _) as [ex|] eqn:Hexit; [|discriminate].
  injection H as <-.
  cbn -[loc find_entry find_exit round calculate_target_price
        calculate_return rows_between max_gain_loop loc_slice Nat.ltb].
  repeat split; reflexivity.
Qed.

Lemma event_exit_row (p : Params) (m : option Z) (df0 : DataFrame)
    (ev : Event) :
  In ev (run_backtest_events p m df0) ->
  exists erow xrow,
    loc (sort_values df0) (entry_idx ev) = Some erow /\
    loc (sort_values df0) (exit_idx ev) = Some xrow /\
    entry_date (trade ev) = date_ erow /\
    exit_date (trade ev) = date_ xrow /\
    return_pct (trade ev)
    = calculate_return (entry_price (trade ev)) (exit_price (trade ev)) /\
    target_price (trade ev)
    = calculate_target_price (entry_price (trade ev)) (MA_5 erow)
                             (MA_10 erow) /\
    (outcome (trade ev) = win ->
     (entry_idx ev < exit_idx ev)%nat /\
     exit_price (trade ev) = target_price (trade ev) /\
     target_price (trade ev) <= high xrow /\
     MA_10 xrow < low xrow /\ MA_10 xrow <= open_ xrow).
Proof.
  intro Hin. destruct (In_events _ _ _ _ Hin) as (idx & row & n & _ & Ht).
  destruct (try_trade_inv _ _ _ _ _ _ Ht)
    as (prev & ep & erow & ex & _ & _ & _ & Herow & Hex & _ & Hxi & _ & Hed &
        Hxd & Hep & Hxp & Htp & Ho & Hret & _).
  destruct (find_exit_inv _ _ _ _ _ Hex) as (xrow & _ & Hxrow & Hdate & Hw & _).
  exists erow, xrow. rewrite Hxi, Hed, Hxd, Hep, Hxp, Htp, Ho, Hret.
  repeat (split; [first [assumption | reflexivity]|]). exact Hw.
Qed.

Lemma gain_loop_mono (rows : list Bar) :
  forall a, exists m, max_gain_loop rows (Some a) = Some m /\ a <= m.
Proof.
  induction rows as [|x rows IH]; intro a; cbn [max_gain_loop].
  - exists a. split; [reflexivity|apply Qle_refl].
  - destruct (Qle_bool (low x) (MA_10 x)).
    + exists a. split; [reflexivity|apply Qle_refl].
    + destruct (Qle_bool (MA_10 x) (open_ x)).
      * destruct (IH (py_max a (high x))) as (m & Hm & Hle).
        exists m. split; [exact Hm|].
        apply (Qle_trans _ (py_max a (high x))); [|exact Hle].
        unfold py_max. destruct (Qltb a (high x)) eqn:E.
        -- apply Qltb_lt in E. now apply Qlt_le_weak.
        -- apply Qle_refl.
      * apply IH.
Qed.

Lemma gain_loop_reaches (rows : list Bar) :
  forall acc k r,
    nth_error rows k = Some r ->
    (forall j x, (j <= k)%nat -> nth_error rows j = Some x ->
                 MA_10 x < low x /\ MA_10 x <= open_ x) ->
    exists m, max_gain_loop rows acc = Some m /\ high r <= m.
Proof.
  induction rows as [|x rows IH]; intros acc k r Hk Hall;
    [destruct k; discriminate|].
  cbn [max_gain_loop].
  destruct (Hall 0%nat x (Nat.le_0_l k) eq_refl) as [Hlow Hopen].
  replace (Qle_bool (low x) (MA_10 x)) with false
    by (symmetry; apply Qle_bool_false; exact Hlow).
  replace (Qle_bool (MA_10 x) (open_ x)) with true
    by (symmetry; apply Qle_bool_iff; exact Hopen).
  set (a := match acc with
            | Some m => py_max m (high x)
            | None => high x
            end).
  assert (Ha : high x <= a).
  { unfold a. destruct acc as [m0|]; [|apply Qle_refl].
    unfold py_max. destruct (Qltb m0 (high x)) eqn:E.
    - apply Qle_refl.
    - now apply Qltb_ge in E. }
  assert (Hacc : match acc with
                 | Some m => Some (py_max m (high x))
                 | None => Some (high x)
                 end = Some a) by (unfold a; now destruct acc).
  rewrite Hacc.
  destruct k as [|k]; cbn in Hk.
  - injection Hk as <-. destruct (gain_loop_mono rows a) as (m & Hm & Hle).
    exists m. split; [exact Hm|]. exact (Qle_trans _ _ _ Ha Hle).
  - apply (IH (Some a) k r Hk). intros j y Hj Hy.
    apply (Hall (S j) y); [lia|exact Hy].
Qed.

(** X24.  For a winning record with a positive entry price on a series
    without repeated dates, the recorded maximum gain is at least the
    recorded return: the scan for the gain runs over every row after the
    entry row up to the exit row (and may run past it). *)
Theorem win_max_gain :
  forall (p : Params) (m : option Z) (df0 : DataFrame) (ev : Event),
    NoDup (map date_ df0) ->
    In ev (run_backtest_events p m df0) ->
    outcome (trade ev) = win ->
    0 < entry_price (trade ev) ->
    return_pct (trade ev) <= max_gain_pct (trade ev).
Proof.
  intros p m df0 ev Hnd Hin Hwin Hpos.
  destruct (event_exit_row _ _ _ _ Hin)
    as (erow & xrow & Herow & Hxrow & Hed & Hxd & Hret & _ & Hw).
  destruct (Hw Hwin) as (Hlt & Hxp & Hhigh & Hlow & Hopen).
  destruct (event_exit _ _ _ _ Hin) as (ex & Hex & Hxi & _).
  destruct (find_exit_facts _ _ _ _ _ Hex) as (_ & _ & Hbefore).
  destruct (In_events _ _ _ _ Hin) as (idx & row & n & _ & Ht).
  destruct (try_trade_gain _ _ _ _ _ _ Ht) as (Hgain & _).
  set (df := sort_values df0) in *.
  assert (Hdate : (exit_date (trade ev) =? entry_date (trade ev))%Z = false).
  { apply Z.eqb_neq. intro Heq. rewrite Hed, Hxd in Heq.
    pose proof (NoDup_dates_loc df _ _ _ _ (sort_values_NoDup df0 Hnd)
                  Hxrow Herow Heq). lia. }
  rewrite Hdate in Hgain. cbn [negb] in Hgain.
  destruct (gain_loop_reaches (skipn (S (entry_idx ev)) df) None
              (exit_idx ev - S (entry_idx ev)) xrow) as (g & Hg & Hle).
  - rewrite nth_error_skipn.
    replace (S (entry_idx ev) + (exit_idx ev - S (entry_idx ev)))%nat
      with (exit_idx ev) by lia.
    exact Hxrow.
  - intros j x Hj Hx. rewrite nth_error_skipn in Hx.
    destruct (Nat.eq_dec (S (entry_idx ev) + j) (exit_idx ev)) as [E|N].
    + rewrite E in Hx. unfold loc in Hxrow. rewrite Hxrow in Hx.
      injection Hx as <-. now split.
    + destruct (Hbefore (S (entry_idx ev) + j)%nat x) as (A & B & _);
        [rewrite <- Hxi; lia|exact Hx|now split].
  - rewrite Hg in Hgain. rewrite Hgain, Hret, Hxp.
    unfold calculate_return. apply round_monotone.
    set (ep := entry_price (trade ev)) in *.
    set (tp := target_price (trade ev)) in *.
    apply Qmult_le_compat_r; [|discriminate].
    unfold Qdiv. apply Qmult_le_compat_r.
    + lra.
    + apply Qlt_le_weak, Qinv_lt_0_compat, Hpos.
Qed.

Lemma win_max_gain_witness :
  exists ev,
    run_backtest_events no_thresholds None win_series = [ev] /\
    return_pct (trade ev) <= max_gain_pct (trade ev).
Proof.
  assert (E : exists ev,
             run_backtest_events no_thresholds None win_series = [ev] /\
             outcome (trade ev) = win /\
             Qltb 0 (entry_price (trade ev)) = true)
    by (vm_compute; eauto).
  destruct E as (ev & E & Hw & Hp). exists ev. split; [exact E|].
  apply (win_max_gain no_thresholds None win_series ev).
  - cbn. repeat constructor; cbn; lia.
  - rewrite E. now left.
  - exact Hw.
  - apply Qltb_lt. exact Hp.
Defined.

(** X25.  A record that leaves on its entry row is a loss with maximum
    gain 0 and 0 days held, and a record that leaves on its entry row or on
    the next row is never marked as a suspected trading halt. *)
Theorem record_same_row_exit :
  forall (p : Params) (m : option Z) (df0 : DataFrame) (ev : Event),
    In ev (run_backtest_events p m df0) ->
    (exit_idx ev = entry_idx ev ->
     outcome (trade ev) = loss /\ max_gain_pct (trade ev) = 0 /\
     days_held (trade ev) = 0%nat) /\
    ((exit_idx ev <= S (entry_idx ev))%nat ->
     halt_suspect (trade ev) = false).
Proof.
  intros p m df0 ev Hin.
  destruct (event_exit_row _ _ _ _ Hin)
    as (erow & xrow & Herow & Hxrow & Hed & Hxd & _ & _ & Hw).
  destruct (In_events _ _ _ _ Hin) as (idx & row & n & _ & Ht).
  destruct (try_trade_gain _ _ _ _ _ _ Ht) as (Hgain & Hhalt & Hdays).
  split.
  - intro Heq. rewrite Heq, Herow in Hxrow. injection Hxrow as <-.
    assert (Hd : exit_date (trade ev) = entry_date (trade ev))
      by congruence.
    split; [|split].
    + destruct (outcome (trade ev)); [|reflexivity].
      destruct (Hw eq_refl) as [Hlt _]. lia.
    + rewrite Hgain, Hd, Z.eqb_refl. reflexivity.
    + rewrite Hdays, Hd. unfold rows_between.
      rewrite (filter_ext _ (fun _ => false)); [now rewrite filter_false|].
      intro r. destruct (Z.ltb_spec (entry_date (trade ev)) (date_ r));
        destruct (Z.leb_spec (date_ r) (entry_date (trade ev)));
        try reflexivity; lia.
  - intro Hle. rewrite Hhalt. apply Nat.ltb_ge.
    apply (Nat.le_trans _ _ _ (filter_length_le _ _)).
    unfold loc_slice. rewrite length_firstn. lia.
Qed.

Lemma record_same_row_exit_witness :
  exists ev,
    run_backtest_events no_thresholds None win_series = [ev] /\
    halt_suspect (trade ev) = false.
Proof.
  assert (E : exists ev,
             run_backtest_events no_thresholds None win_series = [ev] /\
             (exit_idx ev <=? S (entry_idx ev))%nat = true)
    by (vm_compute; eauto).
  destruct E as (ev & E & Hle). exists ev. split; [exact E|].
  apply (proj2 (record_same_row_exit no_thresholds None win_series ev
                  ltac:(rewrite E; now left))).
  now apply Nat.leb_le.
Defined.

(** X26.  A winning record with an entry price of at least 1 leaves above
    its entry price, and its return is at least 2.5 percent: the target
    lies at least 3 percent above the entry price before rounding. *)
Theorem win_return_positive :
  forall (p : Params) (m : option Z) (df0 : DataFrame) (ev : Event),
    In ev (run_backtest_events p m df0) ->
    outcome (trade ev) = win ->
    1 <= entry_price (trade ev) ->
    entry_price (trade ev) < exit_price (trade ev) /\
    (5 # 2) <= return_pct (trade ev).
Proof.
  intros p m df0 ev Hin Hwin Hone.
  destruct (event_exit_row _ _ _ _ Hin)
    as (erow & xrow & Herow & _ & _ & _ & Hret & Htp & Hw).
  destruct (Hw Hwin) as (_ & Hxp & _).
  destruct (event_entry_row _ _ _ _ Hin) as (row & Hrow & _ & _ & Hs & _).
  rewrite Herow in Hrow. injection Hrow as <-.
  rewrite Hret, Hxp, Htp. unfold calculate_target_price, calculate_return.
  set (ep := entry_price (trade ev)) in *.
  set (s := (MA_5 erow - MA_10 erow) / MA_10 erow) in *.
  pose proof (round_2_bounds (ep * (1 + s))) as [Hlo _].
  set (tp := round (ep * (1 + s)) 2) in *.
  assert (Hes : ep * (3 # 100) <= ep * s).
  { apply Qmult_le_l; lra. }
  assert (Hx : ep * (1 # 40) <= tp - ep).
  { assert (Hd : ep * (1 + s) == ep + ep * s) by ring.
    rewrite Hd in Hlo. lra. }
  split; [lra|].
  apply (Qle_trans _ (round (5 # 2) 2)); [apply Qle_bool_iff; reflexivity|].
  apply round_monotone.
  assert (Hq : (1 # 40) <= (tp - ep) / ep).
  { apply Qle_shift_div_l; [lra|]. lra. }
  lra.
Qed.

Lemma win_return_positive_witness :
  exists ev,
    run_backtest_events no_thresholds None win_series = [ev] /\
    (5 # 2) <= return_pct (trade ev).
Proof.
  assert (E : exists ev,
             run_backtest_events no_thresholds None win_series = [ev] /\
             outcome (trade ev) = win /\
             Qle_bool 1 (entry_price (trade ev)) = true)
    by (vm_compute; eauto).
  destruct E as (ev & E & Hw & Hp). exists ev. split; [exact E|].
  apply (win_return_positive no_thresholds None win_series ev).
  - rewrite E. now left.
  - exact Hw.
  - apply Qle_bool_iff. exact Hp.
Defined.

(** * The properties above on the example series *)

Lemma held_counts_loop_counts_witness :
  exists held_counts,
    held_counts_loop (run_backtest no_thresholds None win_series)
    = Some held_counts /\
    (forall d c, In (d, c) held_counts -> (0 <= c <= 1)%Z).
Proof.
  assert (E : exists t0,
             run_backtest no_thresholds None win_series = [t0])
    by (vm_compute; eauto).
  destruct E as (t0 & E). rewrite E.
  destruct (held_counts_loop_counts t0 []) as (hc & H1 & _ & H3).
  exists hc. split; [exact H1|]. intros d c H. exact (H3 d c H).
Defined.

Lemma weekly_summary_counts_witness :
  exists k row,
    generate_weekly_summary (fun d => (d / 7)%Z)
      (run_backtest no_thresholds None win_series) = [(k, row)] /\
    0 <= week_win_ratio row <= 1.
Proof.
  assert (E : exists k row,
             generate_weekly_summary (fun d => (d / 7)%Z)
               (run_backtest no_thresholds None win_series) = [(k, row)])
    by (vm_compute; eauto).
  destruct E as (k & row & E). exists k, row. split; [exact E|].
  apply (proj1 (weekly_summary_counts (fun d => (d / 7)%Z)
                  (run_backtest no_thresholds None win_series)) k row).
  rewrite E. now left.
Defined.

Lemma drop_duplicates_keys_witness :
  NoDup (map dup_key
           (drop_duplicates
              (map (pair "005930"%string)
                 (run_backtest no_thresholds None win_series
                  ++ run_backtest no_thresholds None win_series)))) /\
  (List.length
     (drop_duplicates
        (map (pair "005930"%string)
           (run_backtest no_thresholds None win_series
            ++ run_backtest no_thresholds None win_series)))
   <= 2)%nat.
Proof.
  split.
  - apply (proj1 (drop_duplicates_keys _)).
  - apply (Nat.le_trans _ _ _
             (proj2 (proj2 (proj2 (drop_duplicates_keys _))))).
    vm_compute. apply le_n.
Defined.


(** * Bins of the plotter *)




